(** * S3 helper dashboard: connection lifecycle

    A shallow embedding of the server side of the dashboard: the Prisma
    model [AwsConnection], the AWS helper library (lib/aws.ts) and the
    route handlers

      - GET  /api/aws/bootstrap
      - POST /api/aws/verify
      - GET  /api/s3/buckets
      - GET  /api/s3/objects
      - POST /api/s3/presigned-url

    followed by the properties of the connection lifecycle.

    Handlers are asynchronous functions with try/catch.  They are embedded
    in a state-and-exception monad [Task] over a [World] that holds the
    AwsConnection table, the id generator's counter and a log of the calls
    made to the AWS helper library. *)

From Stdlib Require Import List String Ascii ZArith Bool Arith Lia.
From Stdlib Require Import DecimalString DecimalNat DecimalZ SpecFloat.
Import ListNotations.
Local Open Scope string_scope.
Local Open Scope Z_scope.

Set Implicit Arguments.
Set Warnings "-register-all".

(* ================================================================== *)
(** ** JavaScript values the handlers rely on *)

Module JS.

(** A string is represented by its UTF-8 encoding (a string with an
    unpaired surrogate has none and is left out).  The tests the handlers
    make on strings (emptiness, equality, a prefix or an infix of ASCII
    characters) come out the same on the encoding as on the string. *)

(** Truthiness of a string: only the empty string is falsy. *)
Definition truthy (s : string) : bool :=
  match s with EmptyString => false | String _ _ => true end.

(** Truthiness of [string | undefined | null]. *)
Definition truthy_opt (o : option string) : bool :=
  match o with Some s => truthy s | None => false end.

(** [a || b] where [a] is an optional string and [b] a string. *)
Definition or_else (a : option string) (b : string) : string :=
  match a with
  | Some s => if truthy s then s else b
  | None => b
  end.

(** [s.startsWith(p)] *)
Definition startsWith (s p : string) : bool := String.prefix p s.

(** [s.includes(p)] *)
Fixpoint includes (s p : string) : bool :=
  String.prefix p s ||
  match s with
  | EmptyString => false
  | String _ s' => includes s' p
  end.

(** A JavaScript number is an IEEE 754 double: a signed zero, a signed
    infinity, NaN, or a finite number [m * 2^e] with a 53-bit mantissa. *)
Definition number : Type := spec_float.

Definition NaN : number := S754_nan.

(** The double nearest to an integer, ties to even; infinite beyond the
    range of the doubles. *)
Definition of_Z (z : Z) : number := binary_normalize 53 1024 z 0 false.

(** Truthiness of a number: zero (of either sign) and NaN are falsy. *)
Definition truthy_num (n : number) : bool :=
  match n with
  | S754_zero _ | S754_nan => false
  | S754_infinity _ | S754_finite _ _ _ => true
  end.

Definition is_digit (c : ascii) : bool :=
  let n := nat_of_ascii c in (48 <=? n)%nat && (n <=? 57)%nat.

(** White space and line terminators of one, two and three bytes: TAB, LF,
    VT, FF, CR and the space; U+00A0; U+1680, U+2000 to U+200A, U+2028,
    U+2029, U+202F, U+205F, U+3000 and U+FEFF. *)
Definition is_space (a : ascii) : bool :=
  let a := nat_of_ascii a in
  (a =? 32)%nat || ((9 <=? a)%nat && (a <=? 13)%nat).

Definition is_space2 (a b : ascii) : bool :=
  let a := nat_of_ascii a in
  let b := nat_of_ascii b in
  (a =? 194)%nat && (b =? 160)%nat.

Definition is_space3 (a b c : ascii) : bool :=
  let a := nat_of_ascii a in
  let b := nat_of_ascii b in
  let c := nat_of_ascii c in
  ((a =? 225)%nat && (b =? 154)%nat && (c =? 128)%nat)
  || ((a =? 226)%nat && (b =? 128)%nat &&
      (((128 <=? c)%nat && (c <=? 138)%nat)
       || (c =? 168)%nat || (c =? 169)%nat || (c =? 175)%nat))
  || ((a =? 226)%nat && (b =? 129)%nat && (c =? 159)%nat)
  || ((a =? 227)%nat && (b =? 128)%nat && (c =? 128)%nat)
  || ((a =? 239)%nat && (b =? 187)%nat && (c =? 191)%nat).

(** The string without its leading white space. *)
Fixpoint skip_spaces (s : string) : string :=
  match s with
  | String a r =>
      if is_space a then skip_spaces r
      else
        match r with
        | String b r2 =>
            if is_space2 a b then skip_spaces r2
            else
              match r2 with
              | String c r3 => if is_space3 a b c then skip_spaces r3 else s
              | EmptyString => s
              end
        | EmptyString => s
        end
  | EmptyString => s
  end.

(** The value of the longest run of decimal digits [s] starts with, if it
    starts with one. *)
Fixpoint digits (acc : option Z) (s : string) : option Z :=
  match s with
  | String c s' =>
      if is_digit c
      then digits (Some (10 * match acc with Some a => a | None => 0 end
                         + Z.of_nat (nat_of_ascii c - 48))) s'
      else acc
  | EmptyString => acc
  end.

(** [parseInt(s, 10)]: leading white space, an optional sign, then the
    longest run of decimal digits; NaN when there is none.  The result is
    the double nearest to the integer read, as Node computes it from all
    the digits, and a zero takes the sign. *)
Definition parseInt10 (s : string) : number :=
  match skip_spaces s with
  | String "-" r =>
      match digits None r with
      | Some z => binary_normalize 53 1024 (- z) 0 true
      | None => NaN
      end
  | String "+" r =>
      match digits None r with Some z => of_Z z | None => NaN end
  | r => match digits None r with Some z => of_Z z | None => NaN end
  end.

(** Template literal of an integer. *)
Definition show (z : Z) : string := NilZero.string_of_int (Z.to_int z).

(** The messages of the two TypeErrors a handler can run into on a body
    that is not what it expects, in the wording of Node. *)
Definition not_a_function (callee : string) : string :=
  callee ++ " is not a function".

Definition cannot_destructure (property variable : string) : string :=
  "Cannot destructure property '" ++ property ++ "' of '" ++ variable
  ++ "' as it is null.".

End JS.

(* ================================================================== *)
(** ** JSON bodies and HTTP responses *)

Inductive Json :=
| JNull
| JBool (b : bool)
| JNum (n : JS.number)
| JStr (s : string)
| JDate (millis : Z)
| JArr (items : list Json)
| JObj (fields : list (string * Json)).

(** [NextResponse.json(body, { status })] *)
Record Response := { status : Z; body : Json }.

Definition json (b : Json) (st : Z) : Response := {| status := st; body := b |}.

(** A field whose value may be [undefined] is dropped by JSON.stringify. *)
Definition field_opt (k : string) (v : option Json) : list (string * Json) :=
  match v with Some j => [(k, j)] | None => [] end.

Definition keys (j : Json) : list string :=
  match j with JObj fs => map fst fs | _ => [] end.

Fixpoint lookup_field (k : string) (fs : list (string * Json)) : option Json :=
  match fs with
  | [] => None
  | (k', v) :: t => if String.eqb k k' then Some v else lookup_field k t
  end.

Definition get (k : string) (j : Json) : option Json :=
  match j with JObj fs => lookup_field k fs | _ => None end.

(* ================================================================== *)
(** ** The AwsConnection table (Prisma model and its migration)

    [roleArn] is nullable: null marks a pending connection.  The table has
    the primary key [id] and the unique indexes (userId, externalId) and
    (userId, roleArn); PostgreSQL treats nulls as distinct in a unique
    index, so any number of pending rows may coexist. *)

Module Prisma.

(** Modelled from the spec: the Prisma schema (prisma/schema.prisma) is not
    among the sources.  The fields are those of the spec's Connection
    entity; [id] is generated at creation, [createdAt] and [updatedAt] are
    timestamps, and the nullability and unique indexes are those of the
    migration that is among the sources. *)
Record AwsConnection := {
  id : string;
  userId : string;
  externalId : string;
  roleArn : option string;
  name : string;
  createdAt : Z;
  updatedAt : Z
}.

Definition opt_eqb (a b : option string) : bool :=
  match a, b with
  | Some x, Some y => String.eqb x y
  | None, None => true
  | _, _ => false
  end.

(** The [where] clauses used by the handlers: every field is optional and
    the present ones are conjoined. *)
Record Where := {
  w_id : option string;
  w_userId : option string;
  w_roleArn : option (option string)
}.

Definition matches (q : Where) (c : AwsConnection) : bool :=
  match w_id q with Some i => String.eqb (id c) i | None => true end &&
  match w_userId q with Some u => String.eqb (userId c) u | None => true end &&
  match w_roleArn q with Some r => opt_eqb (roleArn c) r | None => true end.

Inductive OrderBy := Unordered | CreatedAtDesc.

(** The row with the greatest [createdAt]; among equals the one that comes
    first in the table. *)
Fixpoint latest (l : list AwsConnection) : option AwsConnection :=
  match l with
  | [] => None
  | c :: t =>
      match latest t with
      | Some d => if createdAt c <? createdAt d then Some d else Some c
      | None => Some c
      end
  end.

(** [prisma.awsConnection.findFirst({ where, orderBy })] on a table.
    Without [orderBy] the database is free to answer any matching row; the
    first one in table order is taken here.  The two queries the handlers
    make without [orderBy] (by id and user, by user and role) have at most
    one matching row in a table that satisfies its unique indexes. *)
Definition select (q : Where) (o : OrderBy) (tbl : list AwsConnection)
  : option AwsConnection :=
  match o with
  | Unordered => List.find (matches q) tbl
  | CreatedAtDesc => latest (List.filter (matches q) tbl)
  end.

(** Would the row [c] collide with a row of [tbl] other than the one called
    [self] on one of the unique indexes? *)
Definition clashes (self : string) (c : AwsConnection) (tbl : list AwsConnection)
  : bool :=
  existsb (fun d =>
    negb (String.eqb (id d) self) &&
    String.eqb (userId d) (userId c) &&
    (String.eqb (externalId d) (externalId c) ||
     match roleArn c with
     | Some r => opt_eqb (roleArn d) (Some r)
     | None => false
     end)) tbl.

Definition has_id (i : string) (tbl : list AwsConnection) : bool :=
  existsb (fun d => String.eqb (id d) i) tbl.

(** The [data] of an update: absent fields are left alone; [roleArn] may be
    given as a string or as null. *)
Record UpdateData := {
  u_roleArn : option (option string);
  u_name : option string
}.

(** The row after an update at time [t]; [updatedAt] is taken to be kept
    by the schema, as Prisma's [@updatedAt] does. *)
Definition apply_update (d : UpdateData) (t : Z) (c : AwsConnection)
  : AwsConnection :=
  {| id := id c;
     userId := userId c;
     externalId := externalId c;
     roleArn := match u_roleArn d with Some r => r | None => roleArn c end;
     name := match u_name d with Some n => n | None => name c end;
     createdAt := createdAt c;
     updatedAt := t |}.

Fixpoint replace (i : string) (c' : AwsConnection) (tbl : list AwsConnection)
  : list AwsConnection :=
  match tbl with
  | [] => []
  | c :: t => if String.eqb (id c) i then c' :: t else c :: replace i c' t
  end.

Definition remove (i : string) (tbl : list AwsConnection) : list AwsConnection :=
  List.filter (fun c => negb (String.eqb (id c) i)) tbl.

End Prisma.

Import Prisma.

(* ================================================================== *)
(** ** Temporary credentials and the AWS services *)

(** The credentials object handed from role assumption to the S3 helpers:
    [expiration] is set by [assumeRole], [region] is read by
    [createS3Client]. *)
Record Credentials := {
  accessKeyId : string;
  secretAccessKey : string;
  sessionToken : string;
  expiration : option Z;
  region : option string
}.

Record StsCredentials := {
  AccessKeyId : string;
  SecretAccessKey : string;
  SessionToken : string;
  Expiration : Z
}.

Record StsClientConfig := {
  sts_accessKeyId : string;
  sts_secretAccessKey : string;
  sts_region : string
}.

Record AssumeRoleInput := {
  RoleArn : option string;
  RoleSessionName : string;
  ExternalId : string;
  DurationSeconds : Z
}.

Record AssumeRoleOutput := { Credentials_ : option StsCredentials }.

Record S3Client := {
  s3_accessKeyId : string;
  s3_secretAccessKey : string;
  s3_sessionToken : string;
  s3_region : string
}.

Record Bucket := { Name : option string; CreationDate : option Z }.

Record ListBucketsOutput := { Buckets : option (list Bucket) }.

Record ListObjectsV2Input := {
  in_Bucket : string;
  in_Prefix : option string;
  in_MaxKeys : option JS.number
}.

Record S3Object := {
  Key : option string;
  Size : option Z;
  LastModified : option Z;
  ETag : option string
}.

Record ListObjectsV2Output := {
  Contents : option (list S3Object);
  IsTruncated : option bool;
  NextContinuationToken : option string
}.

Record PutObjectInput := {
  put_Bucket : string;
  put_Key : string;
  put_ContentType : option string
}.

(** What the outside world answers during one request.  A service answers
    [inl message] when the SDK call rejects with that error message. *)
Record Env := {
  AWS_ACCESS_KEY_ID : option string;
  AWS_SECRET_ACCESS_KEY : option string;
  AWS_REGION : option string;
  (** the clock: [Date.now()], [new Date()] and the database's [now()] *)
  now : Z;
  (** [crypto.randomBytes(32).toString("base64url")] *)
  randomBase64url : string;
  sts_AssumeRole : StsClientConfig -> AssumeRoleInput -> string + AssumeRoleOutput;
  s3_ListBuckets : S3Client -> string + ListBucketsOutput;
  s3_ListObjectsV2 : S3Client -> ListObjectsV2Input -> string + ListObjectsV2Output;
  getSignedUrl : S3Client -> PutObjectInput -> JS.number -> string + string
}.

(* ================================================================== *)
(** ** The world and the monad of asynchronous handlers *)

(** An invocation of one of the helpers of lib/aws.ts. *)
Inductive Call :=
| CallAssumeRole (roleArn : option string) (externalId : string)
| CallListBuckets (credentials : Credentials)
| CallListObjects (bucket : string) (prefix : option string)
    (maxKeys : option JS.number) (credentials : option Credentials)
| CallPresign (bucket key : string) (contentType : option string)
    (credentials : option Credentials) (expiresIn : JS.number).

(** Modelled from the spec: the id generator belongs to the Prisma schema,
    which is not among the sources; the spec asks for an opaque unique
    identifier generated at creation.  [cuid] is the sequence of ids the
    generator hands out and [issued] counts those already handed out. *)
Record World := {
  table : list AwsConnection;
  issued : nat;
  cuid : nat -> string;
  calls : list Call
}.

Definition with_table (t : list AwsConnection) (w : World) : World :=
  {| table := t; issued := issued w; cuid := cuid w; calls := calls w |}.

Definition with_issued (n : nat) (w : World) : World :=
  {| table := table w; issued := n; cuid := cuid w; calls := calls w |}.

Definition with_calls (l : list Call) (w : World) : World :=
  {| table := table w; issued := issued w; cuid := cuid w; calls := l |}.

Inductive Outcome (A : Type) :=
| Returned (a : A)
| Threw (message : string).
Arguments Returned {A} a.
Arguments Threw {A} message.

Definition Task (A : Type) : Type := World -> Outcome A * World.

Definition ret {A} (a : A) : Task A := fun w => (Returned a, w).

Definition throw {A} (message : string) : Task A := fun w => (Threw message, w).

Definition bind {A B} (m : Task A) (k : A -> Task B) : Task B :=
  fun w =>
    match m w with
    | (Returned a, w') => k a w'
    | (Threw e, w') => (Threw e, w')
    end.

Notation "x <- m ;; k" := (bind m (fun x => k))
  (at level 61, m at next level, right associativity).
Notation "m ;;; k" := (bind m (fun _ => k))
  (at level 61, right associativity).

(** An [await] hands control back: [x <- m ;; k] runs [m] and, on a later
    turn, goes on with [k] on what [m] gave.  [resume] is that second
    half; another request may have been served in between. *)
Definition resume {A B} (o : Outcome A) (k : A -> Task B) : Task B :=
  match o with
  | Returned a => k a
  | Threw e => throw e
  end.

(** [try { m } catch (error) { ... error.message ... }]: the body's result
    or the message of what it threw.  Writes made before the throw stay. *)
Definition attempt {A} (m : Task A) : Task (string + A) :=
  fun w =>
    match m w with
    | (Returned a, w') => (Returned (inr a), w')
    | (Threw e, w') => (Returned (inl e), w')
    end.

Definition log (c : Call) : Task unit :=
  fun w => (Returned tt, with_calls (calls w ++ [c]) w).

(** The outermost try/catch of a route: anything thrown becomes a 500 whose
    body carries the handler's own error text and the message. *)
Definition route (failure : string) (m : Task Response) : World -> Response * World :=
  fun w =>
    match m w with
    | (Returned r, w') => (r, w')
    | (Threw e, w') =>
        (json (JObj [("error", JStr failure); ("details", JStr e)]) 500, w')
    end.

(** *** Prisma client calls *)

Definition findFirst (q : Where) (o : OrderBy) : Task (option AwsConnection) :=
  fun w => (Returned (select q o (table w)), w).

Record CreateData := {
  c_userId : string;
  c_externalId : string;
  c_roleArn : option string;
  c_name : string
}.

Definition create (e : Env) (d : CreateData) : Task AwsConnection :=
  fun w =>
    let c := {| id := cuid w (issued w);
                userId := c_userId d;
                externalId := c_externalId d;
                roleArn := c_roleArn d;
                name := c_name d;
                createdAt := now e;
                updatedAt := now e |} in
    let w1 := with_issued (S (issued w)) w in
    if has_id (id c) (table w) || clashes (id c) c (table w)
    then (Threw "Unique constraint failed", w1)
    else (Returned c, with_table (table w ++ [c]) w1).

Definition update (e : Env) (i : string) (d : UpdateData) : Task AwsConnection :=
  fun w =>
    match List.find (fun c => String.eqb (id c) i) (table w) with
    | None => (Threw "Record to update not found.", w)
    | Some c =>
        let c' := apply_update d (now e) c in
        if clashes i c' (table w)
        then (Threw "Unique constraint failed", w)
        else (Returned c', with_table (replace i c' (table w)) w)
    end.

Definition delete (i : string) : Task AwsConnection :=
  fun w =>
    match List.find (fun c => String.eqb (id c) i) (table w) with
    | None => (Threw "Record to delete does not exist.", w)
    | Some c => (Returned c, with_table (remove i (table w)) w)
    end.

(* ================================================================== *)
(** ** lib/aws.ts: role assumption and S3 access *)

Module Aws.

Record BaseCredentials := {
  base_accessKeyId : string;
  base_secretAccessKey : string;
  base_region : string
}.

Definition getBaseCredentials (e : Env) : Task BaseCredentials :=
  let region := JS.or_else (AWS_REGION e) "us-east-1" in
  match AWS_ACCESS_KEY_ID e, AWS_SECRET_ACCESS_KEY e with
  | Some a, Some s =>
      if negb (JS.truthy a) || negb (JS.truthy s)
      then throw "AWS_ACCESS_KEY_ID and AWS_SECRET_ACCESS_KEY must be set in environment variables"
      else ret {| base_accessKeyId := a;
                  base_secretAccessKey := s;
                  base_region := region |}
  | _, _ =>
      throw "AWS_ACCESS_KEY_ID and AWS_SECRET_ACCESS_KEY must be set in environment variables"
  end.

Definition assumeRole (e : Env) (roleArn : option string) (externalId : string)
  : Task Credentials :=
  log (CallAssumeRole roleArn externalId) ;;;
  baseCreds <- getBaseCredentials e ;;
  let stsClient := {| sts_accessKeyId := base_accessKeyId baseCreds;
                      sts_secretAccessKey := base_secretAccessKey baseCreds;
                      sts_region := base_region baseCreds |} in
  r <- attempt (
    let command := {| RoleArn := roleArn;
                      RoleSessionName := "s3-helper-" ++ JS.show (now e);
                      ExternalId := externalId;
                      DurationSeconds := 3600 |} in
    match sts_AssumeRole e stsClient command with
    | inl message => throw message
    | inr response =>
        match Credentials_ response with
        | None => throw "Failed to assume role: No credentials returned"
        | Some c =>
            ret {| accessKeyId := AccessKeyId c;
                   secretAccessKey := SecretAccessKey c;
                   sessionToken := SessionToken c;
                   expiration := Some (Expiration c);
                   region := None |}
        end
    end) ;;
  match r with
  | inr credentials => ret credentials
  | inl errorMessage => throw ("Failed to assume role: " ++ errorMessage)
  end.

Definition createS3Client (e : Env) (credentials : Credentials) : S3Client :=
  {| s3_accessKeyId := accessKeyId credentials;
     s3_secretAccessKey := secretAccessKey credentials;
     s3_sessionToken := sessionToken credentials;
     s3_region :=
       match region credentials with
       | Some r => if JS.truthy r then r else JS.or_else (AWS_REGION e) "us-east-1"
       | None => JS.or_else (AWS_REGION e) "us-east-1"
       end |}.

Record BucketView := { bv_name : option string; bv_creationDate : option Z }.

Definition listBuckets (e : Env) (credentials : Credentials)
  : Task (list BucketView) :=
  log (CallListBuckets credentials) ;;;
  let s3Client := createS3Client e credentials in
  match s3_ListBuckets e s3Client with
  | inr response =>
      ret match Buckets response with
          | Some bs =>
              map (fun bucket => {| bv_name := Name bucket;
                                    bv_creationDate := CreationDate bucket |}) bs
          | None => []
          end
  | inl errorMessage => throw ("Failed to list buckets: " ++ errorMessage)
  end.

Record ObjectView := {
  ov_key : option string;
  ov_size : option Z;
  ov_lastModified : option Z;
  ov_etag : option string
}.

Record ObjectListing := {
  objects : list ObjectView;
  isTruncated : bool;
  nextContinuationToken : option string
}.

Definition listObjects (e : Env) (bucket : string) (prefix : option string)
  (maxKeys : option JS.number) (credentials : option Credentials)
  : Task ObjectListing :=
  log (CallListObjects bucket prefix maxKeys credentials) ;;;
  match credentials with
  | None => throw "Credentials are required to list objects"
  | Some credentials =>
      let s3Client := createS3Client e credentials in
      let command := {| in_Bucket := bucket;
                        in_Prefix := prefix;
                        in_MaxKeys := maxKeys |} in
      match s3_ListObjectsV2 e s3Client command with
      | inr response =>
          ret {| objects :=
                   match Contents response with
                   | Some os =>
                       map (fun object => {| ov_key := Key object;
                                             ov_size := Size object;
                                             ov_lastModified := LastModified object;
                                             ov_etag := ETag object |}) os
                   | None => []
                   end;
                 isTruncated :=
                   match IsTruncated response with
                   | Some b => b || false
                   | None => false
                   end;
                 nextContinuationToken := NextContinuationToken response |}
      | inl errorMessage => throw ("Failed to list objects: " ++ errorMessage)
      end
  end.

Definition generatePresignedUploadUrl (e : Env) (bucket key : string)
  (contentType : option string) (credentials : option Credentials)
  (expiresIn : JS.number) : Task string :=
  log (CallPresign bucket key contentType credentials expiresIn) ;;;
  match credentials with
  | None => throw "Credentials are required to generate presigned URL"
  | Some credentials =>
      let s3Client := createS3Client e credentials in
      let putCommand := {| put_Bucket := bucket;
                           put_Key := key;
                           put_ContentType := contentType |} in
      match getSignedUrl e s3Client putCommand expiresIn with
      | inr url => ret url
      | inl errorMessage =>
          throw ("Failed to generate presigned URL: " ++ errorMessage)
      end
  end.

End Aws.

(* ================================================================== *)
(** ** Pieces shared by the routes *)

(** [session?.user?.id] of the server session: the signed-in user's id, if
    there is one. *)
Definition Session := option string.

Definition unauthorized : Response :=
  json (JObj [("error", JStr "Unauthorized")]) 401.

Definition generateExternalId (e : Env) : string := randomBase64url e.

Definition by_id_and_user (i u : string) : Where :=
  {| w_id := Some i; w_userId := Some u; w_roleArn := None |}.

Definition pending_of (u : string) : Where :=
  {| w_id := None; w_userId := Some u; w_roleArn := Some None |}.

Definition by_user_and_role (u r : string) : Where :=
  {| w_id := None; w_userId := Some u; w_roleArn := Some (Some r) |}.

Definition by_user (u : string) : Where :=
  {| w_id := None; w_userId := Some u; w_roleArn := None |}.

Definition pending_data (e : Env) (u : string) : CreateData :=
  {| c_userId := u;
     c_externalId := generateExternalId e;
     c_roleArn := None;
     c_name := "Pending AWS connection" |}.

Definition opt_str (o : option string) : Json :=
  match o with Some s => JStr s | None => JNull end.

(** JSON.stringify of a number: NaN and the infinities become null. *)
Definition json_num (n : JS.number) : Json :=
  match n with
  | S754_nan | S754_infinity _ => JNull
  | S754_zero _ | S754_finite _ _ _ => JNum n
  end.

(** [if (!session?.user?.id)]: an empty id counts as no session. *)
Definition signed_in (session : Session) : option string :=
  match session with
  | Some uid => if JS.truthy uid then Some uid else None
  | None => None
  end.

(** The body of a POST as it arrives: [await request.json()] yields the
    value JSON.parse makes of the text, or rejects with the message of the
    error ([inl]) when the text is not JSON.  In the value an object holds
    each name once, and a number is the double JSON.parse read. *)
Definition Payload : Type := string + Json.

Definition request_json (payload : Payload) : Task Json :=
  match payload with
  | inl message => throw message
  | inr body => ret body
  end.

(** Truthiness of a member of a parsed body; an absent member is
    [undefined]. *)
Definition truthy_json (v : option Json) : bool :=
  match v with
  | None | Some JNull => false
  | Some (JBool b) => b
  | Some (JNum n) => JS.truthy_num n
  | Some (JStr s) => JS.truthy s
  | Some (JDate _) | Some (JArr _) | Some (JObj _) => true
  end.

(** [const { first, ... } = variable]: a TypeError when the value is null.
    Otherwise each name is bound to the member of that name: an object has
    its own members, and a number, a string, a boolean or an array has
    none of the names the handlers ask for. *)
Definition destructure (first variable : string) (v : Json)
  : Task (string -> option Json) :=
  match v with
  | JNull => throw (JS.cannot_destructure first variable)
  | _ => ret (fun k => get k v)
  end.

(** A member used as a string where the declared type says it is one. *)
Definition text (v : option Json) : option string :=
  match v with Some (JStr s) => Some s | _ => None end.

(** The lookup shared by the three S3 routes: the row with the given id
    among the user's rows, or else the user's most recent row. *)
Definition fetchConnection (uid : string) (connectionId : option string)
  : Task (option AwsConnection) :=
  match connectionId with
  | Some cid =>
      if JS.truthy cid
      then findFirst (by_id_and_user cid uid) Unordered
      else findFirst (by_user uid) CreatedAtDesc
  | None => findFirst (by_user uid) CreatedAtDesc
  end.

Definition not_found : Response :=
  json (JObj [("error",
               JStr "No AWS connection found. Please configure a connection first.")])
       404.

Definition not_verified : Response :=
  json (JObj [("error",
               JStr "AWS connection is not verified yet. Please paste a Role ARN and click Verify & Connect.")])
       409.

(* ================================================================== *)
(** ** GET /api/aws/bootstrap *)

Module Bootstrap.

Definition GET (e : Env) (session : Session) : World -> Response * World :=
  route "Failed to bootstrap AWS connection" (
    match signed_in session with
    | None => ret unauthorized
    | Some uid =>
        found <- findFirst (pending_of uid) CreatedAtDesc ;;
        connection <- match found with
                      | Some c => ret c
                      | None => create e (pending_data e uid)
                      end ;;
        ret (json (JObj [("success", JBool true);
                         ("connectionId", JStr (id connection));
                         ("externalId", JStr (externalId connection))]) 200)
    end).

(** *** The handler, await by await

    The handler awaits the lookup and then, when that has been answered,
    the creation. *)

Definition lookup (uid : string) : Task (option AwsConnection) :=
  findFirst (pending_of uid) CreatedAtDesc.

Definition finish (e : Env) (uid : string) (found : option AwsConnection)
  : Task Response :=
  connection <- match found with
                | Some c => ret c
                | None => create e (pending_data e uid)
                end ;;
  ret (json (JObj [("success", JBool true);
                   ("connectionId", JStr (id connection));
                   ("externalId", JStr (externalId connection))]) 200).

(** Two requests of the signed-in user [uid] that overlap: the lookup of
    each is answered before either goes on.  The two answers and the world
    they leave. *)
Definition overlapped (e1 e2 : Env) (uid : string) (w : World)
  : Response * Response * World :=
  let (found1, w1) := lookup uid w in
  let (found2, w2) := lookup uid w1 in
  let (r1, w3) := route "Failed to bootstrap AWS connection"
                    (resume found1 (finish e1 uid)) w2 in
  let (r2, w4) := route "Failed to bootstrap AWS connection"
                    (resume found2 (finish e2 uid)) w3 in
  (r1, r2, w4).

End Bootstrap.

(* ================================================================== *)
(** ** POST /api/aws/verify *)

Module Verify.

(** The parsed request body.  Only [roleArn], [name] and [connectionId] are
    read; [others] holds every other member the client sent. *)
Record Body := {
  roleArn : option string;
  name : option string;
  connectionId : option string;
  others : list (string * Json)
}.

Definition roleArn_required : Response :=
  json (JObj [("error", JStr "roleArn is required")]) 400.

Definition roleArn_invalid : Response :=
  json (JObj [("error",
               JStr "Invalid roleArn format. Expected: arn:aws:iam::ACCOUNT_ID:role/ROLE_NAME")])
       400.

(** The format test of the handler, as written. *)
Definition malformed (roleArn : string) : bool :=
  negb (JS.startsWith roleArn "arn:aws:iam::")
  || negb (JS.includes roleArn ":role/").

(** "Fetch the stored External ID": the row named by [connectionId] among
    the user's rows, else the user's latest pending row, else a new pending
    row. *)
Definition resolveConnection (e : Env) (uid : string)
  (connectionId : option string) : Task AwsConnection :=
  byId <- match connectionId with
          | Some cid =>
              if JS.truthy cid
              then findFirst (by_id_and_user cid uid) Unordered
              else ret None
          | None => ret None
          end ;;
  found <- match byId with
           | Some c => ret (Some c)
           | None => findFirst (pending_of uid) CreatedAtDesc
           end ;;
  match found with
  | Some c => ret c
  | None => create e (pending_data e uid)
  end.

Definition assume_failed (errorMessage : string) : Response :=
  json (JObj [("error", JStr "Failed to assume role");
              ("details", JStr errorMessage)]) 403.

Definition access_denied (errorMessage : string) : Response :=
  json (JObj [("error", JStr "Role assumed successfully but S3 access denied");
              ("details", JStr errorMessage)]) 403.

(** Steps 1 and 2: assume the role with the row's External ID, then list
    the buckets with the credentials obtained.  [inl] is the early return. *)
Definition probe (e : Env) (roleArn : string) (connection : AwsConnection)
  : Task (Response + Credentials) :=
  r <- attempt (Aws.assumeRole e (Some roleArn) (externalId connection)) ;;
  match r with
  | inl errorMessage => ret (inl (assume_failed errorMessage))
  | inr credentials =>
      r' <- attempt (Aws.listBuckets e credentials) ;;
      match r' with
      | inl errorMessage => ret (inl (access_denied errorMessage))
      | inr _ => ret (inr credentials)
      end
  end.

Definition promote (e : Env) (roleArn : string) (name : option string)
  (connection : AwsConnection) : Task AwsConnection :=
  update e (id connection)
    {| u_roleArn := Some (Some roleArn);
       u_name := Some (JS.or_else name (Prisma.name connection)) |}.

(** Step 3: persist. *)
Definition reconcile (e : Env) (uid roleArn : string) (name : option string)
  (connection : AwsConnection) : Task AwsConnection :=
  existingByRole <- findFirst (by_user_and_role uid roleArn) Unordered ;;
  match existingByRole with
  | Some existing =>
      if negb (String.eqb (id existing) (id connection))
      then
        match Prisma.roleArn connection with
        | None => delete (id connection) ;;; ret existing
        | Some _ => ret existing
        end
      else promote e roleArn name connection
  | None => promote e roleArn name connection
  end.

Definition verified (connection : AwsConnection) : Response :=
  json (JObj [("success", JBool true);
              ("connection",
               JObj [("id", JStr (id connection));
                     ("roleArn",
                      JStr match Prisma.roleArn connection with
                           | Some r => r
                           | None => ""
                           end);
                     ("name", JStr (Prisma.name connection));
                     ("createdAt", JDate (createdAt connection))]);
              ("message", JStr "AWS connection verified and saved successfully")])
       200.

Definition POST (e : Env) (session : Session) (body : Body)
  : World -> Response * World :=
  route "Internal server error" (
    match signed_in session with
    | None => ret unauthorized
    | Some uid =>
        match roleArn body with
        | None => ret roleArn_required
        | Some roleArn =>
            if negb (JS.truthy roleArn) then ret roleArn_required
            else if malformed roleArn then ret roleArn_invalid
            else
              connection <- resolveConnection e uid (connectionId body) ;;
              p <- probe e roleArn connection ;;
              match p with
              | inl response => ret response
              | inr _ =>
                  connection <- reconcile e uid roleArn (name body) connection ;;
                  ret (verified connection)
              end
        end
    end).

(** *** The body as it arrives

    The handler casts whatever [request.json()] yields to the declared
    type, so the members may be of any JSON type.  What follows is the
    handler up to the end of its validation on such a body. *)

(** What validation hands on: the role ARN, by then known to be a string,
    and the other two members as they came. *)
Record Accepted := {
  a_roleArn : string;
  a_name : option Json;
  a_connectionId : option Json
}.

(** The body is parsed, destructured and validated; [inl] is an early
    return.  [roleArn.startsWith] is a function on strings only. *)
Definition intake (payload : Payload) : Task (Response + Accepted) :=
  body <- request_json payload ;;
  parsed <- destructure "roleArn" "parsed" body ;;
  let roleArn := parsed "roleArn" in
  let name := parsed "name" in
  let connectionId := parsed "connectionId" in
  if negb (truthy_json roleArn) then ret (inl roleArn_required)
  else
    match roleArn with
    | Some (JStr r) =>
        if malformed r then ret (inl roleArn_invalid)
        else ret (inr {| a_roleArn := r;
                         a_name := name;
                         a_connectionId := connectionId |})
    | _ => throw (JS.not_a_function "roleArn.startsWith")
    end.

(** The handler on a body as it arrives, with the part that follows
    validation as [rest]. *)
Definition handle (rest : string -> Accepted -> Task Response)
  (session : Session) (payload : Payload) : World -> Response * World :=
  route "Internal server error" (
    match signed_in session with
    | None => ret unauthorized
    | Some uid =>
        x <- intake payload ;;
        match x with
        | inl response => ret response
        | inr accepted => rest uid accepted
        end
    end).

(** The part of the handler that follows validation, for a name and a
    connectionId of the declared type. *)
Definition proceed (e : Env) (uid : string) (accepted : Accepted)
  : Task Response :=
  let roleArn := a_roleArn accepted in
  connection <- resolveConnection e uid (text (a_connectionId accepted)) ;;
  p <- probe e roleArn connection ;;
  match p with
  | inl response => ret response
  | inr _ =>
      connection <- reconcile e uid roleArn (text (a_name accepted))
                      connection ;;
      ret (verified connection)
  end.

(** The members the handler reads. *)
Definition read_by_handler (k : string) : bool :=
  String.eqb k "roleArn" || String.eqb k "name" || String.eqb k "connectionId".

(** The cast to the declared type. *)
Definition cast (body : Json) : Body :=
  {| roleArn := text (get "roleArn" body);
     name := text (get "name" body);
     connectionId := text (get "connectionId" body);
     others := match body with
               | JObj fs =>
                   List.filter (fun kv => negb (read_by_handler (fst kv))) fs
               | _ => []
               end |}.

(** A member is as declared when it is absent or a string; null does as
    absent in every use the handler makes of the three members. *)
Definition as_declared (v : option Json) : Prop :=
  match v with
  | None | Some JNull | Some (JStr _) => True
  | _ => False
  end.

End Verify.

(* ================================================================== *)
(** ** GET /api/s3/buckets *)

Module Buckets.

Definition bucket_json (b : Aws.BucketView) : Json :=
  JObj (field_opt "name" (option_map JStr (Aws.bv_name b)) ++
        field_opt "creationDate" (option_map JDate (Aws.bv_creationDate b))).

Definition GET (e : Env) (session : Session) (connectionId : option string)
  : World -> Response * World :=
  route "Failed to list buckets" (
    match signed_in session with
    | None => ret unauthorized
    | Some uid =>
        connection <- fetchConnection uid connectionId ;;
        match connection with
        | None => ret not_found
        | Some connection =>
            match roleArn connection with
            | None => ret not_verified
            | Some r =>
                if negb (JS.truthy r) then ret not_verified
                else
                  credentials <- Aws.assumeRole e (Some r) (externalId connection) ;;
                  buckets <- Aws.listBuckets e credentials ;;
                  ret (json (JObj [("success", JBool true);
                                   ("buckets", JArr (map bucket_json buckets));
                                   ("connection",
                                    JObj [("id", JStr (id connection));
                                          ("name", JStr (name connection));
                                          ("roleArn", JStr r)])]) 200)
            end
        end
    end).

End Buckets.

(* ================================================================== *)
(** ** POST /api/s3/presigned-url *)

Module PresignedUrl.

Record Body := {
  bucket : option string;
  key : option string;
  contentType : option string;
  connectionId : option string;
  expiresIn : option JS.number
}.

Definition missing_parameters : Response :=
  json (JObj [("error", JStr "bucket and key are required")]) 400.

(** [expiresIn || 3600] *)
Definition lifetime (expiresIn : option JS.number) : JS.number :=
  match expiresIn with
  | Some n => if JS.truthy_num n then n else JS.of_Z 3600
  | None => JS.of_Z 3600
  end.

Definition POST (e : Env) (session : Session) (body : Body)
  : World -> Response * World :=
  route "Failed to generate presigned URL" (
    match signed_in session with
    | None => ret unauthorized
    | Some uid =>
        if negb (JS.truthy_opt (bucket body)) || negb (JS.truthy_opt (key body))
        then ret missing_parameters
        else
          let bucket := JS.or_else (bucket body) "" in
          let key := JS.or_else (key body) "" in
          connection <- fetchConnection uid (connectionId body) ;;
          match connection with
          | None => ret not_found
          | Some connection =>
              match roleArn connection with
              | None => ret not_verified
              | Some r =>
                  if negb (JS.truthy r) then ret not_verified
                  else
                    credentials <- Aws.assumeRole e (Some r) (externalId connection) ;;
                    url <- Aws.generatePresignedUploadUrl e bucket key
                             (contentType body) (Some credentials)
                             (lifetime (expiresIn body)) ;;
                    ret (json (JObj [("success", JBool true);
                                     ("url", JStr url);
                                     ("bucket", JStr bucket);
                                     ("key", JStr key);
                                     ("expiresIn",
                                      json_num (lifetime (expiresIn body)))]) 200)
              end
          end
    end).

(** *** The body as it arrives *)

(** The body is parsed and destructured and the two required members are
    tested; [inl] is the early return, [inr] the members. *)
Definition intake (payload : Payload)
  : Task (Response + (string -> option Json)) :=
  body <- request_json payload ;;
  members <- destructure "bucket" "body" body ;;
  if negb (truthy_json (members "bucket")) || negb (truthy_json (members "key"))
  then ret (inl missing_parameters)
  else ret (inr members).

(** The handler on a body as it arrives, with the part that follows the
    test of the required members as [rest]. *)
Definition handle (rest : string -> (string -> option Json) -> Task Response)
  (session : Session) (payload : Payload) : World -> Response * World :=
  route "Failed to generate presigned URL" (
    match signed_in session with
    | None => ret unauthorized
    | Some uid =>
        x <- intake payload ;;
        match x with
        | inl response => ret response
        | inr members => rest uid members
        end
    end).

(** A member used as a number where the helper's signature says it is
    one. *)
Definition number_of (v : option Json) : option JS.number :=
  match v with Some (JNum n) => Some n | _ => None end.

(** The cast to the types of the helper's parameters. *)
Definition cast (members : string -> option Json) : Body :=
  {| bucket := text (members "bucket");
     key := text (members "key");
     contentType := text (members "contentType");
     connectionId := text (members "connectionId");
     expiresIn := number_of (members "expiresIn") |}.

(** The part of the handler that follows the test of the required members,
    for members of those types. *)
Definition proceed (e : Env) (uid : string) (members : string -> option Json)
  : Task Response :=
  let body := cast members in
  let bucket := JS.or_else (bucket body) "" in
  let key := JS.or_else (key body) "" in
  connection <- fetchConnection uid (connectionId body) ;;
  match connection with
  | None => ret not_found
  | Some connection =>
      match roleArn connection with
      | None => ret not_verified
      | Some r =>
          if negb (JS.truthy r) then ret not_verified
          else
            credentials <- Aws.assumeRole e (Some r) (externalId connection) ;;
            url <- Aws.generatePresignedUploadUrl e bucket key
                     (contentType body) (Some credentials)
                     (lifetime (expiresIn body)) ;;
            ret (json (JObj [("success", JBool true);
                             ("url", JStr url);
                             ("bucket", JStr bucket);
                             ("key", JStr key);
                             ("expiresIn",
                              json_num (lifetime (expiresIn body)))]) 200)
      end
  end.

(** The members are of those types: strings, and a number for expiresIn,
    when present.  Null does as absent wherever the handler only tests
    the member or applies [||] to it. *)
Definition as_declared (members : string -> option Json) : Prop :=
  match members "bucket" with
  | None | Some JNull | Some (JStr _) => True | _ => False
  end /\
  match members "key" with
  | None | Some JNull | Some (JStr _) => True | _ => False
  end /\
  match members "contentType" with
  | None | Some (JStr _) => True | _ => False
  end /\
  match members "connectionId" with
  | None | Some JNull | Some (JStr _) => True | _ => False
  end /\
  match members "expiresIn" with
  | None | Some JNull | Some (JNum _) => True | _ => False
  end.

End PresignedUrl.

(* ================================================================== *)
(** ** GET /api/s3/objects *)

Module Objects.

(** The query string: [searchParams.get] of each parameter. *)
Record Query := {
  bucket : option string;
  prefix : option string;
  maxKeys : option string;
  connectionId : option string
}.

Definition bucket_required : Response :=
  json (JObj [("error", JStr "bucket parameter is required")]) 400.

Definition object_json (o : Aws.ObjectView) : Json :=
  JObj (field_opt "key" (option_map JStr (Aws.ov_key o)) ++
        field_opt "size"
          (option_map (fun z => JNum (JS.of_Z z)) (Aws.ov_size o)) ++
        field_opt "lastModified" (option_map JDate (Aws.ov_lastModified o)) ++
        field_opt "etag" (option_map JStr (Aws.ov_etag o))).

Definition GET (e : Env) (session : Session) (query : Query)
  : World -> Response * World :=
  route "Failed to list objects" (
    match signed_in session with
    | None => ret unauthorized
    | Some uid =>
        let prefix := match prefix query with
                      | Some p => if JS.truthy p then Some p else None
                      | None => None
                      end in
        let maxKeys := match maxKeys query with
                       | Some m => if JS.truthy m then Some (JS.parseInt10 m) else None
                       | None => None
                       end in
        match bucket query with
        | None => ret bucket_required
        | Some bucket =>
            if negb (JS.truthy bucket) then ret bucket_required
            else
              connection <- fetchConnection uid (connectionId query) ;;
              match connection with
              | None => ret not_found
              | Some connection =>
                  credentials <- Aws.assumeRole e (roleArn connection)
                                   (externalId connection) ;;
                  result <- Aws.listObjects e bucket prefix maxKeys
                              (Some credentials) ;;
                  ret (json (JObj ([("success", JBool true);
                                    ("bucket", JStr bucket);
                                    ("prefix", JStr (JS.or_else prefix ""));
                                    ("objects",
                                     JArr (map object_json (Aws.objects result)));
                                    ("isTruncated", JBool (Aws.isTruncated result))]
                                   ++ field_opt "nextContinuationToken"
                                        (option_map JStr
                                           (Aws.nextContinuationToken result))
                                   ++ [("connection",
                                        JObj [("id", JStr (id connection));
                                              ("name", JStr (name connection))])]))
                             200)
              end
        end
    end).

End Objects.

(* ================================================================== *)
(** ** Sequences of requests *)

Inductive Request :=
| Bootstrap_GET (e : Env) (session : Session)
| Verify_POST (e : Env) (session : Session) (body : Verify.Body)
| Buckets_GET (e : Env) (session : Session) (connectionId : option string)
| Objects_GET (e : Env) (session : Session) (query : Objects.Query)
| PresignedUrl_POST (e : Env) (session : Session) (body : PresignedUrl.Body).

Definition serve (r : Request) : World -> Response * World :=
  match r with
  | Bootstrap_GET e s => Bootstrap.GET e s
  | Verify_POST e s b => Verify.POST e s b
  | Buckets_GET e s c => Buckets.GET e s c
  | Objects_GET e s q => Objects.GET e s q
  | PresignedUrl_POST e s b => PresignedUrl.POST e s b
  end.

(** Requests are served one after the other, each to completion. *)
Fixpoint run (rs : list Request) (w : World) : World :=
  match rs with
  | [] => w
  | r :: rs' => run rs' (snd (serve r w))
  end.

(* ================================================================== *)
(** ** What the database and the id generator guarantee *)

Record store_ok (w : World) : Prop := {
  (** the generator never hands out the same id twice *)
  ok_cuid : forall m n, cuid w m = cuid w n -> m = n;
  (** every row carries an id that has been handed out *)
  ok_issued : forall c, In c (table w) ->
                exists n, (n < issued w)%nat /\ id c = cuid w n;
  (** primary key *)
  ok_pk : NoDup (map id (table w));
  (** unique index on (userId, externalId) *)
  ok_externalId : forall c d, In c (table w) -> In d (table w) ->
                    userId c = userId d -> externalId c = externalId d ->
                    id c = id d;
  (** unique index on (userId, roleArn); nulls are distinct *)
  ok_roleArn : forall c d r, In c (table w) -> In d (table w) ->
                 userId c = userId d -> roleArn c = Some r -> roleArn d = Some r ->
                 id c = id d
}.

(** [c'] is a later state of the row [c]. *)
Definition descends (c c' : AwsConnection) : Prop :=
  id c' = id c /\ userId c' = userId c /\ externalId c' = externalId c /\
  (roleArn c <> None -> roleArn c' <> None).

(** [w'] is reachable from [w]: rows are later states of old rows or carry
    ids handed out in between. *)
Record evolves (w w' : World) : Prop := {
  ev_cuid : cuid w' = cuid w;
  ev_issued : (issued w <= issued w')%nat;
  ev_rows : forall c', In c' (table w') ->
              (exists c, In c (table w) /\ descends c c') \/
              (exists n, (issued w <= n < issued w')%nat /\ id c' = cuid w n);
  ev_ok : store_ok w -> store_ok w'
}.

(** A task every run of which, started on a sound store, leaves the world
    in a state reachable from the one it started in. *)
Definition steady {A} (m : Task A) : Prop :=
  forall w out w', store_ok w -> m w = (out, w') -> evolves w w'.

(** A task that calls none of the AWS helpers. *)
Definition quiet {A} (m : Task A) : Prop :=
  forall w out w', m w = (out, w') -> calls w' = calls w.

(** A task that neither reads nor writes the log of calls: it does to a
    world with another log what it does to this one. *)
Definition offline {A} (m : Task A) : Prop :=
  forall l w, m (with_calls l w) = (fst (m w), with_calls l (snd (m w))).

(** Pending or verified: the two states of a connection. *)
Inductive Phase := Pending | Verified.

Definition phase (c : AwsConnection) : Phase :=
  match roleArn c with None => Pending | Some _ => Verified end.

(** The row that verify works on when it does not have to create one,
    read off the table. *)
Definition stored (uid : string) (connectionId : option string)
  (tbl : list AwsConnection) : option AwsConnection :=
  match match connectionId with
        | Some cid =>
            if JS.truthy cid
            then select (by_id_and_user cid uid) Unordered tbl
            else None
        | None => None
        end with
  | Some c => Some c
  | None => select (pending_of uid) CreatedAtDesc tbl
  end.

(** Role assumption, or the bucket listing that follows it, is rejected. *)
Definition probe_fails (e : Env) (r : string) (c : AwsConnection) (w : World)
  : Prop :=
  match Aws.assumeRole e (Some r) (externalId c) w with
  | (Threw _, _) => True
  | (Returned credentials, w') =>
      match Aws.listBuckets e credentials w' with
      | (Threw _, _) => True
      | (Returned _, _) => False
      end
  end.

(** The row the S3 routes work on, read off the table. *)
Definition fetched (uid : string) (connectionId : option string)
  (tbl : list AwsConnection) : option AwsConnection :=
  match connectionId with
  | Some cid =>
      if JS.truthy cid
      then select (by_id_and_user cid uid) Unordered tbl
      else select (by_user uid) CreatedAtDesc tbl
  | None => select (by_user uid) CreatedAtDesc tbl
  end.

(** The row [c] once verify has promoted it to the role [r]. *)
Definition promoted (e : Env) (r : string) (name : option string)
  (c : AwsConnection) : AwsConnection :=
  {| id := id c;
     userId := userId c;
     externalId := externalId c;
     roleArn := Some r;
     name := JS.or_else name (Prisma.name c);
     createdAt := createdAt c;
     updatedAt := now e |}.

(** The same verify request without its connectionId. *)
Definition without_connectionId (b : Verify.Body) : Verify.Body :=
  {| Verify.roleArn := Verify.roleArn b;
     Verify.name := Verify.name b;
     Verify.connectionId := None;
     Verify.others := Verify.others b |}.

(** The role-ARN shape in the words of the specification:
    arn:aws:iam::<account>:role/<name>. *)
Definition role_arn_shape (s : string) : Prop :=
  exists account name, s = "arn:aws:iam::" ++ account ++ ":role/" ++ name.

(* ================================================================== *)
(** ** POST /api/aws/verify, earlier revision

    The handler as it was before the External ID became service-generated:
    the client submits the External ID together with the role ARN, and a
    connection is stored only once the probe has passed. *)

Module VerifyLegacy.

Record Body := {
  roleArn : option string;
  externalId : option string;
  name : option string
}.

Definition fields_required : Response :=
  json (JObj [("error", JStr "roleArn and externalId are required")]) 400.

(** [where: { userId, roleArn, externalId }] *)
Definition same_binding (uid r x : string) (c : AwsConnection) : bool :=
  String.eqb (userId c) uid &&
  opt_eqb (Prisma.roleArn c) (Some r) &&
  String.eqb (Prisma.externalId c) x.

Definition findBinding (uid r x : string) : Task (option AwsConnection) :=
  fun w => (Returned (List.find (same_binding uid r x) (table w)), w).

Definition saved (connection : AwsConnection) : Response :=
  json (JObj [("success", JBool true);
              ("connection",
               JObj [("id", JStr (id connection));
                     ("roleArn", opt_str (Prisma.roleArn connection));
                     ("name", JStr (Prisma.name connection));
                     ("createdAt", JDate (createdAt connection))]);
              ("message", JStr "AWS connection verified and saved successfully")])
       200.

(** [today] is [new Date().toLocaleDateString()], which depends on the
    server's locale. *)
Definition POST (e : Env) (today : string) (session : Session) (body : Body)
  : World -> Response * World :=
  route "Internal server error" (
    match signed_in session with
    | None => ret unauthorized
    | Some uid =>
        if negb (JS.truthy_opt (roleArn body))
           || negb (JS.truthy_opt (externalId body))
        then ret fields_required
        else
          let roleArn := JS.or_else (roleArn body) "" in
          let externalId := JS.or_else (externalId body) "" in
          if Verify.malformed roleArn then ret Verify.roleArn_invalid
          else
            r <- attempt (Aws.assumeRole e (Some roleArn) externalId) ;;
            match r with
            | inl errorMessage => ret (Verify.assume_failed errorMessage)
            | inr credentials =>
                r' <- attempt (Aws.listBuckets e credentials) ;;
                match r' with
                | inl errorMessage => ret (Verify.access_denied errorMessage)
                | inr _ =>
                    existingConnection <- findBinding uid roleArn externalId ;;
                    connection <-
                      match existingConnection with
                      | Some existing =>
                          update e (id existing)
                            {| u_roleArn := None;
                               u_name := Some (JS.or_else (name body)
                                                 (Prisma.name existing)) |}
                      | None =>
                          create e
                            {| c_userId := uid;
                               c_externalId := externalId;
                               c_roleArn := Some roleArn;
                               c_name := JS.or_else (name body)
                                           ("AWS Connection " ++ today) |}
                      end ;;
                    ret (saved connection)
                end
            end
    end).

End VerifyLegacy.

(* ================================================================== *)
(** ** Notions for the properties of the routes *)

(** The answer of a route's outermost [catch]. *)
Definition failed (failure message : string) : Response :=
  json (JObj [("error", JStr failure); ("details", JStr message)]) 500.

(** [searchParams.get("prefix") || undefined] *)
Definition prefix_given (q : Objects.Query) : option string :=
  match Objects.prefix q with
  | Some p => if JS.truthy p then Some p else None
  | None => None
  end.

(** [maxKeysParam ? parseInt(maxKeysParam, 10) : undefined] *)
Definition maxKeys_given (q : Objects.Query) : option JS.number :=
  match Objects.maxKeys q with
  | Some m => if JS.truthy m then Some (JS.parseInt10 m) else None
  | None => None
  end.

(** The 200 of the object route. *)
Definition objects_listed (bucket : string) (prefix : option string)
  (result : Aws.ObjectListing) (c : AwsConnection) : Response :=
  json (JObj ([("success", JBool true);
               ("bucket", JStr bucket);
               ("prefix", JStr (JS.or_else prefix ""));
               ("objects", JArr (map Objects.object_json (Aws.objects result)));
               ("isTruncated", JBool (Aws.isTruncated result))]
              ++ field_opt "nextContinuationToken"
                   (option_map JStr (Aws.nextContinuationToken result))
              ++ [("connection",
                   JObj [("id", JStr (id c)); ("name", JStr (name c))])]))
       200.

(** The 200 of the presigned-URL route. *)
Definition presigned (url bucket key : string) (expiresIn : JS.number)
  : Response :=
  json (JObj [("success", JBool true);
              ("url", JStr url);
              ("bucket", JStr bucket);
              ("key", JStr key);
              ("expiresIn", json_num expiresIn)]) 200.

(** The credentials object [assumeRole] makes of what STS issued. *)
Definition issued_by (c : StsCredentials) : Credentials :=
  {| accessKeyId := AccessKeyId c;
     secretAccessKey := SecretAccessKey c;
     sessionToken := SessionToken c;
     expiration := Some (Expiration c);
     region := None |}.

(** The message of [getBaseCredentials] when a base credential is missing. *)
Definition credentials_missing : string :=
  "AWS_ACCESS_KEY_ID and AWS_SECRET_ACCESS_KEY must be set in environment variables".

(** The session a request comes with. *)
Definition session_of (r : Request) : Session :=
  match r with
  | Bootstrap_GET _ s => s
  | Verify_POST _ s _ => s
  | Buckets_GET _ s _ => s
  | Objects_GET _ s _ => s
  | PresignedUrl_POST _ s _ => s
  end.

(** The status codes a route has a [return] for. *)
Definition statuses (r : Request) : list Z :=
  match r with
  | Bootstrap_GET _ _ => [200; 401; 500]
  | Verify_POST _ _ _ => [200; 400; 401; 403; 500]
  | Buckets_GET _ _ _ => [200; 401; 404; 409; 500]
  | Objects_GET _ _ _ => [200; 400; 401; 404; 500]
  | PresignedUrl_POST _ _ _ => [200; 400; 401; 404; 409; 500]
  end.

(** The pending rows of a user. *)
Definition pending_rows (uid : string) (tbl : list AwsConnection)
  : list AwsConnection :=
  List.filter (matches (pending_of uid)) tbl.

(** No user has more than one pending row. *)
Definition one_pending (w : World) : Prop :=
  forall uid, (List.length (pending_rows uid (table w)) <= 1)%nat.

(** The rows of a user, in table order. *)
Definition rows_of (uid : string) (tbl : list AwsConnection)
  : list AwsConnection :=
  List.filter (fun c => String.eqb (userId c) uid) tbl.

(** The generated External ID is not yet among the user's. *)
Definition externalId_fresh (e : Env) (uid : string) (w : World) : Prop :=
  forall d, In d (table w) -> userId d = uid ->
            externalId d <> generateExternalId e.

(** The 200 of bootstrap. *)
Definition handed_out (c : AwsConnection) : Response :=
  json (JObj [("success", JBool true);
              ("connectionId", JStr (id c));
              ("externalId", JStr (externalId c))]) 200.

(** The generated External ID is already that of one of the user's rows. *)
Definition externalId_taken (e : Env) (uid : string) (w : World) : Prop :=
  exists d, In d (table w) /\ userId d = uid /\
            externalId d = generateExternalId e.

(** A body verify cannot use: the text is not JSON, the value is null, or
    roleArn is truthy without being a string. *)
Definition unusable (payload : Payload) : Prop :=
  match payload with
  | inl _ => True
  | inr JNull => True
  | inr body =>
      truthy_json (get "roleArn" body) = true /\
      text (get "roleArn" body) = None
  end.

(** The base credentials are configured. *)
Definition configured (e : Env) : Prop :=
  JS.truthy_opt (AWS_ACCESS_KEY_ID e) = true /\
  JS.truthy_opt (AWS_SECRET_ACCESS_KEY e) = true.

(** The client and command with which [assumeRole] goes to STS. *)
Definition stsClientOf (e : Env) : StsClientConfig :=
  {| sts_accessKeyId := JS.or_else (AWS_ACCESS_KEY_ID e) "";
     sts_secretAccessKey := JS.or_else (AWS_SECRET_ACCESS_KEY e) "";
     sts_region := JS.or_else (AWS_REGION e) "us-east-1" |}.

Definition stsCommandOf (e : Env) (roleArn : option string) (externalId : string)
  : AssumeRoleInput :=
  {| RoleArn := roleArn;
     RoleSessionName := "s3-helper-" ++ JS.show (now e);
     ExternalId := externalId;
     DurationSeconds := 3600 |}.

(* ================================================================== *)
(** ** A concrete scenario *)

Module Demo.

(** An id generator: "c0", "c1", "c2", ... *)
Definition counted (n : nat) : string :=
  "c" ++ NilEmpty.string_of_uint (Nat.to_uint n).

Definition issuedCredentials : StsCredentials :=
  {| AccessKeyId := "ASIAEXAMPLE";
     SecretAccessKey := "secret";
     SessionToken := "token";
     Expiration := 3600000 |}.

(** An STS that trusts the caller for every role below account
    123456789012 when the External ID is "ext-alice", and an S3 account
    with no buckets and no objects. *)
Definition sts (cfg : StsClientConfig) (cmd : AssumeRoleInput)
  : string + AssumeRoleOutput :=
  match RoleArn cmd with
  | Some r =>
      if JS.startsWith r "arn:aws:iam::123456789012:role/"
         && String.eqb (ExternalId cmd) "ext-alice"
      then inr {| Credentials_ := Some issuedCredentials |}
      else inl "AccessDenied"
  | None => inl "ValidationError: RoleArn is required"
  end.

Definition env : Env :=
  {| AWS_ACCESS_KEY_ID := Some "AKIAEXAMPLE";
     AWS_SECRET_ACCESS_KEY := Some "base-secret";
     AWS_REGION := None;
     now := 1000;
     randomBase64url := "ext-alice";
     sts_AssumeRole := sts;
     s3_ListBuckets := fun _ => inr {| Buckets := None |};
     s3_ListObjectsV2 := fun _ _ =>
       inr {| Contents := None; IsTruncated := None;
              NextContinuationToken := None |};
     getSignedUrl := fun _ _ _ => inr "https://example.invalid/signed" |}.

(** The same services seen a little later, with other random bytes. *)
Definition later : Env :=
  {| AWS_ACCESS_KEY_ID := Some "AKIAEXAMPLE";
     AWS_SECRET_ACCESS_KEY := Some "base-secret";
     AWS_REGION := None;
     now := 2000;
     randomBase64url := "ext-other";
     sts_AssumeRole := sts;
     s3_ListBuckets := fun _ => inr {| Buckets := None |};
     s3_ListObjectsV2 := fun _ _ =>
       inr {| Contents := None; IsTruncated := None;
              NextContinuationToken := None |};
     getSignedUrl := fun _ _ _ => inr "https://example.invalid/signed" |}.

Definition empty : World :=
  {| table := []; issued := 0; cuid := counted; calls := [] |}.

Definition alice : Session := Some "alice".
Definition bob : Session := Some "bob".

(** After alice's first visit: one pending row, "c0". *)
Definition bootstrapped : World := snd (Bootstrap.GET env alice empty).

Definition demoRole : string := "arn:aws:iam::123456789012:role/Demo".

Definition verifyBody (r : string) (cid : option string) : Verify.Body :=
  {| Verify.roleArn := Some r;
     Verify.name := None;
     Verify.connectionId := cid;
     Verify.others := [] |}.

(** After alice verified the demo role on "c0". *)
Definition connected : World :=
  snd (Verify.POST env alice (verifyBody demoRole (Some "c0")) bootstrapped).

(** The row "c0" while it is pending. *)
Definition pendingRow : AwsConnection :=
  {| id := "c0";
     userId := "alice";
     externalId := "ext-alice";
     roleArn := None;
     name := "Pending AWS connection";
     createdAt := 1000;
     updatedAt := 1000 |}.

(** A role of an account that does not trust the caller. *)
Definition strangerRole : string := "arn:aws:iam::999999999999:role/Stranger".

(** The same clock and random bytes as [env], but an STS that issues
    other credentials for every role and an S3 account with one bucket. *)
Definition elsewhere : Env :=
  {| AWS_ACCESS_KEY_ID := Some "AKIAOTHER";
     AWS_SECRET_ACCESS_KEY := Some "other-secret";
     AWS_REGION := Some "eu-west-1";
     now := 1000;
     randomBase64url := "ext-alice";
     sts_AssumeRole := fun _ _ =>
       inr {| Credentials_ :=
                Some {| AccessKeyId := "ASIAOTHER";
                        SecretAccessKey := "other";
                        SessionToken := "other-token";
                        Expiration := 7200000 |} |};
     s3_ListBuckets := fun _ =>
       inr {| Buckets := Some [{| Name := Some "photos";
                                  CreationDate := Some 500 |}] |};
     s3_ListObjectsV2 := fun _ _ =>
       inr {| Contents := None; IsTruncated := None;
              NextContinuationToken := None |};
     getSignedUrl := fun _ _ _ => inr "https://example.invalid/signed" |}.

(** Alice, connected, comes back later and is handed a second pending
    row, "c1". *)
Definition revisited : World := snd (Bootstrap.GET later alice connected).

Definition otherRole : string := "arn:aws:iam::123456789012:role/Other".

End Demo.

(* ================================================================== *)
(** ** More of the scenario *)

Module Scenes.

(** The server of [Demo.env] started without its access key. *)
Definition unconfigured : Env :=
  {| AWS_ACCESS_KEY_ID := None;
     AWS_SECRET_ACCESS_KEY := Some "base-secret";
     AWS_REGION := None;
     now := 1000;
     randomBase64url := "ext-alice";
     sts_AssumeRole := Demo.sts;
     s3_ListBuckets := fun _ => inr {| Buckets := None |};
     s3_ListObjectsV2 := fun _ _ =>
       inr {| Contents := None; IsTruncated := None;
              NextContinuationToken := None |};
     getSignedUrl := fun _ _ _ => inr "https://example.invalid/signed" |}.

(** Alice, connected, comes back, verifies another role on her
    connection "c0" and lists her buckets. *)
Definition repointing : list Request :=
  [Bootstrap_GET Demo.later Demo.alice;
   Verify_POST Demo.later Demo.alice
     (Demo.verifyBody Demo.otherRole (Some "c0"));
   Buckets_GET Demo.later Demo.alice (Some "c0")].

(** The misformatted ARN of the specification, as a request body. *)
Definition userArn : Json :=
  JObj [("roleArn", JStr "arn:aws:iam::123456789012:user/Demo");
        ("name", JStr "Demo")].

(** A body whose roleArn is a number. *)
Definition numericArn : Json := JObj [("roleArn", JNum (JS.of_Z 12345))].

(** A verify request for a role that STS refuses, naming a connection
    that does not exist. *)
Definition strangerBody : Json :=
  JObj [("roleArn", JStr Demo.strangerRole);
        ("connectionId", JStr "nonsense");
        ("externalId", JStr "chosen-by-the-client")].

(** An upload request without a key, as a request body. *)
Definition keylessBody : Json :=
  JObj [("bucket", JStr "photos"); ("contentType", JStr "image/png")].

Definition photos : Objects.Query :=
  {| Objects.bucket := Some "photos";
     Objects.prefix := Some "";
     Objects.maxKeys := Some "25";
     Objects.connectionId := Some "c0" |}.

Definition upload : PresignedUrl.Body :=
  {| PresignedUrl.bucket := Some "photos";
     PresignedUrl.key := Some "cat.png";
     PresignedUrl.contentType := Some "image/png";
     PresignedUrl.connectionId := Some "c0";
     PresignedUrl.expiresIn := Some (JS.of_Z 0) |}.

Definition keyless : PresignedUrl.Body :=
  {| PresignedUrl.bucket := Some "photos";
     PresignedUrl.key := Some "";
     PresignedUrl.contentType := None;
     PresignedUrl.connectionId := None;
     PresignedUrl.expiresIn := None |}.

(** A body for the earlier revision of verify. *)
Definition legacyBody : VerifyLegacy.Body :=
  {| VerifyLegacy.roleArn := Some Demo.demoRole;
     VerifyLegacy.externalId := Some "ext-alice";
     VerifyLegacy.name := Some "Demo account" |}.

(** The row "c1" of [Demo.revisited]. *)
Definition secondPending : AwsConnection :=
  {| id := "c1";
     userId := "alice";
     externalId := "ext-other";
     roleArn := None;
     name := "Pending AWS connection";
     createdAt := 2000;
     updatedAt := 2000 |}.

(** A day in the life of the dashboard. *)
Definition day : list Request :=
  [Bootstrap_GET Demo.env Demo.alice;
   Verify_POST Demo.env Demo.alice (Demo.verifyBody Demo.strangerRole None);
   Bootstrap_GET Demo.later Demo.bob;
   Verify_POST Demo.env Demo.alice (Demo.verifyBody Demo.demoRole (Some "c0"));
   Bootstrap_GET Demo.later Demo.alice;
   Buckets_GET Demo.env Demo.alice None].

End Scenes.

(* ================================================================== *)
(** * Properties *)

Unset Implicit Arguments.

(** ** Queries on the table *)

Lemma latest_In (l : list AwsConnection) (c : AwsConnection) :
  latest l = Some c -> In c l.
Proof.
  revert c; induction l as [|a l IH]; simpl; intros c H; [discriminate|].
  destruct (latest l) as [d|].
  - destruct (createdAt a <? createdAt d); inversion H; subst; auto.
  - inversion H; auto.
Qed.

Lemma latest_None (l : list AwsConnection) : latest l = None -> l = [].
Proof.
  destruct l as [|a l]; simpl; [reflexivity|].
  destruct (latest l) as [d|]; [|discriminate].
  destruct (createdAt a <? createdAt d); discriminate.
Qed.

Lemma select_sound q o tbl c :
  select q o tbl = Some c -> In c tbl /\ matches q c = true.
Proof.
  destruct o; simpl; intros H.
  - apply find_some in H; exact H.
  - apply latest_In, filter_In in H; exact H.
Qed.

Lemma select_none q o tbl c :
  select q o tbl = None -> In c tbl -> matches q c = false.
Proof.
  destruct o; simpl; intros H Hin.
  - exact (find_none _ _ H _ Hin).
  - apply latest_None in H.
    destruct (matches q c) eqn:E; [|reflexivity].
    assert (In c (filter (matches q) tbl)) as Hf by (apply filter_In; auto).
    rewrite H in Hf; contradiction.
Qed.

Lemma matches_by_id_and_user i u c :
  matches (by_id_and_user i u) c = true <-> id c = i /\ userId c = u.
Proof.
  unfold matches; simpl. rewrite andb_true_r, andb_true_iff, !String.eqb_eq.
  tauto.
Qed.

Lemma opt_eqb_eq a b : opt_eqb a b = true <-> a = b.
Proof.
  destruct a, b; simpl; try rewrite String.eqb_eq;
    split; intros H; try discriminate; try congruence.
Qed.

Lemma matches_pending_of u c :
  matches (pending_of u) c = true <-> userId c = u /\ roleArn c = None.
Proof.
  unfold matches; simpl. rewrite andb_true_iff, String.eqb_eq, opt_eqb_eq.
  tauto.
Qed.

Lemma matches_by_user_and_role u r c :
  matches (by_user_and_role u r) c = true <-> userId c = u /\ roleArn c = Some r.
Proof.
  unfold matches; simpl. rewrite andb_true_iff, String.eqb_eq, opt_eqb_eq.
  tauto.
Qed.

Lemma matches_by_user u c :
  matches (by_user u) c = true <-> userId c = u.
Proof.
  unfold matches; simpl. rewrite andb_true_r, String.eqb_eq. tauto.
Qed.

Lemma find_by_id_In (i : string) tbl c :
  find (fun c => String.eqb (id c) i) tbl = Some c -> In c tbl /\ id c = i.
Proof.
  intros H; apply find_some in H. rewrite String.eqb_eq in H. exact H.
Qed.

(** With a primary key, looking a row up by its id finds that row. *)
Lemma find_by_id_unique tbl c :
  NoDup (map id tbl) -> In c tbl ->
  find (fun d => String.eqb (id d) (id c)) tbl = Some c.
Proof.
  induction tbl as [|a t IH]; simpl; intros Hnd Hin; [contradiction|].
  inversion Hnd as [|? ? Hnotin Hnd']; subst.
  destruct Hin as [->|Hin].
  - rewrite String.eqb_refl; reflexivity.
  - destruct (String.eqb (id a) (id c)) eqn:E.
    + apply String.eqb_eq in E. exfalso; apply Hnotin. rewrite E.
      apply in_map; exact Hin.
    + apply IH; assumption.
Qed.

Lemma has_id_false i tbl :
  has_id i tbl = false -> forall d, In d tbl -> id d <> i.
Proof.
  unfold has_id; intros H d Hin E.
  assert (existsb (fun d => String.eqb (id d) i) tbl = true) as Ht.
  { apply existsb_exists; exists d; split; [exact Hin|].
    apply String.eqb_eq; exact E. }
  congruence.
Qed.

Lemma clashes_false self c tbl :
  clashes self c tbl = false ->
  forall d, In d tbl -> id d <> self -> userId d = userId c ->
    externalId d <> externalId c /\
    (forall r, roleArn c = Some r -> roleArn d <> Some r).
Proof.
  unfold clashes; intros H d Hin Hid Hu.
  assert (forall x, In x tbl ->
            (negb (String.eqb (id x) self) && String.eqb (userId x) (userId c) &&
             (String.eqb (externalId x) (externalId c) ||
              match roleArn c with
              | Some r => opt_eqb (roleArn x) (Some r)
              | None => false
              end)) = false) as Hall.
  { intros x Hx. destruct (_ && _ && _) eqn:E; [|reflexivity].
    assert (existsb (fun d =>
              negb (String.eqb (id d) self) && String.eqb (userId d) (userId c) &&
              (String.eqb (externalId d) (externalId c) ||
               match roleArn c with
               | Some r => opt_eqb (roleArn d) (Some r)
               | None => false
               end)) tbl = true) as Ht
      by (apply existsb_exists; exists x; auto).
    congruence. }
  specialize (Hall d Hin).
  apply String.eqb_neq in Hid. rewrite Hid in Hall; simpl in Hall.
  apply String.eqb_eq in Hu. rewrite Hu in Hall; simpl in Hall.
  apply orb_false_iff in Hall. destruct Hall as [He Hr].
  split.
  - apply String.eqb_neq; exact He.
  - intros r Hc Hd. rewrite Hc in Hr.
    assert (opt_eqb (roleArn d) (Some r) = true) by (apply opt_eqb_eq; exact Hd).
    congruence.
Qed.

Lemma replace_map_id i c' tbl :
  id c' = i -> map id (replace i c' tbl) = map id tbl.
Proof.
  intros Hi; induction tbl as [|a t IH]; simpl; [reflexivity|].
  destruct (String.eqb (id a) i) eqn:E; simpl.
  - apply String.eqb_eq in E. congruence.
  - rewrite IH; reflexivity.
Qed.

Lemma replace_In i c' tbl x :
  NoDup (map id tbl) ->
  In x (replace i c' tbl) -> x = c' \/ (In x tbl /\ id x <> i).
Proof.
  induction tbl as [|a t IH]; simpl; [tauto|].
  intros Hnd; inversion Hnd as [|? ? Hnotin Hnd']; subst.
  destruct (String.eqb (id a) i) eqn:E; simpl.
  - apply String.eqb_eq in E.
    intros [<-|Hin]; [left; reflexivity|].
    right; split; [right; exact Hin|].
    intros Ex. apply Hnotin. rewrite E, <- Ex. apply in_map; exact Hin.
  - intros [<-|Hin].
    + right; split; [left; reflexivity| apply String.eqb_neq; exact E].
    + destruct (IH Hnd' Hin) as [->|[H1 H2]]; [left; reflexivity|right; auto].
Qed.

Lemma In_replace i c' tbl x :
  In x tbl -> id x <> i -> In x (replace i c' tbl).
Proof.
  induction tbl as [|a t IH]; simpl; [tauto|].
  intros [<-|Hin] Hx.
  - apply String.eqb_neq in Hx. rewrite Hx. left; reflexivity.
  - destruct (String.eqb (id a) i); right; auto.
Qed.

Lemma In_replace_new i c' tbl :
  (exists c, In c tbl /\ id c = i) -> In c' (replace i c' tbl).
Proof.
  induction tbl as [|a t IH]; simpl; intros [c [Hin Hc]]; [contradiction|].
  destruct (String.eqb (id a) i) eqn:E; [left; reflexivity|].
  right. apply IH. destruct Hin as [<-|Hin].
  - apply String.eqb_neq in E; contradiction.
  - exists c; auto.
Qed.

Lemma remove_In i tbl x :
  In x (remove i tbl) <-> In x tbl /\ id x <> i.
Proof.
  unfold remove. rewrite filter_In, negb_true_iff, String.eqb_neq. tauto.
Qed.

(** ** Reachable worlds *)

Lemma descends_refl c : descends c c.
Proof. unfold descends; tauto. Qed.

Lemma descends_trans a b c : descends a b -> descends b c -> descends a c.
Proof.
  unfold descends; intros (H1 & H2 & H3 & H4) (K1 & K2 & K3 & K4).
  repeat split; try congruence. auto.
Qed.

Lemma store_ok_with_calls l w : store_ok w -> store_ok (with_calls l w).
Proof. intros [H1 H2 H3 H4 H5]; constructor; simpl; assumption. Qed.

Lemma evolves_refl w : evolves w w.
Proof.
  constructor; auto.
  intros c' Hin; left; exists c'; split; [exact Hin|apply descends_refl].
Qed.

Lemma evolves_trans w1 w2 w3 : evolves w1 w2 -> evolves w2 w3 -> evolves w1 w3.
Proof.
  intros [Hc1 Hi1 Hr1 Ho1] [Hc2 Hi2 Hr2 Ho2]; constructor.
  - congruence.
  - lia.
  - intros c3 Hin. destruct (Hr2 c3 Hin) as [(c2 & Hin2 & Hd2)|(n & Hn & Hid)].
    + destruct (Hr1 c2 Hin2) as [(c1 & Hin1 & Hd1)|(n & Hn & Hid)].
      * left; exists c1; split; [exact Hin1|].
        exact (descends_trans _ _ _ Hd1 Hd2).
      * right; exists n; split; [lia|].
        destruct Hd2 as (E & _); congruence.
    + right; exists n; split; [lia|congruence].
  - auto.
Qed.

Lemma evolves_with_calls l w : evolves w (with_calls l w).
Proof.
  constructor; simpl; auto.
  - intros c' Hin; left; exists c'; split; [exact Hin|apply descends_refl].
  - apply store_ok_with_calls.
Qed.

Lemma steady_ret A (a : A) : steady (ret a).
Proof. intros w out w' _ H; inversion H; subst; apply evolves_refl. Qed.

Lemma steady_throw A (m : string) : steady (@throw A m).
Proof. intros w out w' _ H; inversion H; subst; apply evolves_refl. Qed.

Lemma steady_bind A B (m : Task A) (k : A -> Task B) :
  steady m -> (forall a, steady (k a)) -> steady (bind m k).
Proof.
  intros Hm Hk w out w' Hok H. unfold bind in H.
  destruct (m w) as [[a|msg] w1] eqn:E.
  - pose proof (Hm _ _ _ Hok E) as H1.
    exact (evolves_trans _ _ _ H1 (Hk a _ _ _ (ev_ok H1 Hok) H)).
  - inversion H; subst. exact (Hm _ _ _ Hok E).
Qed.

Lemma steady_attempt A (m : Task A) : steady m -> steady (attempt m).
Proof.
  intros Hm w out w' Hok H. unfold attempt in H.
  destruct (m w) as [[a|msg] w1] eqn:E; inversion H; subst;
    exact (Hm _ _ _ Hok E).
Qed.

Lemma steady_log c : steady (log c).
Proof. intros w out w' _ H; inversion H; subst; apply evolves_with_calls. Qed.

Lemma steady_findFirst q o : steady (findFirst q o).
Proof. intros w out w' _ H; inversion H; subst; apply evolves_refl. Qed.

Lemma steady_route f (m : Task Response) w :
  steady m -> store_ok w -> evolves w (snd (route f m w)).
Proof.
  intros Hm Hok. unfold route. destruct (m w) as [[r|msg] w1] eqn:E; simpl;
    exact (Hm _ _ _ Hok E).
Qed.

(** Deleting rows keeps the primary key. *)
Lemma remove_keeps_pk i tbl :
  NoDup (map id tbl) -> NoDup (map id (remove i tbl)).
Proof.
  unfold remove. induction tbl as [|a t IH]; simpl; intros Hnd; [constructor|].
  inversion Hnd as [|? ? Hfresh Hrest]; subst.
  destruct (negb (String.eqb (id a) i)); simpl; [|auto].
  constructor; [|auto].
  intros Hin. apply Hfresh. apply in_map_iff in Hin.
  destruct Hin as (x & Hx & Hin). apply filter_In in Hin.
  apply in_map_iff; exists x; tauto.
Qed.

Lemma steady_create e d : steady (create e d).
Proof.
  intros w out w' _ H. unfold create in H.
  set (c := {| id := cuid w (issued w); userId := c_userId d;
               externalId := c_externalId d; roleArn := c_roleArn d;
               name := c_name d; createdAt := now e; updatedAt := now e |}) in *.
  destruct (has_id (id c) (table w) || clashes (id c) c (table w)) eqn:E;
    inversion H; subst; clear H.
  - constructor; simpl; auto.
    + intros c' Hin; left; exists c'; split; [exact Hin|apply descends_refl].
    + intros [H1 H2 H3 H4 H5]; constructor; simpl; auto.
      intros x Hx. destruct (H2 x Hx) as (n & Hn & Hid). exists n; split; [lia|auto].
  - apply orb_false_iff in E. destruct E as [Eid Ecl].
    pose proof (@has_id_false _ _ Eid) as Hfresh.
    pose proof (@clashes_false _ _ _ Ecl) as Hclash.
    constructor; simpl; auto.
    + intros c' Hin. apply in_app_or in Hin. destruct Hin as [Hin|[<-|[]]].
      * left; exists c'; split; [exact Hin|apply descends_refl].
      * right; exists (issued w); split; [lia|reflexivity].
    + intros [H1 H2 H3 H4 H5]; constructor; simpl; auto.
      * intros x Hx. apply in_app_or in Hx. destruct Hx as [Hx|[<-|[]]].
        -- destruct (H2 x Hx) as (n & Hn & Hid). exists n; split; [lia|auto].
        -- exists (issued w); split; [lia|reflexivity].
      * rewrite map_app. apply NoDup_app; auto.
        -- simpl. constructor; [simpl; tauto|constructor].
        -- intros a Ha [<-|[]]. apply in_map_iff in Ha.
           destruct Ha as (x & Hx & Hin). exact (Hfresh x Hin Hx).
      * intros x y Hx Hy Hu He.
        apply in_app_or in Hx; apply in_app_or in Hy.
        destruct Hx as [Hx|[<-|[]]]; destruct Hy as [Hy|[<-|[]]]; auto.
        -- exfalso. destruct (Hclash x Hx (Hfresh x Hx) Hu) as [Hne _]. auto.
        -- exfalso. destruct (Hclash y Hy (Hfresh y Hy) (eq_sym Hu)) as [Hne _].
           auto.
      * intros x y r Hx Hy Hu Hrx Hry.
        apply in_app_or in Hx; apply in_app_or in Hy.
        destruct Hx as [Hx|[<-|[]]]; destruct Hy as [Hy|[<-|[]]]; eauto.
        -- exfalso. destruct (Hclash x Hx (Hfresh x Hx) Hu) as [_ Hne].
           exact (Hne r Hry Hrx).
        -- exfalso. destruct (Hclash y Hy (Hfresh y Hy) (eq_sym Hu)) as [_ Hne].
           exact (Hne r Hrx Hry).
Qed.

Lemma steady_delete i : steady (delete i).
Proof.
  intros w out w' _ H. unfold delete in H.
  destruct (find (fun c => String.eqb (id c) i) (table w)) as [c|];
    inversion H; subst; clear H; [|apply evolves_refl].
  constructor; simpl; auto.
  - intros c' Hin. apply remove_In in Hin.
    left; exists c'; split; [tauto|apply descends_refl].
  - intros [H1 H2 H3 H4 H5]; constructor; simpl; auto.
    + intros x Hx. apply remove_In in Hx. apply H2; tauto.
    + apply remove_keeps_pk; exact H3.
    + intros x y Hx Hy. apply remove_In in Hx; apply remove_In in Hy.
      apply H4; tauto.
    + intros x y r Hx Hy. apply remove_In in Hx; apply remove_In in Hy.
      apply H5; tauto.
Qed.

(** An update that does not write null into [roleArn]. *)
Lemma steady_update e i d :
  u_roleArn d <> Some None -> steady (update e i d).
Proof.
  intros Hd w out w' Hok H. pose proof (ok_pk Hok) as Hpk. unfold update in H.
  destruct (find (fun c => String.eqb (id c) i) (table w)) as [c|] eqn:Ef;
    [|inversion H; subst; apply evolves_refl].
  destruct (clashes i (apply_update d (now e) c) (table w)) eqn:Ecl;
    inversion H; subst; clear H; [apply evolves_refl|].
  apply find_by_id_In in Ef. destruct Ef as [Hin Hid]. subst i.
  pose proof (@clashes_false _ _ _ Ecl) as Hclash.
  set (c' := apply_update d (now e) c) in *.
  assert (descends c c') as Hdesc.
  { unfold descends, c'; simpl. repeat split; auto.
    intros Hc. destruct (u_roleArn d) as [[r|]|];
      [discriminate|congruence|exact Hc]. }
  assert (forall x, In x (replace (id c) c' (table w)) ->
            x = c' \/ (In x (table w) /\ id x <> id c)) as Hrep
    by (intros x; apply replace_In; exact Hpk).
  constructor; simpl; auto.
  - intros x Hx. destruct (Hrep x Hx) as [->|[Hx' _]].
    + left; exists c; auto.
    + left; exists x; split; [exact Hx'|apply descends_refl].
  - intros [H1 H2 H3 H4 H5]; constructor; simpl; auto.
    + intros x Hx. destruct (Hrep x Hx) as [->|[Hx' _]]; auto.
      destruct (H2 c Hin) as (n & Hn & Hc). exists n; split; auto.
    + rewrite replace_map_id; auto.
    + intros x y Hx Hy Hu He.
      destruct (Hrep x Hx) as [->|[Hx' Hnx]]; destruct (Hrep y Hy) as [->|[Hy' Hny]];
        auto.
      * change (id c = id y). apply H4; auto.
      * change (id x = id c). apply H4; auto.
    + intros x y r Hx Hy Hu Hrx Hry.
      destruct (Hrep x Hx) as [->|[Hx' Hnx]]; destruct (Hrep y Hy) as [->|[Hy' Hny]];
        eauto.
      * exfalso. destruct (Hclash y Hy' Hny (eq_sym Hu)) as [_ Hne].
        exact (Hne r Hrx Hry).
      * exfalso. destruct (Hclash x Hx' Hnx Hu) as [_ Hne].
        exact (Hne r Hry Hrx).
Qed.

Create HintDb steady.

#[local] Hint Resolve steady_ret steady_throw steady_attempt steady_log
  steady_findFirst steady_create steady_delete : steady.

Ltac steady_step :=
  match goal with
  | |- steady (bind _ _) => apply steady_bind; [|intros ?]
  | |- steady (attempt _) => apply steady_attempt
  | |- steady (match ?x with _ => _ end) => destruct x
  | |- steady (if ?b then _ else _) => destruct b
  | |- steady (update _ _ _) => apply steady_update; simpl; discriminate
  | |- steady _ => solve [auto with steady]
  end.

Lemma steady_assumeRole e r x : steady (Aws.assumeRole e r x).
Proof. unfold Aws.assumeRole, Aws.getBaseCredentials. repeat steady_step. Qed.

Lemma steady_listBuckets e c : steady (Aws.listBuckets e c).
Proof. unfold Aws.listBuckets. repeat steady_step. Qed.

Lemma steady_listObjects e b p m c : steady (Aws.listObjects e b p m c).
Proof. unfold Aws.listObjects. repeat steady_step. Qed.

Lemma steady_presign e b k t c x :
  steady (Aws.generatePresignedUploadUrl e b k t c x).
Proof. unfold Aws.generatePresignedUploadUrl. repeat steady_step. Qed.

#[local] Hint Resolve steady_assumeRole steady_listBuckets steady_listObjects
  steady_presign : steady.

Lemma steady_fetchConnection u c : steady (fetchConnection u c).
Proof. unfold fetchConnection. repeat steady_step. Qed.

Lemma steady_resolveConnection e u c : steady (Verify.resolveConnection e u c).
Proof. unfold Verify.resolveConnection. repeat steady_step. Qed.

Lemma steady_probe e r c : steady (Verify.probe e r c).
Proof. unfold Verify.probe. repeat steady_step. Qed.

Lemma steady_reconcile e u r n c : steady (Verify.reconcile e u r n c).
Proof. unfold Verify.reconcile, Verify.promote. repeat steady_step. Qed.

#[local] Hint Resolve steady_fetchConnection steady_resolveConnection
  steady_probe steady_reconcile : steady.

(** Every request leaves the world reachable from where it started. *)
Lemma serve_evolves r w : store_ok w -> evolves w (snd (serve r w)).
Proof.
  intros Hok. destruct r; simpl;
    [unfold Bootstrap.GET | unfold Verify.POST | unfold Buckets.GET
    | unfold Objects.GET | unfold PresignedUrl.POST ];
    apply steady_route; auto; repeat steady_step.
Qed.

Lemma run_evolves rs w : store_ok w -> evolves w (run rs w).
Proof.
  revert w; induction rs as [|r rs IH]; simpl; intros w Hok.
  - apply evolves_refl.
  - pose proof (serve_evolves r _ Hok) as H1.
    exact (evolves_trans _ _ _ H1 (IH _ (ev_ok H1 Hok))).
Qed.

(** ** Tasks that only talk to the database *)

Lemma quiet_ret A (a : A) : quiet (ret a).
Proof. intros w out w' H; inversion H; reflexivity. Qed.

Lemma quiet_throw A m : quiet (@throw A m).
Proof. intros w out w' H; inversion H; reflexivity. Qed.

Lemma quiet_bind A B (m : Task A) (k : A -> Task B) :
  quiet m -> (forall a, quiet (k a)) -> quiet (bind m k).
Proof.
  intros Hm Hk w out w' H. unfold bind in H.
  destruct (m w) as [[a|msg] w1] eqn:E.
  - rewrite (Hk a _ _ _ H). exact (Hm _ _ _ E).
  - inversion H; subst. exact (Hm _ _ _ E).
Qed.

Lemma quiet_findFirst q o : quiet (findFirst q o).
Proof. intros w out w' H; inversion H; reflexivity. Qed.

Lemma quiet_create e d : quiet (create e d).
Proof.
  intros w out w' H. unfold create in H.
  destruct (_ || _); inversion H; reflexivity.
Qed.

Lemma quiet_update e i d : quiet (update e i d).
Proof.
  intros w out w' H. unfold update in H.
  destruct (find _ _); [destruct (clashes _ _ _)|]; inversion H; reflexivity.
Qed.

Lemma quiet_delete i : quiet (delete i).
Proof.
  intros w out w' H. unfold delete in H.
  destruct (find _ _); inversion H; reflexivity.
Qed.

Create HintDb quiet.

#[local] Hint Resolve quiet_ret quiet_throw quiet_findFirst quiet_create
  quiet_update quiet_delete : quiet.

Ltac quiet_step :=
  match goal with
  | |- quiet (bind _ _) => apply quiet_bind; [|intros ?]
  | |- quiet (match ?x with _ => _ end) => destruct x
  | |- quiet (if ?b then _ else _) => destruct b
  | |- quiet _ => solve [auto with quiet]
  end.

Lemma quiet_fetchConnection u c : quiet (fetchConnection u c).
Proof. unfold fetchConnection. repeat quiet_step. Qed.

Lemma quiet_resolveConnection e u c : quiet (Verify.resolveConnection e u c).
Proof. unfold Verify.resolveConnection. repeat quiet_step. Qed.

Lemma quiet_reconcile e u r n c : quiet (Verify.reconcile e u r n c).
Proof. unfold Verify.reconcile, Verify.promote. repeat quiet_step. Qed.

Lemma offline_ret A (a : A) : offline (ret a).
Proof. intros l w; reflexivity. Qed.

Lemma offline_throw A m : offline (@throw A m).
Proof. intros l w; reflexivity. Qed.

Lemma offline_bind A B (m : Task A) (k : A -> Task B) :
  offline m -> (forall a, offline (k a)) -> offline (bind m k).
Proof.
  intros Hm Hk l w. unfold bind. rewrite Hm.
  destruct (m w) as [[a|msg] w1]; simpl; [apply Hk|reflexivity].
Qed.

Lemma offline_findFirst q o : offline (findFirst q o).
Proof. intros l w; reflexivity. Qed.

Lemma offline_create e d : offline (create e d).
Proof.
  intros l w. unfold create; simpl. destruct (_ || _); reflexivity.
Qed.

Lemma offline_update e i d : offline (update e i d).
Proof.
  intros l w. unfold update; simpl.
  destruct (find _ _); [destruct (clashes _ _ _)|]; reflexivity.
Qed.

Lemma offline_delete i : offline (delete i).
Proof.
  intros l w. unfold delete; simpl. destruct (find _ _); reflexivity.
Qed.

Create HintDb offline.

#[local] Hint Resolve offline_ret offline_throw offline_findFirst offline_create
  offline_update offline_delete : offline.

Ltac offline_step :=
  match goal with
  | |- offline (bind _ _) => apply offline_bind; [|intros ?]
  | |- offline (match ?x with _ => _ end) => destruct x
  | |- offline (if ?b then _ else _) => destruct b
  | |- offline _ => solve [auto with offline]
  end.

Lemma offline_resolveConnection e u c : offline (Verify.resolveConnection e u c).
Proof. unfold Verify.resolveConnection. repeat offline_step. Qed.

Lemma offline_reconcile e u r n c : offline (Verify.reconcile e u r n c).
Proof. unfold Verify.reconcile, Verify.promote. repeat offline_step. Qed.

(** ** Resolving the row to verify *)

Lemma resolveConnection_stored e uid cid w :
  Verify.resolveConnection e uid cid w =
  match stored uid cid (table w) with
  | Some c => (Returned c, w)
  | None => create e (pending_data e uid) w
  end.
Proof.
  unfold Verify.resolveConnection, stored, bind, findFirst, ret.
  destruct cid as [i|]; [destruct (JS.truthy i)|]; simpl;
    try destruct (find _ _); simpl;
    try destruct (latest _); reflexivity.
Qed.

Lemma stored_sound uid cid tbl c :
  stored uid cid tbl = Some c -> In c tbl /\ userId c = uid.
Proof.
  unfold stored. intros H.
  destruct cid as [i|]; [destruct (JS.truthy i)|].
  1: destruct (select (by_id_and_user i uid) Unordered tbl) as [d|] eqn:E.
  1: { inversion H; subst. apply select_sound in E. destruct E as [Hin Hm].
       apply matches_by_id_and_user in Hm. tauto. }
  all: apply select_sound in H; destruct H as [Hin Hm];
    apply matches_pending_of in Hm; tauto.
Qed.

Lemma create_returned e d w c w' :
  create e d w = (Returned c, w') ->
  c = {| id := cuid w (issued w); userId := c_userId d;
         externalId := c_externalId d; roleArn := c_roleArn d;
         name := c_name d; createdAt := now e; updatedAt := now e |} /\
  w' = with_table (table w ++ [c]) (with_issued (S (issued w)) w).
Proof.
  unfold create. destruct (_ || _); intros H; inversion H; subst. auto.
Qed.

Lemma create_threw e d w m w' :
  create e d w = (Threw m, w') -> w' = with_issued (S (issued w)) w.
Proof.
  unfold create. destruct (_ || _); intros H; inversion H; subst. auto.
Qed.

(** Whatever row verify resolves is in the table afterwards and belongs to
    the requesting user. *)
Lemma resolveConnection_sound e uid cid w c w1 :
  Verify.resolveConnection e uid cid w = (Returned c, w1) ->
  In c (table w1) /\ userId c = uid /\ calls w1 = calls w.
Proof.
  rewrite resolveConnection_stored.
  destruct (stored uid cid (table w)) as [d|] eqn:E.
  - intros H; inversion H; subst. apply stored_sound in E. tauto.
  - intros H. apply create_returned in H. destruct H as [Hc ->]. simpl.
    split; [apply in_or_app; right; left; reflexivity|].
    split; [rewrite Hc; reflexivity|reflexivity].
Qed.

Lemma find_app_None A (f : A -> bool) l l' :
  find f l = None -> find f (l ++ l') = find f l'.
Proof.
  induction l as [|a l IH]; simpl; [reflexivity|].
  destruct (f a); [discriminate|exact IH].
Qed.

(** Once a row has been resolved, resolving again on the same table finds
    that row and creates nothing. *)
Lemma resolveConnection_again e uid cid w c w1 :
  Verify.resolveConnection e uid cid w = (Returned c, w1) ->
  stored uid cid (table w1) = Some c.
Proof.
  rewrite resolveConnection_stored.
  destruct (stored uid cid (table w)) as [d|] eqn:E.
  - intros H; inversion H; subst; exact E.
  - intros H. apply create_returned in H. destruct H as [Hc ->]. simpl.
    assert (matches (pending_of uid) c = true) as Hp
      by (apply matches_pending_of; rewrite Hc; simpl; auto).
    assert (select (pending_of uid) CreatedAtDesc (table w ++ [c]) = Some c) as Hl.
    { assert (select (pending_of uid) CreatedAtDesc (table w) = None) as Hn.
      { unfold stored in E.
        destruct cid as [i|]; [destruct (JS.truthy i)|]; auto.
        destruct (select (by_id_and_user i uid) Unordered (table w));
          [discriminate|auto]. }
      simpl in *. apply latest_None in Hn.
      rewrite filter_app, Hn. simpl. rewrite Hp. reflexivity. }
    unfold stored in *.
    destruct cid as [i|]; [destruct (JS.truthy i)|]; auto.
    destruct (select (by_id_and_user i uid) Unordered (table w)) eqn:Es;
      [discriminate|].
    simpl in Es |- *. rewrite (@find_app_None _ _ _ _ Es). simpl.
    destruct (matches (by_id_and_user i uid) c); [reflexivity|exact Hl].
Qed.

(** ** The probe *)

Lemma assumeRole_world e r x w :
  exists out,
    Aws.assumeRole e r x w = (out, with_calls (calls w ++ [CallAssumeRole r x]) w).
Proof.
  unfold Aws.assumeRole, Aws.getBaseCredentials, bind, log, attempt, ret, throw.
  destruct (AWS_ACCESS_KEY_ID e) as [a|]; [|eauto].
  destruct (AWS_SECRET_ACCESS_KEY e) as [s|]; [|eauto].
  destruct (negb (JS.truthy a) || negb (JS.truthy s)); [eauto|].
  destruct (sts_AssumeRole e _ _) as [m|resp]; [eauto|].
  destruct (Credentials_ resp); eauto.
Qed.

Lemma listBuckets_world e c w :
  exists out,
    Aws.listBuckets e c w = (out, with_calls (calls w ++ [CallListBuckets c]) w).
Proof.
  unfold Aws.listBuckets, bind, log, ret, throw.
  destruct (s3_ListBuckets e _); eauto.
Qed.

(** The probe always returns; it starts with a role assumption that uses
    the External ID of the row it was given, may go on to list buckets,
    touches nothing but the log, and its early returns are 403s. *)
Lemma probe_spec e r c w :
  exists p tail,
    Verify.probe e r c w =
      (Returned p,
       with_calls (calls w ++ CallAssumeRole (Some r) (externalId c) :: tail) w) /\
    (forall k, In k tail -> exists cr, k = CallListBuckets cr) /\
    match p with
    | inl response => status response = 403 /\ probe_fails e r c w
    | inr _ => ~ probe_fails e r c w
    end.
Proof.
  unfold Verify.probe, probe_fails, bind, attempt.
  destruct (assumeRole_world e (Some r) (externalId c) w) as [out ->].
  destruct out as [cr|m].
  - destruct (listBuckets_world e cr
                (with_calls (calls w ++ [CallAssumeRole (Some r) (externalId c)]) w))
      as [out' ->].
    simpl. rewrite <- app_assoc. simpl.
    destruct out' as [bs|m]; simpl.
    + exists (inr cr), [CallListBuckets cr]. split; [reflexivity|].
      split; [|tauto]. intros k [<-|[]]; eauto.
    + exists (inl (Verify.access_denied m)), [CallListBuckets cr].
      split; [reflexivity|]. split; [|simpl; auto].
      intros k [<-|[]]; eauto.
  - simpl. exists (inl (Verify.assume_failed m)), [].
    split; [reflexivity|]. split; [intros k []|simpl; auto].
Qed.

(* ================================================================== *)
(** ** The External ID used by verify *)

(** C1.  Whatever the client puts into the request body next to roleArn,
    name and connectionId (an externalId member, say) changes nothing of
    what verify does; and every role assumption that a verify request makes
    carries the External ID of the row resolved for the signed-in user, a
    row of that user that is in the table at that moment. *)
Theorem verify_uses_stored_externalId e session body w :
  (forall others',
     Verify.POST e session
       {| Verify.roleArn := Verify.roleArn body;
          Verify.name := Verify.name body;
          Verify.connectionId := Verify.connectionId body;
          Verify.others := others' |} w
     = Verify.POST e session body w) /\
  exists made,
    calls (snd (Verify.POST e session body w)) = (calls w ++ made)%list /\
    forall r x, In (CallAssumeRole r x) made ->
      exists uid c w1,
        signed_in session = Some uid /\
        Verify.resolveConnection e uid (Verify.connectionId body) w
          = (Returned c, w1) /\
        In c (table w1) /\ userId c = uid /\
        x = externalId c /\ r = Verify.roleArn body.
Proof.
  split; [intros; reflexivity|].
  assert (forall l : list Call, exists made,
            l = (l ++ made)%list /\
            forall r x, In (CallAssumeRole r x) made ->
              exists uid c w1,
                signed_in session = Some uid /\
                Verify.resolveConnection e uid (Verify.connectionId body) w
                  = (Returned c, w1) /\
                In c (table w1) /\ userId c = uid /\
                x = externalId c /\ r = Verify.roleArn body) as Hnone.
  { intros l; exists []; rewrite app_nil_r; split; [reflexivity|intros ? ? []]. }
  unfold Verify.POST, route.
  destruct (signed_in session) as [uid|] eqn:Es; [|apply Hnone].
  destruct (Verify.roleArn body) as [r|] eqn:Er; [|apply Hnone].
  destruct (JS.truthy r); simpl; [|apply Hnone].
  destruct (Verify.malformed r); simpl; [apply Hnone|].
  unfold bind.
  destruct (Verify.resolveConnection e uid (Verify.connectionId body) w)
    as [[c|m] w1] eqn:ER.
  - destruct (resolveConnection_sound _ _ _ _ _ _ ER) as (Hin & Hu & Hc).
    destruct (probe_spec e r c w1) as (p & tail & EP & Htail & _).
    rewrite EP.
    assert (forall r0 x, In (CallAssumeRole r0 x)
                           (CallAssumeRole (Some r) (externalId c) :: tail) ->
              exists uid0 c0 w0,
                Some uid = Some uid0 /\
                Verify.resolveConnection e uid0 (Verify.connectionId body) w
                  = (Returned c0, w0) /\
                In c0 (table w0) /\ userId c0 = uid0 /\
                x = externalId c0 /\ r0 = Some r) as Hmade.
    { intros r0 x [H|H].
      - inversion H; subst. exists (userId c), c, w1. auto 10.
      - destruct (Htail _ H) as [cr Hk]; discriminate. }
    destruct p as [response|cr].
    + simpl. exists (CallAssumeRole (Some r) (externalId c) :: tail).
      rewrite Hc. split; [reflexivity|exact Hmade].
    + destruct (Verify.reconcile e uid r (Verify.name body) c _)
        as [[c2|m] w3] eqn:ERc; simpl;
        rewrite (quiet_reconcile _ _ _ _ _ _ _ _ ERc); simpl;
        exists (CallAssumeRole (Some r) (externalId c) :: tail);
        rewrite Hc; (split; [reflexivity|exact Hmade]).
  - simpl. rewrite (quiet_resolveConnection _ _ _ _ _ _ ER). apply Hnone.
Qed.

(** Verify, once the request is authenticated, well formed and its row
    resolved: the probe decides between the early return and step 3. *)
Lemma verify_resolved e session uid body r c w w1 :
  signed_in session = Some uid ->
  Verify.roleArn body = Some r -> JS.truthy r = true ->
  Verify.malformed r = false ->
  Verify.resolveConnection e uid (Verify.connectionId body) w = (Returned c, w1) ->
  Verify.POST e session body w =
  match Verify.probe e r c w1 with
  | (Returned (inl response), w2) => (response, w2)
  | (Returned (inr _), w2) =>
      route "Internal server error"
        (connection <- Verify.reconcile e uid r (Verify.name body) c ;;
         ret (Verify.verified connection)) w2
  | (Threw m, w2) =>
      (json (JObj [("error", JStr "Internal server error");
                   ("details", JStr m)]) 500, w2)
  end.
Proof.
  intros Es Er Et Em ER. unfold Verify.POST, route, bind.
  rewrite Es, Er, Et, Em; simpl. unfold bind. rewrite ER.
  destruct (Verify.probe e r c w1) as [[[response|cr]|m] w2]; reflexivity.
Qed.

(* ================================================================== *)
(** ** A rejected verify *)

(** C2.  When role assumption, or the bucket listing after it, is rejected,
    verify answers 403 and the table is what it was once the row had been
    resolved: the row is still there, field for field.  A retry with the
    same connectionId and any other well-formed role ARN resolves the same
    row without creating one, and assumes the role with that row's
    External ID. *)
Theorem rejected_verify_keeps_row e session uid body r c w w1 :
  signed_in session = Some uid ->
  Verify.roleArn body = Some r -> JS.truthy r = true ->
  Verify.malformed r = false ->
  Verify.resolveConnection e uid (Verify.connectionId body) w = (Returned c, w1) ->
  probe_fails e r c w1 ->
  status (fst (Verify.POST e session body w)) = 403 /\
  table (snd (Verify.POST e session body w)) = table w1 /\
  In c (table (snd (Verify.POST e session body w))) /\
  forall e' body' r',
    Verify.connectionId body' = Verify.connectionId body ->
    Verify.roleArn body' = Some r' -> JS.truthy r' = true ->
    Verify.malformed r' = false ->
    let w2 := snd (Verify.POST e session body w) in
    Verify.resolveConnection e' uid (Verify.connectionId body') w2
      = (Returned c, w2) /\
    exists tail,
      calls (snd (Verify.POST e' session body' w2))
      = (calls w2 ++ CallAssumeRole (Some r') (externalId c) :: tail)%list.
Proof.
  intros Es Er Et Em ER Hfail.
  rewrite (verify_resolved _ _ _ _ _ _ _ _ Es Er Et Em ER).
  destruct (probe_spec e r c w1) as (p & tail & EP & _ & Hp). rewrite EP.
  destruct p as [response|cr]; [|contradiction]. destruct Hp as [Hs _].
  simpl. split; [exact Hs|]. split; [reflexivity|].
  destruct (resolveConnection_sound _ _ _ _ _ _ ER) as (Hin & _ & _).
  split; [exact Hin|].
  intros e' body' r' Hcid Er' Et' Em'.
  set (w2 := with_calls _ w1).
  assert (Verify.resolveConnection e' uid (Verify.connectionId body') w2
          = (Returned c, w2)) as ER'.
  { rewrite resolveConnection_stored, Hcid. unfold w2; simpl.
    rewrite (resolveConnection_again _ _ _ _ _ _ ER). reflexivity. }
  split; [exact ER'|].
  rewrite (verify_resolved _ _ _ _ _ _ _ _ Es Er' Et' Em' ER').
  destruct (probe_spec e' r' c w2) as (p' & tail' & EP' & _ & _). rewrite EP'.
  exists tail'. destruct p' as [response'|cr']; [reflexivity|].
  unfold route, bind.
  destruct (Verify.reconcile e' uid r' (Verify.name body') c _)
    as [[c2|m] w3] eqn:ERc; simpl;
    rewrite (quiet_reconcile _ _ _ _ _ _ _ _ ERc); reflexivity.
Qed.

(* ================================================================== *)
(** ** Bootstrap *)

Lemma pending_after_create uid tbl c :
  select (pending_of uid) CreatedAtDesc tbl = None ->
  userId c = uid -> roleArn c = None ->
  select (pending_of uid) CreatedAtDesc (tbl ++ [c]) = Some c.
Proof.
  simpl. intros Hn Hu Hr. apply latest_None in Hn.
  rewrite filter_app, Hn. simpl.
  assert (matches (pending_of uid) c = true) as ->
    by (apply matches_pending_of; auto).
  reflexivity.
Qed.

(** C3.  Bootstrap leaves the table alone unless the user has no pending
    row, in which case it appends one pending row carrying a freshly
    generated External ID.  And when a bootstrap call succeeds, the next one
    answers with the very same body (same connectionId, same externalId)
    and changes nothing. *)
Theorem bootstrap_idempotent e1 e2 session w :
  (table (snd (Bootstrap.GET e1 session w)) = table w \/
   exists uid c,
     signed_in session = Some uid /\
     (forall p, In p (table w) -> userId p = uid -> roleArn p <> None) /\
     table (snd (Bootstrap.GET e1 session w)) = (table w ++ [c])%list /\
     userId c = uid /\ roleArn c = None /\
     externalId c = generateExternalId e1) /\
  (status (fst (Bootstrap.GET e1 session w)) = 200 ->
   exists uid c,
     signed_in session = Some uid /\
     In c (table (snd (Bootstrap.GET e1 session w))) /\
     userId c = uid /\ roleArn c = None /\
     fst (Bootstrap.GET e1 session w)
       = json (JObj [("success", JBool true);
                     ("connectionId", JStr (id c));
                     ("externalId", JStr (externalId c))]) 200 /\
     Bootstrap.GET e2 session (snd (Bootstrap.GET e1 session w))
       = Bootstrap.GET e1 session w).
Proof.
  unfold Bootstrap.GET, route, bind, findFirst.
  destruct (signed_in session) as [uid|] eqn:Es; simpl;
    [|split; [left; reflexivity|discriminate]].
  destruct (latest (filter (matches (pending_of uid)) (table w))) as [c|] eqn:E.
  - simpl. split; [left; reflexivity|]. intros _.
    destruct (select_sound (pending_of uid) CreatedAtDesc (table w) c E)
      as [Hin Hm].
    apply matches_pending_of in Hm. destruct Hm as [Hu Hr].
    exists uid, c. rewrite E. simpl. auto 10.
  - destruct (create e1 (pending_data e1 uid) w) as [[c|m] w1] eqn:Ec.
    + apply create_returned in Ec. destruct Ec as [Hc ->]. simpl.
      assert (userId c = uid) as Hu by (rewrite Hc; reflexivity).
      assert (roleArn c = None) as Hr by (rewrite Hc; reflexivity).
      split.
      * right. exists uid, c. repeat split; auto.
        -- intros p Hin Hp Hnull.
           pose proof (select_none (pending_of uid) CreatedAtDesc (table w) p E Hin)
             as Hm.
           assert (matches (pending_of uid) p = true)
             by (apply matches_pending_of; auto).
           congruence.
        -- rewrite Hc; reflexivity.
      * intros _. exists uid, c.
        pose proof (pending_after_create uid (table w) c E Hu Hr) as Hl.
        simpl in Hl. rewrite Hl. simpl.
        repeat split; auto. apply in_or_app; right; left; reflexivity.
    + apply create_threw in Ec. subst w1. simpl.
      split; [left; reflexivity|discriminate].
Qed.

(* ================================================================== *)
(** ** The life of a row *)

Lemma pk_injective tbl a b :
  NoDup (map id tbl) -> In a tbl -> In b tbl -> id a = id b -> a = b.
Proof.
  induction tbl as [|x t IH]; simpl; intros Hnd Ha Hb E; [contradiction|].
  inversion Hnd as [|? ? Hn Hd]; subst.
  destruct Ha as [->|Ha]; destruct Hb as [->|Hb]; auto.
  - exfalso; apply Hn. rewrite E. apply in_map; exact Hb.
  - exfalso; apply Hn. rewrite <- E. apply in_map; exact Ha.
Qed.

(** A row of a reachable world that carries the id of an old row is a later
    state of that very row. *)
Lemma evolves_same_id w w' c c' :
  store_ok w -> evolves w w' ->
  In c (table w) -> In c' (table w') -> id c' = id c -> descends c c'.
Proof.
  intros Hok Hev Hin Hin' Hid.
  destruct (ev_rows Hev c' Hin') as [(c0 & Hin0 & Hd)|(n & Hn & Hfresh)].
  - assert (c0 = c) as ->; [|exact Hd].
    apply (pk_injective (table w)); auto using ok_pk.
    destruct Hd as (E & _); congruence.
  - exfalso. destruct (ok_issued Hok c Hin) as (m & Hm & Hcm).
    assert (n = m) by (apply (ok_cuid Hok); congruence). lia.
Qed.

(** C4, as the code has it.  Over any sequence of bootstrap, verify and
    resource-access requests, served on a store that has its keys, a row
    keeps its External ID (and its owner), and once its roleArn is set it
    is never null again: a row goes from pending to verified and not
    back.  The roleArn of a verified row is not fixed, though: a later
    verify that names the row may give it another role ARN. *)
Theorem roleArn_never_reverts rs w c c' :
  store_ok w ->
  In c (table w) -> In c' (table (run rs w)) -> id c' = id c ->
  externalId c' = externalId c /\
  userId c' = userId c /\
  (roleArn c <> None -> roleArn c' <> None) /\
  (phase c = Verified -> phase c' = Verified).
Proof.
  intros Hok Hin Hin' Hid.
  destruct (evolves_same_id w (run rs w) c c' Hok (run_evolves rs w Hok)
              Hin Hin' Hid) as (_ & Hu & He & Hr).
  repeat split; auto.
  unfold phase. destruct (roleArn c) as [r|]; [|discriminate].
  intros _. destruct (roleArn c'); [reflexivity|].
  exfalso; apply Hr; [discriminate|reflexivity].
Qed.

(* ================================================================== *)
(** ** Reconciliation *)

Lemma promote_succeeds e uid r n c w :
  store_ok w -> In c (table w) -> userId c = uid ->
  (forall ex, select (by_user_and_role uid r) Unordered (table w) = Some ex ->
              id ex = id c) ->
  Verify.promote e r n c w =
    (Returned (promoted e r n c),
     with_table (replace (id c) (promoted e r n c) (table w)) w).
Proof.
  intros Hok Hin Hu Hex. unfold Verify.promote, update.
  rewrite (find_by_id_unique (table w) c (ok_pk Hok) Hin).
  change (apply_update _ (now e) c) with (promoted e r n c).
  destruct (clashes (id c) (promoted e r n c) (table w)) eqn:Ecl; [|reflexivity].
  exfalso. unfold clashes in Ecl. apply existsb_exists in Ecl.
  destruct Ecl as (d & Hd & Hcl). simpl in Hcl.
  apply andb_true_iff in Hcl. destruct Hcl as [Hcl Hor].
  apply andb_true_iff in Hcl. destruct Hcl as [Hne Hud].
  apply negb_true_iff, String.eqb_neq in Hne. apply String.eqb_eq in Hud.
  apply orb_true_iff in Hor. destruct Hor as [He|Hr].
  - apply String.eqb_eq in He. apply Hne.
    apply (ok_externalId Hok); auto.
  - apply opt_eqb_eq in Hr.
    destruct (select (by_user_and_role uid r) Unordered (table w)) as [ex|] eqn:Es.
    + destruct (select_sound _ _ _ _ Es) as [Hexin Hm].
      apply matches_by_user_and_role in Hm. destruct Hm as [Hexu Hexr].
      apply Hne. rewrite <- (Hex ex eq_refl).
      apply (@ok_roleArn _ Hok d ex r); auto. congruence.
    + pose proof (select_none _ _ _ d Es Hd) as Hm.
      assert (matches (by_user_and_role uid r) d = true)
        by (apply matches_by_user_and_role; split; congruence).
      congruence.
Qed.

(** C6.  After a successful probe: if another row of the user already has
    the submitted role, verify answers with that row as it is in the table,
    leaves it there untouched, and removes the row it was verifying exactly
    when that row was pending; otherwise it promotes the row it was
    verifying in place, setting roleArn, taking the supplied name if there
    is a non-empty one and keeping id, owner, External ID and creation
    time. *)
Theorem verify_reconciles e session uid body r c w w1 :
  store_ok w ->
  signed_in session = Some uid ->
  Verify.roleArn body = Some r -> JS.truthy r = true ->
  Verify.malformed r = false ->
  Verify.resolveConnection e uid (Verify.connectionId body) w = (Returned c, w1) ->
  ~ probe_fails e r c w1 ->
  let result := Verify.POST e session body w in
  let c' := promoted e r (Verify.name body) c in
  let promotion :=
    fst result = Verify.verified c' /\
    table (snd result) = replace (id c) c' (table w1) /\
    In c' (table (snd result)) in
  match select (by_user_and_role uid r) Unordered (table w1) with
  | Some existing =>
      if String.eqb (id existing) (id c) then promotion
      else
        fst result = Verify.verified existing /\
        In existing (table (snd result)) /\
        table (snd result) =
          match roleArn c with
          | None => remove (id c) (table w1)
          | Some _ => table w1
          end
  | None => promotion
  end.
Proof.
  intros Hok Es Er Et Em ER Hpass result c' promotion.
  assert (store_ok w1) as Hok1
    by exact (ev_ok (steady_resolveConnection _ _ _ _ _ _ Hok ER) Hok).
  destruct (resolveConnection_sound _ _ _ _ _ _ ER) as (Hin & Hu & _).
  unfold promotion, result; clear promotion result.
  rewrite (verify_resolved _ _ _ _ _ _ _ _ Es Er Et Em ER).
  destruct (probe_spec e r c w1) as (p & tail & EP & _ & Hp). rewrite EP.
  destruct p as [response|cr]; [destruct Hp; contradiction|].
  set (w2 := with_calls _ w1).
  assert (store_ok w2) as Hok2 by (apply store_ok_with_calls; exact Hok1).
  assert ((forall ex', select (by_user_and_role uid r) Unordered (table w1)
                         = Some ex' -> id ex' = id c) ->
          fst (route "Internal server error"
                 (connection <- Verify.promote e r (Verify.name body) c ;;
                  ret (Verify.verified connection)) w2) = Verify.verified c' /\
          table (snd (route "Internal server error"
                 (connection <- Verify.promote e r (Verify.name body) c ;;
                  ret (Verify.verified connection)) w2))
            = replace (id c) c' (table w1) /\
          In c' (replace (id c) c' (table w1))) as Hpromote.
  { intros Hex. unfold route, bind.
    rewrite (promote_succeeds e uid r (Verify.name body) c w2 Hok2 Hin Hu Hex).
    simpl. repeat split; auto.
    apply In_replace_new. exists c; auto. }
  unfold Verify.reconcile, route, bind, findFirst in *.
  change (table w2) with (table w1).
  destruct (select (by_user_and_role uid r) Unordered (table w1))
    as [existing|] eqn:Eex.
  - destruct (String.eqb (id existing) (id c)) eqn:Eid; simpl.
    + apply String.eqb_eq in Eid.
      destruct Hpromote as (H1 & H2 & H3).
      { intros ex' Hex'; inversion Hex'; subst; exact Eid. }
      rewrite H2. auto.
    + apply String.eqb_neq in Eid.
      destruct (select_sound _ _ _ _ Eex) as [Hexin _].
      destruct (roleArn c) as [rc|] eqn:Erc; simpl.
      * auto.
      * unfold delete, bind.
        change (table w2) with (table w1).
        rewrite (find_by_id_unique (table w1) c (ok_pk Hok1) Hin). simpl.
        repeat split; auto. apply remove_In; auto.
  - destruct Hpromote as (H1 & H2 & H3); [intros ex' Hex'; discriminate|].
    rewrite H2. auto.
Qed.

(* ================================================================== *)
(** ** Validation of the role ARN *)

Lemma prefix_app p s : String.prefix p (p ++ s) = true.
Proof.
  induction p as [|a p IH]; simpl; [destruct s; reflexivity|].
  destruct (ascii_dec a a) as [_|N]; [exact IH|contradiction].
Qed.

Lemma includes_unfold s p :
  JS.includes s p =
  String.prefix p s ||
  match s with EmptyString => false | String _ s' => JS.includes s' p end.
Proof. destruct s; reflexivity. Qed.

Lemma includes_app a p b : JS.includes (a ++ p ++ b) p = true.
Proof.
  induction a as [|x a IH].
  - change ("" ++ p ++ b) with (p ++ b).
    rewrite includes_unfold, prefix_app. reflexivity.
  - change (String x a ++ p ++ b) with (String x (a ++ p ++ b)).
    rewrite includes_unfold, IH. apply orb_true_r.
Qed.

Lemma includes_skip a s p : JS.includes s p = true -> JS.includes (a ++ s) p = true.
Proof.
  intros H; induction a as [|x a IH]; [exact H|].
  change (String x a ++ s) with (String x (a ++ s)).
  rewrite includes_unfold, IH. apply orb_true_r.
Qed.

(** Every string of the documented shape passes the handler's test. *)
Lemma shape_accepted r : role_arn_shape r -> Verify.malformed r = false.
Proof.
  intros (account & name & ->). unfold Verify.malformed, JS.startsWith.
  rewrite prefix_app, includes_skip; [reflexivity|apply includes_app].
Qed.

(** Destructuring a value that is not null binds each name to the member
    of that name. *)
Lemma destructure_members first variable body w :
  body <> JNull ->
  destructure first variable body w = (Returned (fun k => get k body), w).
Proof. intros H. destruct body; try reflexivity. contradiction. Qed.

(** Validation, case by case. *)
Lemma verify_intake_eq body w :
  body <> JNull ->
  Verify.intake (inr body) w =
  (if truthy_json (get "roleArn" body) then
     match get "roleArn" body with
     | Some (JStr r) =>
         if Verify.malformed r then Returned (inl Verify.roleArn_invalid)
         else Returned (inr {| Verify.a_roleArn := r;
                               Verify.a_name := get "name" body;
                               Verify.a_connectionId := get "connectionId" body |})
     | _ => Threw (JS.not_a_function "roleArn.startsWith")
     end
   else Returned (inl Verify.roleArn_required), w).
Proof.
  intros Hn. unfold Verify.intake, request_json, bind, ret.
  rewrite (destructure_members _ _ body w Hn).
  destruct (truthy_json (get "roleArn" body)); [|reflexivity].
  simpl negb. cbv iota.
  destruct (get "roleArn" body) as [[| | |r| | |]|]; try reflexivity.
  destruct (Verify.malformed r); reflexivity.
Qed.

(** On a body whose three members are as declared, the handler on the
    body as it arrives is the handler on the cast body. *)
Lemma verify_handle_typed e session body w :
  body <> JNull ->
  Verify.as_declared (get "roleArn" body) ->
  Verify.as_declared (get "name" body) ->
  Verify.as_declared (get "connectionId" body) ->
  Verify.handle (Verify.proceed e) session (inr body) w
  = Verify.POST e session (Verify.cast body) w.
Proof.
  intros Hn Hr _ _. unfold Verify.handle, Verify.POST, route.
  destruct (signed_in session) as [uid|]; [|reflexivity].
  unfold bind at 1. rewrite (verify_intake_eq body w Hn).
  unfold Verify.cast. simpl Verify.roleArn. simpl Verify.name. simpl Verify.connectionId.
  destruct (get "roleArn" body) as [[| | |r| | |]|];
    try contradiction; try reflexivity.
  simpl. destruct (JS.truthy r); [|reflexivity]. simpl.
  destruct (Verify.malformed r); reflexivity.
Qed.

(** What the handler answers to a body it cannot use: the text is not
    JSON, the value is null, or roleArn is truthy and not a string, so
    that [roleArn.startsWith] is not a function. *)
Lemma verify_unusable_body rest session uid payload w :
  signed_in session = Some uid ->
  (exists message, payload = inl message) \/
  payload = inr JNull \/
  (exists body, payload = inr body /\
                truthy_json (get "roleArn" body) = true /\
                text (get "roleArn" body) = None) ->
  exists message,
    Verify.handle rest session payload w
    = (failed "Internal server error" message, w).
Proof.
  intros Es H. unfold Verify.handle, route. rewrite Es.
  destruct H as [(m & ->)|[->|(body & -> & Ht & Hx)]].
  - exists m. reflexivity.
  - eexists. reflexivity.
  - exists (JS.not_a_function "roleArn.startsWith").
    assert (body <> JNull) as Hn by (intros ->; discriminate).
    unfold bind. rewrite (verify_intake_eq body w Hn), Ht.
    destruct (get "roleArn" body) as [[| | |r| | |]|];
      try discriminate; reflexivity.
Qed.


(* ================================================================== *)
(** ** What a successful verify stores and returns *)

Lemma resolveConnection_env e e' uid cid w :
  now e' = now e -> randomBase64url e' = randomBase64url e ->
  Verify.resolveConnection e' uid cid w = Verify.resolveConnection e uid cid w.
Proof.
  intros Hn Hr. rewrite !resolveConnection_stored.
  destruct (stored uid cid (table w)); [reflexivity|].
  unfold create, pending_data, generateExternalId. rewrite Hn, Hr. reflexivity.
Qed.

Lemma reconcile_env e e' uid r n c w :
  now e' = now e ->
  Verify.reconcile e' uid r n c w = Verify.reconcile e uid r n c w.
Proof.
  intros Hn. unfold Verify.reconcile, Verify.promote, update. rewrite Hn.
  reflexivity.
Qed.

(** A verify answered 200 went all the way: it resolved a row, passed the
    probe and reconciled; its answer and the table it leaves are those of
    the reconciliation run on the resolved world. *)
Lemma verify_succeeded e session body w :
  status (fst (Verify.POST e session body w)) = 200 ->
  exists uid r c w1 c2 w3 l,
    signed_in session = Some uid /\
    Verify.roleArn body = Some r /\
    Verify.resolveConnection e uid (Verify.connectionId body) w
      = (Returned c, w1) /\
    Verify.reconcile e uid r (Verify.name body) c w1 = (Returned c2, w3) /\
    Verify.POST e session body w = (Verify.verified c2, with_calls l w3).
Proof.
  unfold Verify.POST, route.
  destruct (signed_in session) as [uid|] eqn:Es; [|discriminate].
  destruct (Verify.roleArn body) as [r|] eqn:Er; [|discriminate].
  destruct (JS.truthy r); simpl; [|discriminate].
  destruct (Verify.malformed r); simpl; [discriminate|].
  unfold bind.
  destruct (Verify.resolveConnection e uid (Verify.connectionId body) w)
    as [[c|m] w1] eqn:ER; [|discriminate].
  destruct (probe_spec e r c w1) as (p & tail & EP & _ & Hp). rewrite EP.
  destruct p as [response|cr].
  - destruct Hp as [Hs _]. simpl. rewrite Hs. discriminate.
  - rewrite offline_reconcile.
    destruct (Verify.reconcile e uid r (Verify.name body) c w1)
      as [[c2|m] w3] eqn:ERc; simpl; [|discriminate].
    intros _. exists uid, r, c, w1, c2, w3. eexists.
    repeat split; try reflexivity; try assumption.
    rewrite offline_reconcile, ERc. reflexivity.
Qed.

(** C8.  Take two runs of the same verify request on the same world, with
    the same clock and the same random bytes, in which the services answer
    differently, in particular with different temporary credentials.  If
    both succeed they answer the same and leave the same table: nothing of
    the credentials reaches the store or the response.  The connection
    object of the response has exactly the members id, roleArn, name and
    createdAt. *)
Theorem credentials_never_persisted e e' session request w :
  now e' = now e -> randomBase64url e' = randomBase64url e ->
  status (fst (Verify.POST e session request w)) = 200 ->
  status (fst (Verify.POST e' session request w)) = 200 ->
  fst (Verify.POST e' session request w) = fst (Verify.POST e session request w) /\
  table (snd (Verify.POST e' session request w))
    = table (snd (Verify.POST e session request w)) /\
  exists c connection,
    fst (Verify.POST e session request w) = Verify.verified c /\
    get "connection" (body (fst (Verify.POST e session request w)))
      = Some connection /\
    keys connection = ["id"; "roleArn"; "name"; "createdAt"] /\
    keys (body (fst (Verify.POST e session request w)))
      = ["success"; "connection"; "message"].
Proof.
  intros Hn Hr H200 H200'.
  destruct (verify_succeeded e session request w H200)
    as (uid & r & c & w1 & c2 & w3 & l & Es & Er & ER & ERc & ->).
  destruct (verify_succeeded e' session request w H200')
    as (uid' & r' & c' & w1' & c2' & w3' & l' & Es' & Er' & ER' & ERc' & ->).
  rewrite Es in Es'; inversion Es'; subst uid'.
  rewrite Er in Er'; inversion Er'; subst r'.
  rewrite (resolveConnection_env e e' _ _ _ Hn Hr), ER in ER'.
  inversion ER'; subst c' w1'.
  rewrite (reconcile_env e e' _ _ _ _ _ Hn), ERc in ERc'.
  inversion ERc'; subst c2' w3'.
  simpl. repeat split.
  exists c2. eexists. repeat split.
Qed.

(* ================================================================== *)
(** ** Lookups are scoped by user *)

Lemma fetchConnection_fetched uid cid w :
  fetchConnection uid cid w = (Returned (fetched uid cid (table w)), w).
Proof.
  unfold fetchConnection, fetched, findFirst.
  destruct cid as [i|]; [destruct (JS.truthy i)|]; reflexivity.
Qed.

(** The row an S3 route works on belongs to the requesting user. *)
Lemma fetched_sound uid cid tbl c :
  fetched uid cid tbl = Some c -> In c tbl /\ userId c = uid.
Proof.
  unfold fetched. intros H.
  destruct cid as [i|]; [destruct (JS.truthy i)|];
    apply select_sound in H; destruct H as [Hin Hm];
    [apply matches_by_id_and_user in Hm|apply matches_by_user in Hm..]; tauto.
Qed.

Lemma foreign_not_selected uid cid tbl :
  (forall c, In c tbl -> id c = cid -> userId c <> uid) ->
  select (by_id_and_user cid uid) Unordered tbl = None.
Proof.
  intros H. destruct (select _ _ _) as [c|] eqn:E; [|reflexivity].
  apply select_sound in E. destruct E as [Hin Hm].
  apply matches_by_id_and_user in Hm. destruct Hm as [Hi Hu].
  exfalso; exact (H c Hin Hi Hu).
Qed.

(** What reconciliation can do to the table. *)
Lemma reconcile_table e uid r n c w out w' :
  Verify.reconcile e uid r n c w = (out, w') ->
  table w' = table w \/
  table w' = remove (id c) (table w) \/
  exists c', table w' = replace (id c) c' (table w).
Proof.
  assert (forall out w', Verify.promote e r n c w = (out, w') ->
            table w' = table w \/
            table w' = remove (id c) (table w) \/
            exists c', table w' = replace (id c) c' (table w)) as Hpromote.
  { unfold Verify.promote, update. intros o v H.
    destruct (find _ (table w)) as [c0|]; [|inversion H; auto].
    destruct (clashes _ _ _); inversion H; subst; simpl; eauto. }
  unfold Verify.reconcile, bind, findFirst.
  destruct (select _ _ (table w)) as [ex|]; [|apply Hpromote].
  destruct (negb _); [|apply Hpromote].
  destruct (roleArn c); [intros H; inversion H; auto|].
  unfold delete.
  destruct (find _ (table w)); intros H; inversion H; subst; simpl; auto.
Qed.

(** Verify never removes or rewrites a row of another user. *)
Lemma verify_spares_others e session uid body w d :
  store_ok w -> signed_in session = Some uid ->
  In d (table w) -> userId d <> uid ->
  In d (table (snd (Verify.POST e session body w))).
Proof.
  intros Hok Es Hd Hne. unfold Verify.POST, route. rewrite Es.
  destruct (Verify.roleArn body) as [r|]; [|exact Hd].
  destruct (JS.truthy r); simpl; [|exact Hd].
  destruct (Verify.malformed r); simpl; [exact Hd|].
  unfold bind.
  destruct (Verify.resolveConnection e uid (Verify.connectionId body) w)
    as [[c|m] w1] eqn:ER.
  - pose proof (steady_resolveConnection _ _ _ _ _ _ Hok ER) as Hev.
    pose proof (ev_ok Hev Hok) as Hok1.
    destruct (resolveConnection_sound _ _ _ _ _ _ ER) as (Hc & Hu & _).
    assert (In d (table w1)) as Hd1.
    { revert ER. rewrite resolveConnection_stored.
      destruct (stored uid (Verify.connectionId body) (table w)).
      - intros H; inversion H; subst; exact Hd.
      - intros H; apply create_returned in H. destruct H as [_ ->]. simpl.
        apply in_or_app; left; exact Hd. }
    assert (id d <> id c) as Hid.
    { intros E. apply Hne. rewrite <- Hu.
      f_equal. apply (pk_injective (table w1)); auto using ok_pk. }
    destruct (probe_spec e r c w1) as (p & tail & EP & _ & _). rewrite EP.
    destruct p as [response|cr]; [exact Hd1|].
    destruct (Verify.reconcile e uid r (Verify.name body) c _)
      as [out w3] eqn:ERc.
    apply reconcile_table in ERc. simpl in ERc.
    assert (In d (table w3)) as Hd3.
    { destruct ERc as [->|[->|(c' & ->)]].
      - exact Hd1.
      - apply remove_In; auto.
      - apply In_replace; auto. }
    destruct out; exact Hd3.
  - revert ER. rewrite resolveConnection_stored.
    destruct (stored uid (Verify.connectionId body) (table w));
      [discriminate|].
    intros H; apply create_threw in H; subst w1. exact Hd.
Qed.

(** C9.  A connectionId that names a row of another user is as good as
    none.  The three S3 routes answer 404 and do nothing; verify does what
    it does for the same request without a connectionId, and in any case
    leaves the rows of other users where they are. *)
Theorem lookups_scoped_by_user e session uid cid w :
  store_ok w ->
  signed_in session = Some uid -> JS.truthy cid = true ->
  (forall c, In c (table w) -> id c = cid -> userId c <> uid) ->
  Buckets.GET e session (Some cid) w = (not_found, w) /\
  (forall query,
     Objects.connectionId query = Some cid ->
     JS.truthy_opt (Objects.bucket query) = true ->
     Objects.GET e session query w = (not_found, w)) /\
  (forall request,
     PresignedUrl.connectionId request = Some cid ->
     JS.truthy_opt (PresignedUrl.bucket request) = true ->
     JS.truthy_opt (PresignedUrl.key request) = true ->
     PresignedUrl.POST e session request w = (not_found, w)) /\
  (forall request,
     Verify.connectionId request = Some cid ->
     Verify.POST e session request w
       = Verify.POST e session (without_connectionId request) w /\
     forall d, In d (table w) -> userId d <> uid ->
       In d (table (snd (Verify.POST e session request w)))).
Proof.
  intros Hok Es Ht Hforeign.
  pose proof (foreign_not_selected uid cid (table w) Hforeign) as Hsel.
  assert (fetched uid (Some cid) (table w) = None) as Hf
    by (unfold fetched; rewrite Ht; exact Hsel).
  split; [|split; [|split]].
  - unfold Buckets.GET, route, bind. rewrite Es, fetchConnection_fetched, Hf.
    reflexivity.
  - intros query Hc Hb. unfold Objects.GET, route, bind. rewrite Es.
    destruct (Objects.bucket query) as [b|]; [|discriminate].
    simpl in Hb. rewrite Hb. simpl.
    rewrite Hc, fetchConnection_fetched, Hf. reflexivity.
  - intros request Hc Hb Hk. unfold PresignedUrl.POST, route, bind.
    rewrite Es, Hb, Hk. simpl.
    rewrite Hc, fetchConnection_fetched, Hf. reflexivity.
  - intros request Hc. split.
    + unfold Verify.POST. rewrite Es. simpl.
      destruct (Verify.roleArn request) as [r|]; [|reflexivity].
      destruct (JS.truthy r); simpl; [|reflexivity].
      destruct (Verify.malformed r); simpl; [reflexivity|].
      unfold route, bind.
      rewrite !resolveConnection_stored. rewrite Hc. unfold stored.
      rewrite Ht, Hsel. reflexivity.
    + intros d Hd Hne. apply (verify_spares_others e session uid); auto.
Qed.

(* ================================================================== *)
(** ** Empty listings *)

(** C10.  When S3 answers a bucket listing without bucket entries (the
    member absent, or an empty array), [listBuckets] returns the empty list;
    when it answers an object listing without contents and without a
    truncation flag, [listObjects] returns no objects and "not truncated",
    passing the continuation token through.  Neither throws. *)
Theorem empty_listings_normalised e credentials w :
  (forall response,
     s3_ListBuckets e (Aws.createS3Client e credentials) = inr response ->
     Buckets response = None \/ Buckets response = Some [] ->
     fst (Aws.listBuckets e credentials w) = Returned []) /\
  (forall bucket prefix maxKeys response,
     s3_ListObjectsV2 e (Aws.createS3Client e credentials)
       {| in_Bucket := bucket; in_Prefix := prefix; in_MaxKeys := maxKeys |}
       = inr response ->
     Contents response = None \/ Contents response = Some [] ->
     IsTruncated response = None ->
     fst (Aws.listObjects e bucket prefix maxKeys (Some credentials) w)
       = Returned {| Aws.objects := [];
                     Aws.isTruncated := false;
                     Aws.nextContinuationToken := NextContinuationToken response |}).
Proof.
  split.
  - intros response Hs Hb. unfold Aws.listBuckets, bind, log. rewrite Hs.
    destruct Hb as [-> | ->]; reflexivity.
  - intros bucket prefix maxKeys response Hs Hc Ht.
    unfold Aws.listObjects, bind, log. rewrite Hs, Ht.
    destruct Hc as [-> | ->]; reflexivity.
Qed.

(* ================================================================== *)
(** ** Resource access on a pending connection *)

(** The bucket route refuses a pending connection before it calls AWS. *)
Lemma buckets_pending_409 e session uid cid w c :
  signed_in session = Some uid ->
  fetched uid cid (table w) = Some c -> roleArn c = None ->
  Buckets.GET e session cid w = (not_verified, w).
Proof.
  intros Es Hf Hr. unfold Buckets.GET, route, bind.
  rewrite Es, fetchConnection_fetched, Hf, Hr. reflexivity.
Qed.

(** So does the presigned-URL route. *)
Lemma presign_pending_409 e session uid request w c :
  signed_in session = Some uid ->
  JS.truthy_opt (PresignedUrl.bucket request) = true ->
  JS.truthy_opt (PresignedUrl.key request) = true ->
  fetched uid (PresignedUrl.connectionId request) (table w) = Some c ->
  roleArn c = None ->
  PresignedUrl.POST e session request w = (not_verified, w).
Proof.
  intros Es Hb Hk Hf Hr. unfold PresignedUrl.POST, route, bind.
  rewrite Es, Hb, Hk. simpl. rewrite fetchConnection_fetched, Hf, Hr. reflexivity.
Qed.

(** The object route has no such test: on a pending connection it goes on
    to assume the role null, and whatever comes of that, its answer is not
    a 409. *)
Lemma objects_pending_assumes_null e session uid query w c :
  signed_in session = Some uid ->
  JS.truthy_opt (Objects.bucket query) = true ->
  fetched uid (Objects.connectionId query) (table w) = Some c ->
  roleArn c = None ->
  status (fst (Objects.GET e session query w)) <> 409 /\
  exists tail,
    calls (snd (Objects.GET e session query w))
    = (calls w ++ CallAssumeRole None (externalId c) :: tail)%list.
Proof.
  intros Es Hb Hf Hr. unfold Objects.GET, route, bind. rewrite Es.
  destruct (Objects.bucket query) as [b|]; [|discriminate].
  simpl in Hb. rewrite Hb. simpl. rewrite fetchConnection_fetched, Hf, Hr.
  destruct (assumeRole_world e None (externalId c) w) as [out ->].
  destruct out as [cr|m]; simpl.
  - unfold Aws.listObjects, bind, log. simpl.
    destruct (s3_ListObjectsV2 e _ _) as [m|response]; simpl.
    + split; [discriminate|]. rewrite <- app_assoc. eexists; reflexivity.
    + split; [discriminate|]. rewrite <- app_assoc. eexists; reflexivity.
  - split; [discriminate|]. eexists; reflexivity.
Qed.

(** C5, on the code.  Alice has bootstrapped and not verified.  The bucket
    route and the presigned-URL route answer 409 without calling AWS; the
    object route calls [assumeRole] with a null role ARN and answers 500. *)
Theorem objects_route_misses_pending_check :
  let pendingOnly := Demo.bootstrapped in
  let query := {| Objects.bucket := Some "photos";
                  Objects.prefix := None;
                  Objects.maxKeys := None;
                  Objects.connectionId := None |} in
  let upload := {| PresignedUrl.bucket := Some "photos";
                   PresignedUrl.key := Some "cat.png";
                   PresignedUrl.contentType := None;
                   PresignedUrl.connectionId := None;
                   PresignedUrl.expiresIn := None |} in
  Buckets.GET Demo.env Demo.alice None pendingOnly = (not_verified, pendingOnly) /\
  PresignedUrl.POST Demo.env Demo.alice upload pendingOnly
    = (not_verified, pendingOnly) /\
  status (fst (Objects.GET Demo.env Demo.alice query pendingOnly)) = 500 /\
  calls (snd (Objects.GET Demo.env Demo.alice query pendingOnly))
    = [CallAssumeRole None "ext-alice"].
Proof. repeat split. Qed.

(* ================================================================== *)
(** ** A role ARN that is not of the documented shape and yet accepted *)

Lemma not_a_role_arn : ~ role_arn_shape "arn:aws:iam::role/x".
Proof.
  intros (account & name & H). simpl in H.
  injection H as H.
  do 6 (destruct account as [|? account]; simpl in H;
        [discriminate|injection H as _ H]).
  destruct account; discriminate.
Qed.


(* ================================================================== *)
(** ** The scenario, checked *)

Lemma counted_injective m n : Demo.counted m = Demo.counted n -> m = n.
Proof.
  unfold Demo.counted. intros H. injection H as H.
  apply (f_equal NilEmpty.uint_of_string) in H.
  rewrite !NilEmpty.usu in H. injection H as H.
  apply (f_equal Nat.of_uint) in H.
  rewrite !Unsigned.of_to in H. exact H.
Qed.

Lemma empty_ok : store_ok Demo.empty.
Proof.
  constructor; simpl.
  - exact counted_injective.
  - intros c [].
  - constructor.
  - intros c d [].
  - intros c d r [].
Qed.

Lemma bootstrapped_ok : store_ok Demo.bootstrapped.
Proof.
  exact (ev_ok (serve_evolves (Bootstrap_GET Demo.env Demo.alice) Demo.empty
                  empty_ok) empty_ok).
Qed.

Lemma connected_ok : store_ok Demo.connected.
Proof.
  exact (ev_ok (serve_evolves
                  (Verify_POST Demo.env Demo.alice
                     (Demo.verifyBody Demo.demoRole (Some "c0")))
                  Demo.bootstrapped bootstrapped_ok) bootstrapped_ok).
Qed.

(** A role that STS refuses: 403, the pending row stays, and the retry
    with the right role uses the same External ID. *)
Lemma rejected_verify_example :
  status (fst (Verify.POST Demo.env Demo.alice
                 (Demo.verifyBody Demo.strangerRole (Some "c0"))
                 Demo.bootstrapped)) = 403 /\
  table (snd (Verify.POST Demo.env Demo.alice
                (Demo.verifyBody Demo.strangerRole (Some "c0"))
                Demo.bootstrapped)) = [Demo.pendingRow] /\
  exists tail,
    calls (snd (Verify.POST Demo.later Demo.alice
                  (Demo.verifyBody Demo.demoRole (Some "c0"))
                  (snd (Verify.POST Demo.env Demo.alice
                          (Demo.verifyBody Demo.strangerRole (Some "c0"))
                          Demo.bootstrapped))))
    = ([CallAssumeRole (Some Demo.strangerRole) "ext-alice"]
       ++ CallAssumeRole (Some Demo.demoRole) "ext-alice" :: tail)%list.
Proof.
  destruct (rejected_verify_keeps_row Demo.env Demo.alice "alice"
              (Demo.verifyBody Demo.strangerRole (Some "c0"))
              Demo.strangerRole Demo.pendingRow Demo.bootstrapped
              Demo.bootstrapped)
    as (H403 & Htable & _ & Hretry);
    [reflexivity|reflexivity|reflexivity|reflexivity|reflexivity
    |vm_compute; exact I|].
  split; [exact H403|]. split; [exact Htable|].
  destruct (Hretry Demo.later (Demo.verifyBody Demo.demoRole (Some "c0"))
              Demo.demoRole eq_refl eq_refl eq_refl eq_refl) as [_ Hcalls].
  exact Hcalls.
Defined.

(** Two visits in a row: the second answers what the first answered. *)
Lemma bootstrap_twice_example :
  status (fst (Bootstrap.GET Demo.env Demo.alice Demo.empty)) = 200 /\
  Bootstrap.GET Demo.later Demo.alice
    (snd (Bootstrap.GET Demo.env Demo.alice Demo.empty))
  = Bootstrap.GET Demo.env Demo.alice Demo.empty.
Proof.
  split; [reflexivity|].
  destruct (proj2 (bootstrap_idempotent Demo.env Demo.later Demo.alice Demo.empty)
              eq_refl) as (uid & c & _ & _ & _ & _ & _ & H).
  exact H.
Defined.

(** The row "c0", verified, over a bootstrap, a verify that names it with
    another role and a bucket listing: same External ID and owner, and
    still verified. *)
Lemma promotion_example :
  store_ok Demo.connected /\
  In (promoted Demo.env Demo.demoRole None Demo.pendingRow)
     (table Demo.connected) /\
  In (promoted Demo.later Demo.otherRole None Demo.pendingRow)
     (table (run Scenes.repointing Demo.connected)) /\
  externalId (promoted Demo.later Demo.otherRole None Demo.pendingRow)
    = externalId (promoted Demo.env Demo.demoRole None Demo.pendingRow) /\
  userId (promoted Demo.later Demo.otherRole None Demo.pendingRow)
    = userId (promoted Demo.env Demo.demoRole None Demo.pendingRow) /\
  (roleArn (promoted Demo.env Demo.demoRole None Demo.pendingRow) <> None ->
   roleArn (promoted Demo.later Demo.otherRole None Demo.pendingRow) <> None) /\
  (phase (promoted Demo.env Demo.demoRole None Demo.pendingRow) = Verified ->
   phase (promoted Demo.later Demo.otherRole None Demo.pendingRow) = Verified).
Proof.
  split; [exact connected_ok|].
  split; [left; reflexivity|].
  split; [left; reflexivity|].
  exact (roleArn_never_reverts Scenes.repointing Demo.connected
           (promoted Demo.env Demo.demoRole None Demo.pendingRow)
           (promoted Demo.later Demo.otherRole None Demo.pendingRow)
           connected_ok (or_introl eq_refl) (or_introl eq_refl) eq_refl).
Defined.

(** Alice verifies the demo role on her pending row: promoted in place. *)
Lemma reconciliation_example :
  fst (Verify.POST Demo.env Demo.alice
         (Demo.verifyBody Demo.demoRole (Some "c0")) Demo.bootstrapped)
    = Verify.verified (promoted Demo.env Demo.demoRole None Demo.pendingRow) /\
  table (snd (Verify.POST Demo.env Demo.alice
                (Demo.verifyBody Demo.demoRole (Some "c0")) Demo.bootstrapped))
    = [promoted Demo.env Demo.demoRole None Demo.pendingRow] /\
  In (promoted Demo.env Demo.demoRole None Demo.pendingRow)
     (table (snd (Verify.POST Demo.env Demo.alice
                    (Demo.verifyBody Demo.demoRole (Some "c0"))
                    Demo.bootstrapped))).
Proof.
  exact (verify_reconciles Demo.env Demo.alice "alice"
           (Demo.verifyBody Demo.demoRole (Some "c0")) Demo.demoRole
           Demo.pendingRow Demo.bootstrapped Demo.bootstrapped
           bootstrapped_ok eq_refl eq_refl eq_refl eq_refl eq_refl
           (fun H : probe_fails Demo.env Demo.demoRole Demo.pendingRow
                      Demo.bootstrapped => H)).
Defined.


(** Other credentials, same table and same answer. *)
Lemma credentials_example :
  fst (Verify.POST Demo.elsewhere Demo.alice
         (Demo.verifyBody Demo.demoRole (Some "c0")) Demo.bootstrapped)
  = fst (Verify.POST Demo.env Demo.alice
           (Demo.verifyBody Demo.demoRole (Some "c0")) Demo.bootstrapped) /\
  table (snd (Verify.POST Demo.elsewhere Demo.alice
                (Demo.verifyBody Demo.demoRole (Some "c0")) Demo.bootstrapped))
  = table Demo.connected.
Proof.
  destruct (credentials_never_persisted Demo.env Demo.elsewhere Demo.alice
              (Demo.verifyBody Demo.demoRole (Some "c0")) Demo.bootstrapped
              eq_refl eq_refl eq_refl eq_refl) as (H1 & H2 & _).
  split; [exact H1|exact H2].
Defined.

(** Bob asks for alice's connection "c0". *)
Lemma foreign_connection_example :
  Buckets.GET Demo.env Demo.bob (Some "c0") Demo.connected
  = (not_found, Demo.connected).
Proof.
  refine (proj1 (lookups_scoped_by_user Demo.env Demo.bob "bob" "c0"
                   Demo.connected connected_ok eq_refl eq_refl _)).
  intros c [<-|[]] _. discriminate.
Defined.

(** An account without buckets and a bucket without objects. *)
Lemma empty_listings_example :
  fst (Aws.listBuckets Demo.env
         {| accessKeyId := "ASIAEXAMPLE"; secretAccessKey := "secret";
            sessionToken := "token"; expiration := Some 3600000;
            region := None |} Demo.empty) = Returned [] /\
  fst (Aws.listObjects Demo.env "photos" None None
         (Some {| accessKeyId := "ASIAEXAMPLE"; secretAccessKey := "secret";
                  sessionToken := "token"; expiration := Some 3600000;
                  region := None |}) Demo.empty)
  = Returned {| Aws.objects := []; Aws.isTruncated := false;
                Aws.nextContinuationToken := None |}.
Proof.
  destruct (empty_listings_normalised Demo.env
              {| accessKeyId := "ASIAEXAMPLE"; secretAccessKey := "secret";
                 sessionToken := "token"; expiration := Some 3600000;
                 region := None |} Demo.empty) as [Hb Ho].
  split.
  - exact (Hb {| Buckets := None |} eq_refl (or_introl eq_refl)).
  - exact (Ho "photos" None None
             {| Contents := None; IsTruncated := None;
                NextContinuationToken := None |}
             eq_refl (or_introl eq_refl) eq_refl).
Defined.

(* ================================================================== *)
(** ** Further runs of the scenario *)

(** Alice verifies the role she is already connected to on her second
    pending row: the row "c1" is deleted and the answer is the connection
    "c0" as it was. *)
Example existing_connection_reused :
  fst (Verify.POST Demo.elsewhere Demo.alice
         (Demo.verifyBody Demo.demoRole (Some "c1")) Demo.revisited)
    = Verify.verified (promoted Demo.env Demo.demoRole None Demo.pendingRow) /\
  table (snd (Verify.POST Demo.elsewhere Demo.alice
                (Demo.verifyBody Demo.demoRole (Some "c1")) Demo.revisited))
    = table Demo.connected.
Proof. split; reflexivity. Qed.

(** C4, as stated, fails.  The row "c0" of the connected world is
    verified: its roleArn is the demo role.  Alice's verify of another
    role that names "c0" passes the probe and leaves the row, same id and
    same External ID, with the other role: its roleArn has gone from one
    non-null value to another, not from null to a non-null value. *)
Lemma verified_row_repointed :
  In (promoted Demo.env Demo.demoRole None Demo.pendingRow)
     (table Demo.connected) /\
  In (promoted Demo.later Demo.otherRole None Demo.pendingRow)
     (table (run [Verify_POST Demo.later Demo.alice
                    (Demo.verifyBody Demo.otherRole (Some "c0"))]
               Demo.connected)) /\
  id (promoted Demo.later Demo.otherRole None Demo.pendingRow)
    = id (promoted Demo.env Demo.demoRole None Demo.pendingRow) /\
  roleArn (promoted Demo.env Demo.demoRole None Demo.pendingRow)
    = Some Demo.demoRole /\
  roleArn (promoted Demo.later Demo.otherRole None Demo.pendingRow)
    = Some Demo.otherRole /\
  Demo.otherRole <> Demo.demoRole /\
  ~ (forall rs w c c',
       store_ok w -> In c (table w) -> In c' (table (run rs w)) ->
       id c' = id c ->
       roleArn c' = roleArn c \/ (roleArn c = None /\ roleArn c' <> None)).
Proof.
  split; [left; reflexivity|].
  split; [left; reflexivity|].
  split; [reflexivity|].
  split; [reflexivity|].
  split; [reflexivity|].
  split; [discriminate|].
  intros H.
  destruct (H [Verify_POST Demo.later Demo.alice
                 (Demo.verifyBody Demo.otherRole (Some "c0"))]
              Demo.connected
              (promoted Demo.env Demo.demoRole None Demo.pendingRow)
              (promoted Demo.later Demo.otherRole None Demo.pendingRow)
              connected_ok (or_introl eq_refl) (or_introl eq_refl) eq_refl)
    as [E|[E _]]; discriminate.
Qed.

(** Verify on a connection that is already verified, with another role
    that passes the probe: the row stays verified and takes the new role;
    its External ID is the one it was created with. *)
Example verified_row_takes_another_role :
  table (snd (Verify.POST Demo.later Demo.alice
                (Demo.verifyBody Demo.otherRole (Some "c0")) Demo.connected))
  = [promoted Demo.later Demo.otherRole None Demo.pendingRow].
Proof. reflexivity. Qed.

(** A pending row does not survive as the latest one by accident: alice's
    rejected verify on the revisited world neither creates nor changes a
    row. *)
Example rejected_verify_creates_nothing :
  table (snd (Verify.POST Demo.later Demo.alice
                (Demo.verifyBody Demo.otherRole None) Demo.revisited))
  = table Demo.revisited.
Proof. reflexivity. Qed.

(* ================================================================== *)
(** * Further properties of the routes and of lib/aws.ts *)

(** ** What the AWS helpers do to the world, and what they answer *)

Lemma with_calls_same w : with_calls (calls w) w = w.
Proof. destruct w; reflexivity. Qed.

Lemma listObjects_world e b p m c w :
  exists out,
    Aws.listObjects e b p m c w
    = (out, with_calls (calls w ++ [CallListObjects b p m c]) w).
Proof.
  unfold Aws.listObjects, bind, log, ret, throw.
  destruct c as [c|]; [|eauto].
  destruct (s3_ListObjectsV2 e _ _); eauto.
Qed.

Lemma presign_world e b k t c x w :
  exists out,
    Aws.generatePresignedUploadUrl e b k t c x w
    = (out, with_calls (calls w ++ [CallPresign b k t c x]) w).
Proof.
  unfold Aws.generatePresignedUploadUrl, bind, log, ret, throw.
  destruct c as [c|]; [|eauto].
  destruct (getSignedUrl e _ _ _); eauto.
Qed.

(** X1.  [assumeRole] with missing or empty base credentials throws the
    configuration message whatever STS would say.  With base credentials it
    sends one command to STS, for the given role and External ID and a
    session of 3600 seconds named after the clock, through a client in
    AWS_REGION or else us-east-1; it returns the credentials STS issued,
    and rethrows a refusal [m] as "Failed to assume role: m" -- also its own
    complaint about an answer without credentials, which therefore carries
    the prefix twice. *)
Theorem assumeRole_outcome e roleArn externalId w :
  (~ configured e ->
   fst (Aws.assumeRole e roleArn externalId w)
   = Threw "AWS_ACCESS_KEY_ID and AWS_SECRET_ACCESS_KEY must be set in environment variables") /\
  (configured e ->
   fst (Aws.assumeRole e roleArn externalId w)
   = match sts_AssumeRole e (stsClientOf e) (stsCommandOf e roleArn externalId) with
     | inl m => Threw ("Failed to assume role: " ++ m)
     | inr response =>
         match Credentials_ response with
         | Some c =>
             Returned {| accessKeyId := AccessKeyId c;
                         secretAccessKey := SecretAccessKey c;
                         sessionToken := SessionToken c;
                         expiration := Some (Expiration c);
                         region := None |}
         | None =>
             Threw "Failed to assume role: Failed to assume role: No credentials returned"
         end
     end).
Proof.
  unfold configured, stsClientOf, stsCommandOf.
  unfold Aws.assumeRole, Aws.getBaseCredentials, bind, log, attempt, ret, throw.
  destruct (AWS_ACCESS_KEY_ID e) as [[|a0 a]|];
    destruct (AWS_SECRET_ACCESS_KEY e) as [[|s0 s]|]; simpl;
    (split;
     [intros H; try reflexivity; exfalso; apply H; split; reflexivity
     |intros [H1 H2]; try discriminate]).
  destruct (sts_AssumeRole e _ _) as [m|response]; simpl; [reflexivity|].
  destruct (Credentials_ response); reflexivity.
Qed.

(* ================================================================== *)
(** ** Requests without a session *)

(** X2.  A request that comes without a signed-in user (no session, or a
    session whose user id is empty) is answered 401 by every route, and the
    world stays as it is: no row is read or written, no AWS helper is
    called. *)
Theorem unauthenticated_refused r w :
  signed_in (session_of r) = None -> serve r w = (unauthorized, w).
Proof.
  destruct r; simpl; intros H;
    [unfold Bootstrap.GET | unfold Verify.POST | unfold Buckets.GET
    | unfold Objects.GET | unfold PresignedUrl.POST ];
    unfold route; rewrite H; reflexivity.
Qed.

(* ================================================================== *)
(** ** The S3 routes, path by path *)

Lemma assumeRole_split e r x w :
  Aws.assumeRole e r x w
  = (fst (Aws.assumeRole e r x w),
     with_calls (calls w ++ [CallAssumeRole r x]) w).
Proof. destruct (assumeRole_world e r x w) as [out ->]; reflexivity. Qed.

Lemma listBuckets_split e c w :
  Aws.listBuckets e c w
  = (fst (Aws.listBuckets e c w),
     with_calls (calls w ++ [CallListBuckets c]) w).
Proof. destruct (listBuckets_world e c w) as [out ->]; reflexivity. Qed.

Lemma listObjects_split e b p m c w :
  Aws.listObjects e b p m c w
  = (fst (Aws.listObjects e b p m c w),
     with_calls (calls w ++ [CallListObjects b p m c]) w).
Proof. destruct (listObjects_world e b p m c w) as [out ->]; reflexivity. Qed.

Lemma presign_split e b k t c x w :
  Aws.generatePresignedUploadUrl e b k t c x w
  = (fst (Aws.generatePresignedUploadUrl e b k t c x w),
     with_calls (calls w ++ [CallPresign b k t c x]) w).
Proof. destruct (presign_world e b k t c x w) as [out ->]; reflexivity. Qed.

(** What the helpers answer does not depend on the world. *)
Lemma assumeRole_answer e r x w w' :
  fst (Aws.assumeRole e r x w) = fst (Aws.assumeRole e r x w').
Proof.
  unfold Aws.assumeRole, Aws.getBaseCredentials, bind, log, attempt, ret, throw.
  destruct (AWS_ACCESS_KEY_ID e); [|reflexivity].
  destruct (AWS_SECRET_ACCESS_KEY e); [|reflexivity].
  destruct (_ || _); [reflexivity|].
  destruct (sts_AssumeRole e _ _) as [m|resp]; [reflexivity|].
  destruct (Credentials_ resp); reflexivity.
Qed.

Lemma listBuckets_answer e c w w' :
  fst (Aws.listBuckets e c w) = fst (Aws.listBuckets e c w').
Proof.
  unfold Aws.listBuckets, bind, log, ret, throw.
  destruct (s3_ListBuckets e _); reflexivity.
Qed.

Lemma listObjects_answer e b p m c w w' :
  fst (Aws.listObjects e b p m c w) = fst (Aws.listObjects e b p m c w').
Proof.
  unfold Aws.listObjects, bind, log, ret, throw.
  destruct c; [|reflexivity].
  destruct (s3_ListObjectsV2 e _ _); reflexivity.
Qed.

Lemma presign_answer e b k t c x w w' :
  fst (Aws.generatePresignedUploadUrl e b k t c x w)
  = fst (Aws.generatePresignedUploadUrl e b k t c x w').
Proof.
  unfold Aws.generatePresignedUploadUrl, bind, log, ret, throw.
  destruct c; [|reflexivity].
  destruct (getSignedUrl e _ _ _); reflexivity.
Qed.

(** The bucket route, read as one expression over the table and the
    answers of the helpers. *)
Lemma buckets_GET_paths e session cid w :
  Buckets.GET e session cid w =
  match signed_in session with
  | None => (unauthorized, w)
  | Some uid =>
      match fetched uid cid (table w) with
      | None => (not_found, w)
      | Some c =>
          match roleArn c with
          | None => (not_verified, w)
          | Some r =>
              if JS.truthy r then
                let assumed := CallAssumeRole (Some r) (externalId c) in
                match fst (Aws.assumeRole e (Some r) (externalId c) w) with
                | Threw m =>
                    (failed "Failed to list buckets" m,
                     with_calls (calls w ++ [assumed]) w)
                | Returned credentials =>
                    let w' := with_calls
                                (calls w ++ [assumed; CallListBuckets credentials])
                                w in
                    match fst (Aws.listBuckets e credentials w) with
                    | Threw m => (failed "Failed to list buckets" m, w')
                    | Returned buckets =>
                        (json (JObj [("success", JBool true);
                                     ("buckets",
                                      JArr (map Buckets.bucket_json buckets));
                                     ("connection",
                                      JObj [("id", JStr (id c));
                                            ("name", JStr (name c));
                                            ("roleArn", JStr r)])]) 200,
                         w')
                    end
                end
              else (not_verified, w)
          end
      end
  end.
Proof.
  unfold Buckets.GET, route, bind.
  destruct (signed_in session) as [uid|]; [|reflexivity].
  rewrite fetchConnection_fetched.
  destruct (fetched uid cid (table w)) as [c|]; [|reflexivity].
  destruct (roleArn c) as [r|]; [|reflexivity].
  destruct (JS.truthy r); [|reflexivity]. simpl.
  rewrite assumeRole_split.
  destruct (fst (Aws.assumeRole e (Some r) (externalId c) w)) as [cr|m];
    [|reflexivity].
  rewrite listBuckets_split.
  rewrite (listBuckets_answer e cr _ w).
  simpl. rewrite <- app_assoc. simpl.
  destruct (fst (Aws.listBuckets e cr w)); reflexivity.
Qed.

(** The object route, likewise. *)
Lemma objects_GET_paths e session query w :
  Objects.GET e session query w =
  match signed_in session with
  | None => (unauthorized, w)
  | Some uid =>
      if JS.truthy_opt (Objects.bucket query) then
        let bucket := JS.or_else (Objects.bucket query) "" in
        match fetched uid (Objects.connectionId query) (table w) with
        | None => (not_found, w)
        | Some c =>
            let assumed := CallAssumeRole (roleArn c) (externalId c) in
            match fst (Aws.assumeRole e (roleArn c) (externalId c) w) with
            | Threw m =>
                (failed "Failed to list objects" m,
                 with_calls (calls w ++ [assumed]) w)
            | Returned credentials =>
                let listed := CallListObjects bucket (prefix_given query)
                                (maxKeys_given query) (Some credentials) in
                let w' := with_calls (calls w ++ [assumed; listed]) w in
                match fst (Aws.listObjects e bucket (prefix_given query)
                             (maxKeys_given query) (Some credentials) w) with
                | Threw m => (failed "Failed to list objects" m, w')
                | Returned result =>
                    (objects_listed bucket (prefix_given query) result c, w')
                end
            end
        end
      else (Objects.bucket_required, w)
  end.
Proof.
  unfold Objects.GET, route, bind, prefix_given, maxKeys_given.
  destruct (signed_in session) as [uid|]; [|reflexivity].
  destruct (Objects.bucket query) as [b|]; [|reflexivity].
  simpl. destruct (JS.truthy b) eqn:Eb; [|reflexivity]. simpl.
  rewrite fetchConnection_fetched.
  destruct (fetched uid (Objects.connectionId query) (table w)) as [c|];
    [|reflexivity].
  rewrite assumeRole_split.
  destruct (fst (Aws.assumeRole e (roleArn c) (externalId c) w)) as [cr|m];
    [|reflexivity].
  rewrite listObjects_split.
  rewrite (listObjects_answer e _ _ _ _ _ w).
  simpl. rewrite <- app_assoc. simpl.
  destruct (fst (Aws.listObjects e b _ _ (Some cr) w)); reflexivity.
Qed.

(** And the presigned-URL route. *)
Lemma presign_POST_paths e session request w :
  PresignedUrl.POST e session request w =
  match signed_in session with
  | None => (unauthorized, w)
  | Some uid =>
      if JS.truthy_opt (PresignedUrl.bucket request)
         && JS.truthy_opt (PresignedUrl.key request) then
        let bucket := JS.or_else (PresignedUrl.bucket request) "" in
        let key := JS.or_else (PresignedUrl.key request) "" in
        let expiresIn := PresignedUrl.lifetime (PresignedUrl.expiresIn request) in
        match fetched uid (PresignedUrl.connectionId request) (table w) with
        | None => (not_found, w)
        | Some c =>
            match roleArn c with
            | None => (not_verified, w)
            | Some r =>
                if JS.truthy r then
                  let assumed := CallAssumeRole (Some r) (externalId c) in
                  match fst (Aws.assumeRole e (Some r) (externalId c) w) with
                  | Threw m =>
                      (failed "Failed to generate presigned URL" m,
                       with_calls (calls w ++ [assumed]) w)
                  | Returned credentials =>
                      let signed := CallPresign bucket key
                                      (PresignedUrl.contentType request)
                                      (Some credentials) expiresIn in
                      let w' := with_calls (calls w ++ [assumed; signed]) w in
                      match fst (Aws.generatePresignedUploadUrl e bucket key
                                   (PresignedUrl.contentType request)
                                   (Some credentials) expiresIn w) with
                      | Threw m =>
                          (failed "Failed to generate presigned URL" m, w')
                      | Returned url => (presigned url bucket key expiresIn, w')
                      end
                  end
                else (not_verified, w)
            end
        end
      else (PresignedUrl.missing_parameters, w)
  end.
Proof.
  unfold PresignedUrl.POST, route, bind.
  destruct (signed_in session) as [uid|]; [|reflexivity].
  destruct (JS.truthy_opt (PresignedUrl.bucket request));
    destruct (JS.truthy_opt (PresignedUrl.key request)); simpl;
    try reflexivity.
  rewrite fetchConnection_fetched.
  destruct (fetched uid (PresignedUrl.connectionId request) (table w)) as [c|];
    [|reflexivity].
  destruct (roleArn c) as [r|]; [|reflexivity].
  destruct (JS.truthy r); [|reflexivity]. simpl.
  rewrite assumeRole_split.
  destruct (fst (Aws.assumeRole e (Some r) (externalId c) w)) as [cr|m];
    [|reflexivity].
  rewrite presign_split.
  rewrite (presign_answer e _ _ _ _ _ _ w).
  simpl. rewrite <- app_assoc. simpl.
  destruct (fst (Aws.generatePresignedUploadUrl e _ _ _ (Some cr) _ w));
    reflexivity.
Qed.

Lemma assumeRole_returned e r x w cr :
  fst (Aws.assumeRole e r x w) = Returned cr ->
  configured e /\
  exists response sc,
    sts_AssumeRole e (stsClientOf e) (stsCommandOf e r x) = inr response /\
    Credentials_ response = Some sc /\ cr = issued_by sc.
Proof.
  unfold configured, stsClientOf, stsCommandOf, issued_by.
  unfold Aws.assumeRole, Aws.getBaseCredentials, bind, log, attempt, ret, throw.
  destruct (AWS_ACCESS_KEY_ID e) as [[|a0 a]|];
    destruct (AWS_SECRET_ACCESS_KEY e) as [[|s0 s]|]; simpl;
    try discriminate.
  destruct (sts_AssumeRole e _ _) as [m|response]; simpl; [discriminate|].
  destruct (Credentials_ response) as [sc|] eqn:E; simpl; [|discriminate].
  intros H; inversion H. split; [auto|]. exists response, sc. auto.
Qed.

(* ================================================================== *)
(** ** The S3 routes never write *)

Ltac split_paths :=
  repeat (cbv zeta;
          match goal with
         | |- context [match signed_in ?s with _ => _ end] =>
             destruct (signed_in s)
         | |- context [match fetched ?u ?c ?t with _ => _ end] =>
             destruct (fetched u c t)
         | |- context [match roleArn ?c with Some _ => _ | None => _ end] =>
             destruct (roleArn c)
         | |- context [if JS.truthy ?r then _ else _] => destruct (JS.truthy r)
         | |- context [if JS.truthy_opt ?r then _ else _] =>
             destruct (JS.truthy_opt r)
         | |- context [if ?a && ?b then _ else _] => destruct (a && b)
         | |- context [match fst ?x with Returned _ => _ | Threw _ => _ end] =>
             destruct (fst x)
         end).

(** X3.  The three S3 routes leave the connection table and the id
    generator as they found them, whatever the request and whatever AWS
    answers; all they add to the world is their calls to the helpers. *)
Theorem resource_routes_read_only e session w :
  (forall cid,
     exists made,
       snd (Buckets.GET e session cid w) = with_calls (calls w ++ made) w) /\
  (forall query,
     exists made,
       snd (Objects.GET e session query w) = with_calls (calls w ++ made) w) /\
  (forall request,
     exists made,
       snd (PresignedUrl.POST e session request w)
       = with_calls (calls w ++ made) w).
Proof.
  assert (exists made, w = with_calls (calls w ++ made) w) as Hsame
    by (exists []; rewrite app_nil_r, with_calls_same; reflexivity).
  split; [|split].
  - intros cid. rewrite buckets_GET_paths. split_paths; simpl; eauto.
  - intros query. rewrite objects_GET_paths. split_paths; simpl; eauto.
  - intros request. rewrite presign_POST_paths. split_paths; simpl; eauto.
Qed.

(* ================================================================== *)
(** ** What a 200 of an S3 route stands for *)

(** X4.  When the bucket route answers 200, it has, in this very request,
    assumed the role of a verified row that belongs to the signed-in user,
    with that row's stored External ID, and listed the buckets with the
    credentials STS issued for it; those two are its only calls, and the
    connection it reports is that row. *)
Theorem buckets_success e session cid w :
  status (fst (Buckets.GET e session cid w)) = 200 ->
  exists uid c r response sc buckets,
    signed_in session = Some uid /\
    In c (table w) /\ userId c = uid /\ roleArn c = Some r /\
    sts_AssumeRole e (stsClientOf e) (stsCommandOf e (Some r) (externalId c))
      = inr response /\
    Credentials_ response = Some sc /\
    fst (Aws.listBuckets e (issued_by sc) w) = Returned buckets /\
    calls (snd (Buckets.GET e session cid w))
      = (calls w ++ [CallAssumeRole (Some r) (externalId c);
                     CallListBuckets (issued_by sc)])%list /\
    body (fst (Buckets.GET e session cid w))
      = JObj [("success", JBool true);
              ("buckets", JArr (map Buckets.bucket_json buckets));
              ("connection",
               JObj [("id", JStr (id c));
                     ("name", JStr (name c));
                     ("roleArn", JStr r)])].
Proof.
  rewrite buckets_GET_paths.
  destruct (signed_in session) as [uid|] eqn:Es; [|discriminate].
  destruct (fetched uid cid (table w)) as [c|] eqn:Ef; [|discriminate].
  destruct (roleArn c) as [r|] eqn:Er; [|discriminate].
  destruct (JS.truthy r); [|discriminate]. cbv zeta.
  destruct (fst (Aws.assumeRole e (Some r) (externalId c) w)) as [cr|m] eqn:Ea;
    [|discriminate].
  destruct (assumeRole_returned e _ _ w cr Ea) as (_ & response & sc & Hs & Hc & ->).
  destruct (fst (Aws.listBuckets e (issued_by sc) w)) as [bs|m] eqn:El;
    [|discriminate].
  intros _. apply fetched_sound in Ef. destruct Ef as [Hin Hu].
  exists uid, c, r, response, sc, bs. simpl. auto 12.
Qed.

Lemma lifetime_truthy x : JS.truthy_num (PresignedUrl.lifetime x) = true.
Proof.
  unfold PresignedUrl.lifetime.
  destruct x as [n|]; [|reflexivity].
  destruct (JS.truthy_num n) eqn:E; [exact E|reflexivity].
Qed.

(** A number that is neither zero nor NaN is the lifetime asked for. *)
Lemma lifetime_of_truthy n :
  JS.truthy_num n = true -> PresignedUrl.lifetime (Some n) = n.
Proof. intros H. unfold PresignedUrl.lifetime. rewrite H. reflexivity. Qed.

(** Without expiresIn, or with zero or NaN, the lifetime is one hour. *)
Lemma lifetime_default x :
  x = None \/ (exists n, x = Some n /\ JS.truthy_num n = false) ->
  PresignedUrl.lifetime x = JS.of_Z 3600.
Proof.
  intros [->|(n & -> & H)]; [reflexivity|].
  unfold PresignedUrl.lifetime. rewrite H. reflexivity.
Qed.


(** What [parseInt(s, 10)] makes of some strings: white space of more than
    one byte is skipped, the digits end at the first character that is not
    one, an integer beyond 2^53 is rounded to the nearest double, and a
    string without a leading integer gives NaN. *)
Example parseInt_plain : JS.parseInt10 "25" = JS.of_Z 25.
Proof. reflexivity. Qed.

Example parseInt_no_break_space :
  JS.parseInt10 (String (ascii_of_nat 194) (String (ascii_of_nat 160) "7"))
  = JS.of_Z 7.
Proof. reflexivity. Qed.

Example parseInt_byte_order_mark :
  JS.parseInt10 (String (ascii_of_nat 239) (String (ascii_of_nat 187)
                   (String (ascii_of_nat 191) " +42")))
  = JS.of_Z 42.
Proof. reflexivity. Qed.

Example parseInt_rounds :
  JS.parseInt10 "9007199254740993" = JS.of_Z 9007199254740992.
Proof. reflexivity. Qed.

Example parseInt_suffix : JS.parseInt10 "12px" = JS.of_Z 12.
Proof. reflexivity. Qed.

Example parseInt_exponent : JS.parseInt10 "1e3" = JS.of_Z 1.
Proof. reflexivity. Qed.

Example parseInt_hexadecimal : JS.parseInt10 "0x1F" = JS.of_Z 0.
Proof. reflexivity. Qed.

Example parseInt_negative_zero : JS.parseInt10 "-0" = S754_zero true.
Proof. reflexivity. Qed.

Example parseInt_negative : JS.parseInt10 (" -15.9") = JS.parseInt10 "-15".
Proof. reflexivity. Qed.

Example parseInt_none : JS.parseInt10 "abc" = JS.NaN.
Proof. reflexivity. Qed.

Example parseInt_sign_only : JS.parseInt10 "- 5" = JS.NaN.
Proof. reflexivity. Qed.

(** X6.  When the object route answers 200, it has assumed the role stored
    in a row of the signed-in user with that row's External ID and listed
    the requested bucket with the credentials issued; an empty prefix or
    maxKeys parameter is treated as absent, any other maxKeys is handed on
    as [parseInt(maxKeys, 10)] makes it (NaN included), and the answer is
    the listing as [listObjects] returned it, continuation token
    included. *)
Theorem objects_success e session query w :
  status (fst (Objects.GET e session query w)) = 200 ->
  exists uid c response sc bucket result,
    signed_in session = Some uid /\
    In c (table w) /\ userId c = uid /\
    Objects.bucket query = Some bucket /\ JS.truthy bucket = true /\
    sts_AssumeRole e (stsClientOf e) (stsCommandOf e (roleArn c) (externalId c))
      = inr response /\
    Credentials_ response = Some sc /\
    fst (Aws.listObjects e bucket (prefix_given query) (maxKeys_given query)
           (Some (issued_by sc)) w) = Returned result /\
    calls (snd (Objects.GET e session query w))
      = (calls w ++ [CallAssumeRole (roleArn c) (externalId c);
                     CallListObjects bucket (prefix_given query)
                       (maxKeys_given query) (Some (issued_by sc))])%list /\
    fst (Objects.GET e session query w)
      = objects_listed bucket (prefix_given query) result c /\
    (forall m, Objects.maxKeys query = Some m ->
               maxKeys_given query
               = if JS.truthy m then Some (JS.parseInt10 m) else None) /\
    (Objects.maxKeys query = None -> maxKeys_given query = None).
Proof.
  rewrite objects_GET_paths.
  destruct (signed_in session) as [uid|] eqn:Es; [|discriminate].
  destruct (Objects.bucket query) as [b|] eqn:Eb; [|discriminate].
  simpl JS.truthy_opt.
  destruct (JS.truthy b) eqn:Tb; [|discriminate].
  assert (JS.or_else (Some b) "" = b) as Hb by (simpl; rewrite Tb; reflexivity).
  rewrite Hb. cbv zeta.
  destruct (fetched uid (Objects.connectionId query) (table w))
    as [c|] eqn:Ef; [|discriminate].
  destruct (fst (Aws.assumeRole e (roleArn c) (externalId c) w)) as [cr|m] eqn:Ea;
    [|discriminate].
  destruct (assumeRole_returned e _ _ w cr Ea) as (_ & response & sc & Hs & Hc & ->).
  destruct (fst (Aws.listObjects e b _ _ _ w)) as [result|m] eqn:El;
    [|discriminate].
  intros _. apply fetched_sound in Ef. destruct Ef as [Hin Hu].
  exists uid, c, response, sc, b, result. simpl.
  do 10 (split; [solve [auto]|]).
  unfold maxKeys_given. split; [intros m ->|intros ->]; reflexivity.
Qed.

(* ================================================================== *)
(** ** Requests the S3 routes turn away *)

(** The test of the required members, case by case. *)
Lemma presign_intake_eq body w :
  body <> JNull ->
  PresignedUrl.intake (inr body) w =
  (if truthy_json (get "bucket" body) && truthy_json (get "key" body)
   then Returned (inr (fun k => get k body))
   else Returned (inl PresignedUrl.missing_parameters), w).
Proof.
  intros Hn. unfold PresignedUrl.intake, request_json, bind, ret.
  rewrite (destructure_members _ _ body w Hn).
  destruct (truthy_json (get "bucket" body));
    destruct (truthy_json (get "key" body)); reflexivity.
Qed.

(** On a body whose members have the types of the helper's parameters,
    the handler on the body as it arrives is the handler on the cast
    body. *)
Lemma presign_handle_typed e session body w :
  body <> JNull ->
  PresignedUrl.as_declared (fun k => get k body) ->
  PresignedUrl.handle (PresignedUrl.proceed e) session (inr body) w
  = PresignedUrl.POST e session (PresignedUrl.cast (fun k => get k body)) w.
Proof.
  intros Hn (Hb & Hk & _). unfold PresignedUrl.handle, PresignedUrl.POST, route.
  destruct (signed_in session) as [uid|]; [|reflexivity].
  unfold bind at 1. rewrite (presign_intake_eq body w Hn).
  unfold PresignedUrl.proceed.
  set (request := PresignedUrl.cast (fun k => get k body)).
  assert (truthy_json (get "bucket" body)
          = JS.truthy_opt (PresignedUrl.bucket request)) as ->.
  { unfold request, PresignedUrl.cast; simpl.
    destruct (get "bucket" body) as [[| | | | | |]|]; try contradiction;
      reflexivity. }
  assert (truthy_json (get "key" body)
          = JS.truthy_opt (PresignedUrl.key request)) as ->.
  { unfold request, PresignedUrl.cast; simpl.
    destruct (get "key" body) as [[| | | | | |]|]; try contradiction;
      reflexivity. }
  destruct (JS.truthy_opt (PresignedUrl.bucket request));
    destruct (JS.truthy_opt (PresignedUrl.key request)); reflexivity.
Qed.

(** A body that is not JSON, or is null, is answered 500 by the
    presigned-URL route. *)
Lemma presign_unusable_body rest session uid payload w :
  signed_in session = Some uid ->
  (exists message, payload = inl message) \/ payload = inr JNull ->
  exists message,
    PresignedUrl.handle rest session payload w
    = (failed "Failed to generate presigned URL" message, w).
Proof.
  intros Es H. unfold PresignedUrl.handle, route. rewrite Es.
  destruct H as [(m & ->)| ->]; eexists; reflexivity.
Qed.

(** X7.  A signed-in request to the presigned-URL route whose body is JSON
    and not null, but has no bucket or no key (missing, null, false, 0 or
    empty), and a request to the object route without a bucket, is
    answered 400 before anything is looked up: the world stays as it is,
    whatever the handler does after the test. *)
Theorem missing_parameters_rejected session uid w :
  signed_in session = Some uid ->
  (forall rest body,
     body <> JNull ->
     truthy_json (get "bucket" body) = false \/
     truthy_json (get "key" body) = false ->
     PresignedUrl.handle rest session (inr body) w
     = (PresignedUrl.missing_parameters, w)) /\
  (forall e request,
     JS.truthy_opt (PresignedUrl.bucket request) = false \/
     JS.truthy_opt (PresignedUrl.key request) = false ->
     PresignedUrl.POST e session request w
     = (PresignedUrl.missing_parameters, w)) /\
  (forall e query,
     JS.truthy_opt (Objects.bucket query) = false ->
     Objects.GET e session query w = (Objects.bucket_required, w)).
Proof.
  intros Es. split; [|split].
  - intros rest body Hn H. unfold PresignedUrl.handle, route. rewrite Es.
    unfold bind. rewrite (presign_intake_eq body w Hn).
    destruct H as [-> | ->]; [|rewrite andb_false_r]; reflexivity.
  - intros e request H. rewrite presign_POST_paths, Es.
    destruct H as [-> | ->]; [|rewrite andb_false_r]; reflexivity.
  - intros e query H. rewrite objects_GET_paths, Es, H. reflexivity.
Qed.

(** X23.  A body the handlers cannot use is answered 500, not 400, and
    nothing else happens.  For verify: a text that is not JSON, the value
    null, or a roleArn that is truthy without being a string (a number, an
    array, an object, true), on which [startsWith] is not a function.  For
    the presigned-URL route: a text that is not JSON or the value null. *)
Theorem unusable_body_is_500 session uid w :
  signed_in session = Some uid ->
  (forall rest payload,
     (exists message, payload = inl message) \/
     payload = inr JNull \/
     (exists value, payload = inr value /\
                    truthy_json (get "roleArn" value) = true /\
                    text (get "roleArn" value) = None) ->
     status (fst (Verify.handle rest session payload w)) = 500 /\
     get "error" (body (fst (Verify.handle rest session payload w)))
       = Some (JStr "Internal server error") /\
     snd (Verify.handle rest session payload w) = w) /\
  (forall rest payload,
     (exists message, payload = inl message) \/ payload = inr JNull ->
     status (fst (PresignedUrl.handle rest session payload w)) = 500 /\
     get "error" (body (fst (PresignedUrl.handle rest session payload w)))
       = Some (JStr "Failed to generate presigned URL") /\
     snd (PresignedUrl.handle rest session payload w) = w).
Proof.
  intros Es. split.
  - intros rest payload H.
    destruct (verify_unusable_body rest session uid payload w Es H) as (m & ->).
    repeat split.
  - intros rest payload H.
    destruct (presign_unusable_body rest session uid payload w Es H) as (m & ->).
    repeat split.
Qed.

Lemma select_rows_of q o uid tbl :
  w_userId q = Some uid ->
  select q o (rows_of uid tbl) = select q o tbl.
Proof.
  intros Hq.
  assert (forall c, matches q c = true -> String.eqb (userId c) uid = true) as Hm.
  { intros c H. unfold matches in H. rewrite Hq in H.
    apply andb_true_iff in H. destruct H as [H _].
    apply andb_true_iff in H. tauto. }
  unfold rows_of. destruct o; simpl.
  - induction tbl as [|a t IH]; simpl; [reflexivity|].
    destruct (String.eqb (userId a) uid) eqn:E; simpl.
    + rewrite IH. reflexivity.
    + destruct (matches q a) eqn:Ea; [|exact IH].
      rewrite (Hm a Ea) in E. discriminate.
  - f_equal. induction tbl as [|a t IH]; simpl; [reflexivity|].
    destruct (String.eqb (userId a) uid) eqn:E; simpl.
    + rewrite IH. reflexivity.
    + destruct (matches q a) eqn:Ea; [|exact IH].
      rewrite (Hm a Ea) in E. discriminate.
Qed.

(** What the routes resolve for a user depends on that user's rows only. *)
Lemma fetched_rows_of uid cid tbl :
  fetched uid cid (rows_of uid tbl) = fetched uid cid tbl.
Proof.
  unfold fetched. destruct cid as [i|]; [destruct (JS.truthy i)|];
    apply select_rows_of; reflexivity.
Qed.

Lemma stored_rows_of uid cid tbl :
  stored uid cid (rows_of uid tbl) = stored uid cid tbl.
Proof.
  unfold stored.
  rewrite (select_rows_of (pending_of uid) CreatedAtDesc uid tbl eq_refl).
  destruct cid as [i|]; [destruct (JS.truthy i)|]; try reflexivity.
  rewrite (select_rows_of (by_id_and_user i uid) Unordered uid tbl eq_refl).
  reflexivity.
Qed.

(** X8.  A signed-in user who has no connection row at all gets 404 from
    the three S3 routes for every well-formed request, however the
    connectionId is chosen, and nothing happens: no AWS helper is called. *)
Theorem no_connection_404 e session uid w :
  signed_in session = Some uid ->
  rows_of uid (table w) = [] ->
  (forall cid, Buckets.GET e session cid w = (not_found, w)) /\
  (forall query,
     JS.truthy_opt (Objects.bucket query) = true ->
     Objects.GET e session query w = (not_found, w)) /\
  (forall request,
     JS.truthy_opt (PresignedUrl.bucket request) = true ->
     JS.truthy_opt (PresignedUrl.key request) = true ->
     PresignedUrl.POST e session request w = (not_found, w)).
Proof.
  intros Es Hrows.
  assert (forall cid, fetched uid cid (table w) = None) as Hf.
  { intros cid. rewrite <- fetched_rows_of, Hrows.
    unfold fetched. destruct cid as [i|]; [destruct (JS.truthy i)|]; reflexivity. }
  split; [|split].
  - intros cid. rewrite buckets_GET_paths, Es, Hf. reflexivity.
  - intros query Hb. rewrite objects_GET_paths, Es, Hb, Hf. reflexivity.
  - intros request Hb Hk. rewrite presign_POST_paths, Es, Hb, Hk, Hf. reflexivity.
Qed.

(* ================================================================== *)
(** ** Status codes *)

(** X9.  Each route answers only with the status codes it has a return for:
    bootstrap 200, 401, 500; verify 200, 400, 401, 403, 500; buckets 200,
    401, 404, 409, 500; objects 200, 400, 401, 404, 500 (never 409);
    presigned-url 200, 400, 401, 404, 409, 500.  In particular only verify
    answers 403, and a failure of AWS in an S3 route surfaces as 500. *)
Theorem status_is_documented r w :
  In (status (fst (serve r w))) (statuses r).
Proof.
  destruct r as [e s|e s b|e s cid|e s q|e s b]; simpl.
  - unfold Bootstrap.GET, route, bind, findFirst.
    destruct (signed_in s) as [uid|]; simpl; [|auto].
    destruct (latest _); simpl; [auto|].
    destruct (create e _ w) as [[c|m] w1]; simpl; auto.
  - unfold Verify.POST, route.
    destruct (signed_in s) as [uid|]; simpl; [|auto].
    destruct (Verify.roleArn b) as [r|]; simpl; [|auto].
    destruct (JS.truthy r); simpl; [|auto].
    destruct (Verify.malformed r); simpl; [auto|].
    unfold bind.
    destruct (Verify.resolveConnection e uid _ w) as [[c|m] w1]; simpl; [|auto 6].
    destruct (probe_spec e r c w1) as (p & tail & -> & _ & Hp).
    destruct p as [response|cr].
    + destruct Hp as [Hs _]. simpl. rewrite Hs. auto 6.
    + destruct (Verify.reconcile e uid r _ c _) as [[c2|m] w3]; simpl; auto 6.
  - rewrite buckets_GET_paths. split_paths; simpl; auto 6.
  - rewrite objects_GET_paths. split_paths; simpl; auto 6.
  - rewrite presign_POST_paths. split_paths; simpl; auto 8.
Qed.

(* ================================================================== *)
(** ** When bootstrap and verify cannot fail *)

Lemma fresh_id_unused w :
  store_ok w -> has_id (cuid w (issued w)) (table w) = false.
Proof.
  intros Hok. unfold has_id.
  destruct (existsb _ (table w)) eqn:E; [|reflexivity].
  apply existsb_exists in E. destruct E as (d & Hd & Hid).
  apply String.eqb_eq in Hid.
  destruct (ok_issued Hok d Hd) as (n & Hn & Hdn).
  assert (n = issued w) by (apply (ok_cuid Hok); congruence). lia.
Qed.

Lemma create_pending_succeeds e uid w :
  store_ok w -> externalId_fresh e uid w ->
  exists c,
    create e (pending_data e uid) w
    = (Returned c, with_table (table w ++ [c]) (with_issued (S (issued w)) w)) /\
    userId c = uid /\ roleArn c = None /\ externalId c = generateExternalId e.
Proof.
  intros Hok Hfresh. unfold create. cbv zeta. cbn [id]. rewrite (fresh_id_unused w Hok).
  cbn [orb].
  match goal with |- context [clashes ?i ?c ?t] => destruct (clashes i c t) eqn:E end.
  - exfalso. unfold clashes in E. apply existsb_exists in E.
    destruct E as (d & Hd & H). simpl in H.
    rewrite orb_false_r in H.
    apply andb_true_iff in H. destruct H as [H He].
    apply andb_true_iff in H. destruct H as [_ Hu].
    apply String.eqb_eq in Hu, He.
    exact (Hfresh d Hd Hu He).
  - eexists. split; [reflexivity|]. simpl. auto.
Qed.

Lemma create_pending_fails e uid w d :
  In d (table w) -> userId d = uid -> externalId d = generateExternalId e ->
  store_ok w ->
  create e (pending_data e uid) w
  = (Threw "Unique constraint failed", with_issued (S (issued w)) w).
Proof.
  intros Hd Hu He Hok. unfold create. cbv zeta. cbn [id]. rewrite (fresh_id_unused w Hok).
  cbn [orb].
  match goal with |- context [clashes ?i ?c ?t] => destruct (clashes i c t) eqn:E end;
    [reflexivity|].
  exfalso.
  destruct (clashes_false _ _ _ E d Hd) as [Hne _]; simpl; auto.
  intros Hid. destruct (ok_issued Hok d Hd) as (n & Hn & Hdn).
  assert (n = issued w) by (apply (ok_cuid Hok); congruence). lia.
Qed.

(** X10.  On a store that has its keys, bootstrap for a signed-in user
    answers 200 if the user has a pending row or the generated External ID
    is not yet among the user's; if the user has no pending row and the
    generated External ID is already taken by one of the user's rows, the
    unique index refuses the new row, the answer is 500 and the table is
    unchanged. *)
Theorem bootstrap_outcome e session uid w :
  store_ok w -> signed_in session = Some uid ->
  (pending_rows uid (table w) <> [] \/ externalId_fresh e uid w ->
   status (fst (Bootstrap.GET e session w)) = 200) /\
  (pending_rows uid (table w) = [] ->
   (exists d, In d (table w) /\ userId d = uid /\
              externalId d = generateExternalId e) ->
   status (fst (Bootstrap.GET e session w)) = 500 /\
   table (snd (Bootstrap.GET e session w)) = table w).
Proof.
  intros Hok Es. unfold Bootstrap.GET, route, bind, findFirst. rewrite Es.
  simpl. fold (pending_rows uid (table w)).
  destruct (latest (pending_rows uid (table w))) as [c|] eqn:El.
  - split; [reflexivity|]. intros Hnil. rewrite Hnil in El. discriminate.
  - apply latest_None in El. split.
    + intros [H|H]; [contradiction|].
      destruct (create_pending_succeeds e uid w Hok H) as (c & -> & _).
      reflexivity.
    + intros _ (d & Hd & Hu & He).
      rewrite (create_pending_fails e uid w d Hd Hu He Hok). simpl. auto.
Qed.

(** On a sound store reconciliation never throws: it returns a row of the
    user that has the submitted role and is in the table. *)
Lemma reconcile_returns e uid r n c w :
  store_ok w -> In c (table w) -> userId c = uid ->
  exists c2 w',
    Verify.reconcile e uid r n c w = (Returned c2, w') /\
    In c2 (table w') /\ userId c2 = uid /\ roleArn c2 = Some r /\
    (id c2 = id c -> externalId c2 = externalId c) /\
    (id c2 <> id c ->
     In c2 (table w) /\
     forall d, In d (table w') -> roleArn c = None -> id d <> id c).
Proof.
  intros Hok Hin Hu. unfold Verify.reconcile, bind, findFirst.
  assert ((forall ex, select (by_user_and_role uid r) Unordered (table w) = Some ex ->
                      id ex = id c) ->
          exists c2 w',
            Verify.promote e r n c w = (Returned c2, w') /\
            In c2 (table w') /\ userId c2 = uid /\ roleArn c2 = Some r /\
            (id c2 = id c -> externalId c2 = externalId c) /\
            (id c2 <> id c ->
             In c2 (table w) /\
             forall d, In d (table w') -> roleArn c = None -> id d <> id c))
    as Hpromote.
  { intros Hex. rewrite (promote_succeeds e uid r n c w Hok Hin Hu Hex).
    eexists; eexists. split; [reflexivity|]. simpl.
    split; [apply In_replace_new; exists c; auto|].
    repeat split; auto; congruence. }
  destruct (select (by_user_and_role uid r) Unordered (table w)) as [ex|] eqn:Es.
  - destruct (select_sound _ _ _ _ Es) as [Hexin Hm].
    apply matches_by_user_and_role in Hm. destruct Hm as [Hexu Hexr].
    destruct (String.eqb (id ex) (id c)) eqn:Eid; simpl.
    + apply String.eqb_eq in Eid. apply Hpromote.
      intros ex' H; inversion H; subst; exact Eid.
    + apply String.eqb_neq in Eid.
      destruct (roleArn c) as [rc|] eqn:Erc.
      * exists ex, w. repeat split; auto; try contradiction. discriminate.
      * unfold delete, bind.
        rewrite (find_by_id_unique (table w) c (ok_pk Hok) Hin). simpl.
        eexists; eexists. split; [reflexivity|]. simpl.
        split; [apply remove_In; auto|].
        repeat split; auto; try contradiction.
        intros d Hd _. apply remove_In in Hd. tauto.
  - apply Hpromote. intros ex' H; discriminate.
Qed.

(** When a row is resolved or the generated External ID is fresh, the
    handler for the declared type does not answer 500: the update and the
    delete of step 3 do not hit a missing row or a unique index. *)
Lemma verify_POST_not_500 e session uid request w :
  store_ok w -> signed_in session = Some uid ->
  stored uid (Verify.connectionId request) (table w) <> None \/
  externalId_fresh e uid w ->
  status (fst (Verify.POST e session request w)) <> 500.
Proof.
  intros Hok Es Hres. unfold Verify.POST, route. rewrite Es.
  destruct (Verify.roleArn request) as [r|]; [|discriminate].
  destruct (JS.truthy r); simpl; [|discriminate].
  destruct (Verify.malformed r); simpl; [discriminate|].
  unfold bind.
  assert (exists c w1, Verify.resolveConnection e uid (Verify.connectionId request) w
                       = (Returned c, w1)) as (c & w1 & ER).
  { rewrite resolveConnection_stored.
    destruct (stored uid (Verify.connectionId request) (table w)) as [c|] eqn:E;
      [eauto|].
    destruct Hres as [H|H]; [contradiction|].
    destruct (create_pending_succeeds e uid w Hok H) as (c & -> & _). eauto. }
  rewrite ER.
  pose proof (ev_ok (steady_resolveConnection _ _ _ _ _ _ Hok ER) Hok) as Hok1.
  destruct (resolveConnection_sound _ _ _ _ _ _ ER) as (Hin & Hu & _).
  destruct (probe_spec e r c w1) as (p & tail & -> & _ & Hp).
  destruct p as [response|cr].
  - destruct Hp as [Hs _]. simpl. rewrite Hs. discriminate.
  - set (w2 := with_calls _ w1).
    destruct (reconcile_returns e uid r (Verify.name request) c w2
                (store_ok_with_calls _ _ Hok1) Hin Hu) as (c2 & w3 & -> & _).
    simpl. discriminate.
Qed.

(** The generated External ID is fresh or taken. *)
Lemma fresh_or_taken e uid w :
  externalId_fresh e uid w \/ externalId_taken e uid w.
Proof.
  unfold externalId_fresh, externalId_taken.
  induction (table w) as [|a t IH].
  - left. intros d [].
  - destruct IH as [IH|(d & Hd & H)]; [|right; exists d; simpl; tauto].
    destruct (string_dec (userId a) uid) as [Hu|Hu];
      [destruct (string_dec (externalId a) (generateExternalId e)) as [He|He]|].
    + right. exists a. simpl. auto.
    + left. intros d [<-|Hd]; auto.
    + left. intros d [<-|Hd]; auto.
Qed.

(** The 500 of the handler for the declared type: the pending row it has
    to create collides on the External ID. *)
Lemma verify_POST_500 e session uid request w :
  store_ok w -> signed_in session = Some uid ->
  (status (fst (Verify.POST e session request w)) = 500 <->
   exists r, Verify.roleArn request = Some r /\ JS.truthy r = true /\
             Verify.malformed r = false /\
             stored uid (Verify.connectionId request) (table w) = None /\
             externalId_taken e uid w).
Proof.
  intros Hok Es. split.
  - intros H500.
    destruct (stored uid (Verify.connectionId request) (table w)) as [c|] eqn:E.
    { exfalso. apply (verify_POST_not_500 e session uid request w Hok Es);
        [left; rewrite E; discriminate|exact H500]. }
    destruct (fresh_or_taken e uid w) as [Hf|Ht].
    { exfalso. apply (verify_POST_not_500 e session uid request w Hok Es);
        [right; exact Hf|exact H500]. }
    revert H500. unfold Verify.POST, route. rewrite Es.
    destruct (Verify.roleArn request) as [r|]; [|discriminate].
    destruct (JS.truthy r) eqn:Tr; simpl; [|discriminate].
    destruct (Verify.malformed r) eqn:Mr; simpl; [discriminate|].
    intros _. exists r. auto.
  - intros (r & Er & Tr & Mr & E & d & Hd & Hu & He).
    unfold Verify.POST, route. rewrite Es, Er, Tr. simpl. rewrite Mr.
    unfold bind. rewrite resolveConnection_stored, E.
    rewrite (create_pending_fails e uid w d Hd Hu He Hok). reflexivity.
Qed.

(** For a value that is not null. *)
Lemma unusable_nonnull body :
  body <> JNull ->
  (unusable (inr body) <->
   truthy_json (get "roleArn" body) = true /\ text (get "roleArn" body) = None).
Proof. intros H. destruct body; try contradiction; simpl; tauto. Qed.

(** X11.  With no other request in between, on a store that has its keys
    and for a body whose name and connectionId are strings when present,
    verify answers 500 in two cases only: the body is one it cannot use
    (not JSON, null, or with a roleArn that is truthy and not a string),
    or it has to create a pending row and the generated External ID is
    already that of one of the user's rows.  The update and the delete of
    step 3 do not hit a missing row or a unique index. *)
Theorem verify_500_exactly e session uid payload w :
  store_ok w -> signed_in session = Some uid ->
  (forall body, payload = inr body ->
                Verify.as_declared (get "name" body) /\
                Verify.as_declared (get "connectionId" body)) ->
  (status (fst (Verify.handle (Verify.proceed e) session payload w)) = 500 <->
   unusable payload \/
   exists body r,
     payload = inr body /\ get "roleArn" body = Some (JStr r) /\
     JS.truthy r = true /\ Verify.malformed r = false /\
     stored uid (text (get "connectionId" body)) (table w) = None /\
     externalId_taken e uid w).
Proof.
  intros Hok Es Hd.
  destruct payload as [m|body].
  { split; [left; exact I|intros _].
    unfold Verify.handle, route. rewrite Es. reflexivity. }
  destruct (Hd body eq_refl) as [Hname Hcid].
  assert (body = JNull \/ body <> JNull) as [->|Hn]
    by (destruct body; auto; right; discriminate).
  { split; [left; exact I|intros _].
    unfold Verify.handle, route. rewrite Es. reflexivity. }
  rewrite (unusable_nonnull body Hn).
  destruct (truthy_json (get "roleArn" body)) eqn:Ht.
  - destruct (get "roleArn" body) as [[|b|n|r|d|l|fs]|] eqn:Er;
      try discriminate;
      try (split; [intros _; left; auto|intros _];
           unfold Verify.handle, route; rewrite Es; unfold bind;
           rewrite (verify_intake_eq body w Hn), Er; simpl in Ht |- *;
           rewrite ?Ht; reflexivity).
    rewrite verify_handle_typed; auto; [|rewrite Er; exact I].
    rewrite (verify_POST_500 e session uid _ w Hok Es).
    unfold Verify.cast; simpl. rewrite Er. simpl. split.
    + intros (r0 & H & Tr & Mr & Hs & Hx). inversion H; subst r0.
      right. exists body, r. auto 7.
    + intros [[_ H]|(b0 & r0 & Hb & H & Tr & Mr & Hs & Hx)]; [discriminate|].
      inversion Hb; subst b0. rewrite Er in H. inversion H; subst r0.
      exists r. auto.
  - split.
    + unfold Verify.handle, route. rewrite Es. unfold bind.
      rewrite (verify_intake_eq body w Hn), Ht. discriminate.
    + intros [[H _]|(b0 & r & Hb & H & Tr & _)]; [discriminate|].
      inversion Hb; subst b0. rewrite H in Ht. simpl in Ht. congruence.
Qed.

(* ================================================================== *)
(** ** From bootstrap to verify to the buckets *)

Lemma select_by_id_unique w c :
  store_ok w -> In c (table w) ->
  select (by_id_and_user (id c) (userId c)) Unordered (table w) = Some c.
Proof.
  intros Hok Hin.
  destruct (select _ _ _) as [d|] eqn:E.
  - destruct (select_sound _ _ _ _ E) as [Hd Hm].
    apply matches_by_id_and_user in Hm. destruct Hm as [Hi _].
    f_equal. apply (pk_injective (table w)); auto using ok_pk.
  - pose proof (select_none _ _ _ c E Hin) as Hm.
    assert (matches (by_id_and_user (id c) (userId c)) c = true)
      by (apply matches_by_id_and_user; auto).
    congruence.
Qed.

(** The row a successful bootstrap reports is the user's pending row in the
    table it leaves. *)
Lemma bootstrap_row e session w :
  status (fst (Bootstrap.GET e session w)) = 200 ->
  exists uid c,
    signed_in session = Some uid /\
    fst (Bootstrap.GET e session w)
      = json (JObj [("success", JBool true);
                    ("connectionId", JStr (id c));
                    ("externalId", JStr (externalId c))]) 200 /\
    In c (table (snd (Bootstrap.GET e session w))) /\ userId c = uid /\
    select (pending_of uid) CreatedAtDesc (table (snd (Bootstrap.GET e session w)))
      = Some c.
Proof.
  unfold Bootstrap.GET, route, bind, findFirst.
  destruct (signed_in session) as [uid|] eqn:Es; [|discriminate].
  destruct (select (pending_of uid) CreatedAtDesc (table w)) as [c|] eqn:E.
  - simpl. intros _. exists uid, c.
    destruct (select_sound _ _ _ _ E) as [Hin Hm].
    apply matches_pending_of in Hm. tauto.
  - destruct (create e (pending_data e uid) w) as [[c|m] w1] eqn:Ec;
      [|discriminate].
    apply create_returned in Ec. destruct Ec as [Hc ->].
    assert (userId c = uid) as Hu by (rewrite Hc; reflexivity).
    assert (roleArn c = None) as Hr by (rewrite Hc; reflexivity).
    intros _. exists uid, c. cbn [fst snd table with_table].
    repeat split; auto.
    + apply in_or_app; right; left; reflexivity.
    + apply pending_after_create; auto.
Qed.

Lemma verify_first_call e session uid request r c w w1 :
  signed_in session = Some uid ->
  Verify.roleArn request = Some r -> JS.truthy r = true ->
  Verify.malformed r = false ->
  Verify.resolveConnection e uid (Verify.connectionId request) w = (Returned c, w1) ->
  exists tail,
    calls (snd (Verify.POST e session request w))
    = (calls w ++ CallAssumeRole (Some r) (externalId c) :: tail)%list.
Proof.
  intros Es Er Et Em ER.
  rewrite (verify_resolved _ _ _ _ _ _ _ _ Es Er Et Em ER).
  destruct (resolveConnection_sound _ _ _ _ _ _ ER) as (_ & _ & Hc).
  destruct (probe_spec e r c w1) as (p & tail & -> & _ & _).
  exists tail. rewrite <- Hc.
  destruct p as [response|cr]; [reflexivity|].
  unfold route, bind.
  destruct (Verify.reconcile e uid r (Verify.name request) c _)
    as [[c2|m] w3] eqn:ERc; simpl;
    rewrite (quiet_reconcile _ _ _ _ _ _ _ _ ERc); reflexivity.
Qed.

(** X12.  The External ID that bootstrap hands to the user is the one verify
    goes to STS with: after a successful bootstrap on a store that has its
    keys, a well-formed verify request of the same user that names the
    connection bootstrap reported, or names none, starts by assuming the
    submitted role with exactly the External ID bootstrap reported. *)
Theorem bootstrap_then_verify e1 e2 session request r w :
  store_ok w ->
  status (fst (Bootstrap.GET e1 session w)) = 200 ->
  Verify.roleArn request = Some r -> JS.truthy r = true ->
  Verify.malformed r = false ->
  exists c,
    fst (Bootstrap.GET e1 session w)
      = json (JObj [("success", JBool true);
                    ("connectionId", JStr (id c));
                    ("externalId", JStr (externalId c))]) 200 /\
    (Verify.connectionId request = None \/
     Verify.connectionId request = Some (id c) ->
     exists tail,
       calls (snd (Verify.POST e2 session request
                     (snd (Bootstrap.GET e1 session w))))
       = (calls (snd (Bootstrap.GET e1 session w))
          ++ CallAssumeRole (Some r) (externalId c) :: tail)%list).
Proof.
  intros Hok H200 Er Et Em.
  pose proof (ev_ok (serve_evolves (Bootstrap_GET e1 session) w Hok) Hok) as Hok1.
  simpl in Hok1.
  destruct (bootstrap_row e1 session w H200) as (uid & c & Es & Hresp & Hin & Hu & Hp).
  exists c. split; [exact Hresp|]. intros Hcid.
  apply (verify_first_call e2 session uid request r c
           (snd (Bootstrap.GET e1 session w)) (snd (Bootstrap.GET e1 session w))
           Es Er Et Em).
  rewrite resolveConnection_stored.
  assert (stored uid (Verify.connectionId request)
            (table (snd (Bootstrap.GET e1 session w))) = Some c) as ->;
    [|reflexivity].
  unfold stored. destruct Hcid as [-> | ->]; [exact Hp|].
  destruct (JS.truthy (id c)); [|exact Hp].
  rewrite <- Hu. rewrite (select_by_id_unique _ c Hok1 Hin). reflexivity.
Qed.

Lemma verify_200_valid e session request w r :
  status (fst (Verify.POST e session request w)) = 200 ->
  Verify.roleArn request = Some r -> JS.truthy r = true.
Proof.
  unfold Verify.POST, route. intros H Er. rewrite Er in H.
  destruct (signed_in session); [|discriminate].
  destruct (JS.truthy r); [reflexivity|discriminate].
Qed.

(** X13.  After a successful verify on a store that has its keys, the
    connection in the answer is a row of the user in the table with the
    submitted role; and the bucket route, asked by the same user for that
    connection, finds it verified (no 404, no 409) and starts by assuming
    the submitted role with that row's External ID. *)
Theorem verify_then_buckets e e' session uid request r w :
  store_ok w -> signed_in session = Some uid ->
  Verify.roleArn request = Some r ->
  status (fst (Verify.POST e session request w)) = 200 ->
  exists c2,
    fst (Verify.POST e session request w) = Verify.verified c2 /\
    In c2 (table (snd (Verify.POST e session request w))) /\
    userId c2 = uid /\ roleArn c2 = Some r /\
    (JS.truthy (id c2) = true ->
     status (fst (Buckets.GET e' session (Some (id c2))
                    (snd (Verify.POST e session request w)))) <> 404 /\
     status (fst (Buckets.GET e' session (Some (id c2))
                    (snd (Verify.POST e session request w)))) <> 409 /\
     exists tail,
       calls (snd (Buckets.GET e' session (Some (id c2))
                     (snd (Verify.POST e session request w))))
       = (calls (snd (Verify.POST e session request w))
          ++ CallAssumeRole (Some r) (externalId c2) :: tail)%list).
Proof.
  intros Hok Es Er H200.
  pose proof (verify_200_valid e session request w r H200 Er) as Et.
  destruct (verify_succeeded e session request w H200)
    as (uid' & r' & c & w1 & c2 & w3 & l & Es' & Er' & ER & ERc & ->).
  rewrite Es in Es'; inversion Es'; subst uid'.
  rewrite Er in Er'; inversion Er'; subst r'.
  pose proof (ev_ok (steady_resolveConnection _ _ _ _ _ _ Hok ER) Hok) as Hok1.
  destruct (resolveConnection_sound _ _ _ _ _ _ ER) as (Hin & Hu & _).
  pose proof (ev_ok (steady_reconcile _ _ _ _ _ _ _ _ Hok1 ERc) Hok1) as Hok3.
  destruct (reconcile_returns e uid r (Verify.name request) c w1 Hok1 Hin Hu)
    as (c2' & w3' & ERc' & Hin2 & Hu2 & Hr2 & _).
  rewrite ERc in ERc'; inversion ERc'; subst c2' w3'.
  exists c2. cbn [fst snd].
  split; [reflexivity|]. split; [exact Hin2|]. split; [exact Hu2|].
  split; [exact Hr2|]. intros Hid.
  rewrite buckets_GET_paths, Es. unfold fetched. rewrite Hid.
  cbn [table with_calls calls].
  rewrite <- Hu2, (select_by_id_unique w3 c2 Hok3 Hin2), Hr2, Et. cbv zeta.
  destruct (fst (Aws.assumeRole e' _ _ _)) as [cr|m];
    [destruct (fst (Aws.listBuckets e' cr _))|]; simpl;
    (split; [discriminate|]); (split; [discriminate|]);
    try rewrite <- app_assoc; eexists; reflexivity.
Qed.

(** X14.  When verify finds that another row of the user already has the
    submitted role, the connection it answers with carries an External ID
    different from the one that has just passed the probe; and if the row
    that was probed was pending, it is deleted, so that afterwards no row
    of the user carries the External ID that passed the probe. *)
Theorem reused_connection_has_other_externalId
  e session uid request r c w w1 existing :
  store_ok w -> signed_in session = Some uid ->
  Verify.roleArn request = Some r -> JS.truthy r = true ->
  Verify.malformed r = false ->
  Verify.resolveConnection e uid (Verify.connectionId request) w = (Returned c, w1) ->
  ~ probe_fails e r c w1 ->
  select (by_user_and_role uid r) Unordered (table w1) = Some existing ->
  id existing <> id c ->
  fst (Verify.POST e session request w) = Verify.verified existing /\
  externalId existing <> externalId c /\
  (roleArn c = None ->
   forall d, In d (table (snd (Verify.POST e session request w))) ->
             userId d = uid -> externalId d <> externalId c).
Proof.
  intros Hok Es Er Et Em ER Hpass Hsel Hid.
  pose proof (ev_ok (steady_resolveConnection _ _ _ _ _ _ Hok ER) Hok) as Hok1.
  destruct (resolveConnection_sound _ _ _ _ _ _ ER) as (Hin & Hu & _).
  destruct (select_sound _ _ _ _ Hsel) as [Hexin Hm].
  apply matches_by_user_and_role in Hm. destruct Hm as [Hexu Hexr].
  assert (forall d, In d (table w1) -> userId d = uid -> id d <> id c ->
                    externalId d <> externalId c) as Hother.
  { intros d Hd Hdu Hdi He. apply Hdi.
    apply (ok_externalId Hok1); auto. congruence. }
  rewrite (verify_resolved _ _ _ _ _ _ _ _ Es Er Et Em ER).
  destruct (probe_spec e r c w1) as (p & tail & -> & _ & Hp).
  destruct p as [response|cr]; [destruct Hp; contradiction|].
  unfold route, Verify.reconcile. unfold bind, findFirst.
  cbn [table with_calls]. rewrite Hsel.
  apply String.eqb_neq in Hid. rewrite Hid. apply String.eqb_neq in Hid.
  cbn [negb].
  destruct (roleArn c) as [rc|] eqn:Erc.
  - simpl. repeat split; auto. discriminate.
  - unfold delete, bind. cbn [table with_calls].
    rewrite (find_by_id_unique (table w1) c (ok_pk Hok1) Hin). simpl.
    split; [reflexivity|]. split; [auto|].
    intros _ d Hd Hdu. apply remove_In in Hd. destruct Hd as [Hd Hdi]. auto.
Qed.

(* ================================================================== *)
(** ** One pending row per user *)

Lemma pending_rows_remove i uid tbl :
  (List.length (pending_rows uid (remove i tbl))
   <= List.length (pending_rows uid tbl))%nat.
Proof.
  unfold pending_rows, remove. induction tbl as [|a t IH]; simpl; [lia|].
  destruct (negb (String.eqb (id a) i)); simpl;
    destruct (matches (pending_of uid) a); simpl; lia.
Qed.

Lemma pending_rows_replace i c' uid tbl :
  roleArn c' <> None ->
  (List.length (pending_rows uid (replace i c' tbl))
   <= List.length (pending_rows uid tbl))%nat.
Proof.
  intros Hv.
  assert (matches (pending_of uid) c' = false) as Hc.
  { destruct (matches (pending_of uid) c') eqn:E; [|reflexivity].
    apply matches_pending_of in E. tauto. }
  unfold pending_rows. induction tbl as [|a t IH]; simpl; [lia|].
  destruct (String.eqb (id a) i); simpl.
  - rewrite Hc. destruct (matches (pending_of uid) a); simpl; lia.
  - destruct (matches (pending_of uid) a); simpl; lia.
Qed.

Lemma pending_rows_append uid c tbl :
  (forall u, (List.length (pending_rows u tbl) <= 1)%nat) ->
  pending_rows (userId c) tbl = [] ->
  (List.length (pending_rows uid (tbl ++ [c])) <= 1)%nat.
Proof.
  intros Hall Hnone. unfold pending_rows in *. rewrite filter_app, length_app.
  simpl. destruct (matches (pending_of uid) c) eqn:E; simpl.
  - apply matches_pending_of in E. destruct E as [<- _]. rewrite Hnone.
    simpl. lia.
  - specialize (Hall uid). lia.
Qed.

Lemma stored_None_no_pending uid cid tbl :
  stored uid cid tbl = None -> pending_rows uid tbl = [].
Proof.
  unfold stored. intros H.
  assert (select (pending_of uid) CreatedAtDesc tbl = None) as Hn.
  { destruct cid as [i|]; [destruct (JS.truthy i)|]; auto.
    destruct (select (by_id_and_user i uid) Unordered tbl); [discriminate|auto]. }
  apply latest_None in Hn. exact Hn.
Qed.

(** What reconciliation can do to the table; the row it writes is
    verified. *)
Lemma reconcile_writes_verified e uid r n c w out w' :
  Verify.reconcile e uid r n c w = (out, w') ->
  table w' = table w \/
  table w' = remove (id c) (table w) \/
  exists c', roleArn c' <> None /\ table w' = replace (id c) c' (table w).
Proof.
  assert (forall out w', Verify.promote e r n c w = (out, w') ->
            table w' = table w \/
            table w' = remove (id c) (table w) \/
            exists c', roleArn c' <> None /\
                       table w' = replace (id c) c' (table w)) as Hpromote.
  { unfold Verify.promote, update. intros o v H.
    destruct (find _ (table w)) as [c0|]; [|inversion H; auto].
    destruct (clashes _ _ _); inversion H; subst; simpl; auto.
    right; right. eexists. split; [|reflexivity]. simpl. discriminate. }
  unfold Verify.reconcile, bind, findFirst.
  destruct (select _ _ (table w)) as [ex|]; [|apply Hpromote].
  destruct (negb _); [|apply Hpromote].
  destruct (roleArn c); [intros H; inversion H; auto|].
  unfold delete.
  destruct (find _ (table w)); intros H; inversion H; subst; simpl; auto.
Qed.

Lemma s3_route_world r w :
  match r with
  | Bootstrap_GET _ _ | Verify_POST _ _ _ => True
  | _ => exists made, snd (serve r w) = with_calls (calls w ++ made) w
  end.
Proof.
  assert (exists made, w = with_calls (calls w ++ made) w) as Hsame
    by (exists []; rewrite app_nil_r, with_calls_same; reflexivity).
  destruct r as [e s|e s b|e s cid|e s q|e s b]; simpl; auto.
  - rewrite buckets_GET_paths. split_paths; simpl; eauto.
  - rewrite objects_GET_paths. split_paths; simpl; eauto.
  - rewrite presign_POST_paths. split_paths; simpl; eauto.
Qed.

Lemma serve_one_pending r w : one_pending w -> one_pending (snd (serve r w)).
Proof.
  intros H.
  destruct r as [e s|e s b|e s cid|e s q|e s b];
    try (destruct (s3_route_world (Buckets_GET e s cid) w) as [made Hw]);
    try (destruct (s3_route_world (Objects_GET e s q) w) as [made Hw]);
    try (destruct (s3_route_world (PresignedUrl_POST e s b) w) as [made Hw]);
    try (rewrite Hw; exact H).
  - simpl. unfold Bootstrap.GET, route, bind, findFirst.
    destruct (signed_in s) as [uid|]; [|exact H].
    destruct (select (pending_of uid) CreatedAtDesc (table w)) as [c|] eqn:E;
      [exact H|].
    destruct (create e (pending_data e uid) w) as [[c|m] w1] eqn:Ec.
    + apply create_returned in Ec. destruct Ec as [Hc ->].
      intros u. cbn [snd table with_table]. apply pending_rows_append; [exact H|].
      rewrite Hc. cbn [userId]. apply latest_None. exact E.
    + apply create_threw in Ec. subst w1. exact H.
  - simpl. unfold Verify.POST, route.
    destruct (signed_in s) as [uid|]; [|exact H].
    destruct (Verify.roleArn b) as [r|]; [|exact H].
    destruct (JS.truthy r); simpl; [|exact H].
    destruct (Verify.malformed r); simpl; [exact H|].
    unfold bind.
    destruct (Verify.resolveConnection e uid (Verify.connectionId b) w)
      as [out w1] eqn:ER.
    assert (one_pending w1) as H1.
    { revert ER. rewrite resolveConnection_stored.
      destruct (stored uid (Verify.connectionId b) (table w)) eqn:Est.
      - intros E; inversion E; subst; exact H.
      - apply stored_None_no_pending in Est.
        destruct (create e (pending_data e uid) w) as [[c|m] w0] eqn:Ec;
          intros E; inversion E; subst.
        + apply create_returned in Ec. destruct Ec as [Hc ->].
          intros u. cbn [table with_table]. apply pending_rows_append; [exact H|].
          rewrite Hc. exact Est.
        + apply create_threw in Ec. subst. exact H. }
    destruct out as [c|m]; [|exact H1].
    destruct (probe_spec e r c w1) as (p & tail & -> & _ & _).
    destruct p as [response|cr]; [exact H1|].
    destruct (Verify.reconcile e uid r (Verify.name b) c _) as [out w3] eqn:ERc.
    apply reconcile_writes_verified in ERc. cbn [table with_calls] in ERc.
    assert (one_pending w3) as H3.
    { intros u. unfold one_pending in H1. specialize (H1 u).
      destruct ERc as [->|[->|(c' & Hv & ->)]].
      - exact H1.
      - pose proof (pending_rows_remove (id c) u (table w1)). lia.
      - pose proof (pending_rows_replace (id c) c' u (table w1) Hv). lia. }
    destruct out; exact H3.
Qed.

(** X15.  Served one at a time, each request to its end before the next
    begins, the handlers never give a user a second pending row: if no
    user has more than one pending row, then that is still so after any
    sequence of requests.  (Both places that create a pending row do so
    only after looking for one; verify only ever writes a non-null
    roleArn.) *)
Theorem one_pending_kept rs w : one_pending w -> one_pending (run rs w).
Proof.
  revert w. induction rs as [|r rs IH]; simpl; intros w H; [exact H|].
  apply IH. apply serve_one_pending. exact H.
Qed.

(** A task and what follows its [await], run in one go, are the bind of
    the two. *)
Lemma bind_resume A B (m : Task A) (k : A -> Task B) w :
  bind m k w = resume (fst (m w)) k (snd (m w)).
Proof. unfold bind, resume. destruct (m w) as [[a|x] w']; reflexivity. Qed.

(** Bootstrap is its lookup followed by what it does with the row found. *)
Lemma bootstrap_awaits e session w :
  Bootstrap.GET e session w =
  route "Failed to bootstrap AWS connection"
    (match signed_in session with
     | None => ret unauthorized
     | Some uid => found <- Bootstrap.lookup uid ;; Bootstrap.finish e uid found
     end) w.
Proof. reflexivity. Qed.

(** X24.  The lookup and the creation of bootstrap are two awaits, and two
    requests of one user can overlap.  When the user has no pending row
    and both lookups are answered before either request goes on, both
    requests create a row and both are answered 200, with different
    connections and External IDs: the user is left with two pending rows.
    (The generated External IDs are taken to be fresh and different, as
    random ones are.) *)
Theorem overlapping_bootstraps e1 e2 uid w :
  store_ok w ->
  pending_rows uid (table w) = [] ->
  externalId_fresh e1 uid w -> externalId_fresh e2 uid w ->
  generateExternalId e1 <> generateExternalId e2 ->
  exists c1 c2,
    Bootstrap.overlapped e1 e2 uid w
    = (handed_out c1, handed_out c2,
       with_table (table w ++ [c1; c2])
         (with_issued (S (S (issued w))) w)) /\
    externalId c1 = generateExternalId e1 /\
    externalId c2 = generateExternalId e2 /\
    id c1 <> id c2 /\
    pending_rows uid (table w ++ [c1; c2]) = [c1; c2] /\
    ~ one_pending (snd (Bootstrap.overlapped e1 e2 uid w)).
Proof.
  intros Hok Hnil Hf1 Hf2 Hne.
  assert (Bootstrap.lookup uid w = (Returned None, w)) as Hl.
  { unfold Bootstrap.lookup, findFirst, select.
    fold (pending_rows uid (table w)). rewrite Hnil. reflexivity. }
  destruct (create_pending_succeeds e1 uid w Hok Hf1)
    as (c1 & Hc1 & Hu1 & Hr1 & He1).
  set (w1 := with_table (table w ++ [c1]) (with_issued (S (issued w)) w)) in *.
  assert (store_ok w1) as Hok1
    by exact (ev_ok (steady_create e1 (pending_data e1 uid) w _ w1 Hok Hc1) Hok).
  assert (externalId_fresh e2 uid w1) as Hf2'.
  { intros d Hd Hu. simpl in Hd. apply in_app_or in Hd.
    destruct Hd as [Hd|[<-|[]]]; [exact (Hf2 d Hd Hu)|congruence]. }
  destruct (create_pending_succeeds e2 uid w1 Hok1 Hf2')
    as (c2 & Hc2 & Hu2 & Hr2 & He2).
  assert (pending_rows uid (table w ++ [c1; c2]) = [c1; c2]) as Hp.
  { unfold pending_rows in *. rewrite filter_app, Hnil. simpl.
    assert (matches (pending_of uid) c1 = true) as ->
      by (apply matches_pending_of; auto).
    assert (matches (pending_of uid) c2 = true) as ->
      by (apply matches_pending_of; auto).
    reflexivity. }
  assert (Bootstrap.overlapped e1 e2 uid w
          = (handed_out c1, handed_out c2,
             with_table (table w ++ [c1; c2])
               (with_issued (S (S (issued w))) w))) as Ho.
  { unfold Bootstrap.overlapped. rewrite Hl, Hl.
    unfold resume, Bootstrap.finish, route, bind. rewrite Hc1.
    unfold ret. fold w1. rewrite Hc2. unfold handed_out, w1, with_table,
      with_issued. simpl. rewrite <- app_assoc. reflexivity. }
  exists c1, c2. split; [exact Ho|].
  split; [exact He1|]. split; [exact He2|].
  split; [intros E; apply Hne; rewrite <- He1, <- He2|].
  { assert (c1 = c2) as ->; [|reflexivity].
    assert (NoDup (map id (table w1 ++ [c2]))) as Hnd.
    { pose proof (ev_ok (steady_create e2 (pending_data e2 uid) w1 _ _ Hok1 Hc2)
                    Hok1) as Hok2.
      exact (ok_pk Hok2). }
    apply (pk_injective (table w1 ++ [c2])); auto.
    - apply in_or_app; left. simpl. apply in_or_app; right; left; reflexivity.
    - apply in_or_app; right; left; reflexivity. }
  split; [exact Hp|].
  rewrite Ho. intros H. specialize (H uid). simpl in H. rewrite Hp in H.
  simpl in H. lia.
Qed.


(* ================================================================== *)
(** ** Users do not see each other's requests *)

Lemma rows_of_append b c tbl :
  userId c <> b -> rows_of b (tbl ++ [c]) = rows_of b tbl.
Proof.
  intros H. unfold rows_of. rewrite filter_app. simpl.
  apply String.eqb_neq in H. rewrite H. apply app_nil_r.
Qed.

Lemma rows_of_remove b i tbl :
  (forall a, In a tbl -> id a = i -> userId a <> b) ->
  rows_of b (remove i tbl) = rows_of b tbl.
Proof.
  unfold rows_of, remove. induction tbl as [|a t IH]; simpl; intros H;
    [reflexivity|].
  destruct (String.eqb (id a) i) eqn:E; simpl.
  - apply String.eqb_eq in E.
    assert (userId a <> b) as Hne by (apply H; auto).
    apply String.eqb_neq in Hne. rewrite Hne. apply IH. intros; apply H; auto.
  - rewrite IH; [reflexivity|]. intros; apply H; auto.
Qed.

Lemma rows_of_replace b i c' tbl :
  (forall a, In a tbl -> id a = i -> userId a <> b) -> userId c' <> b ->
  rows_of b (replace i c' tbl) = rows_of b tbl.
Proof.
  unfold rows_of. induction tbl as [|a t IH]; simpl; intros H Hc;
    [reflexivity|].
  destruct (String.eqb (id a) i) eqn:E; simpl.
  - apply String.eqb_eq in E.
    assert (userId a <> b) as Hne by (apply H; auto).
    apply String.eqb_neq in Hne, Hc. rewrite Hne, Hc. reflexivity.
  - rewrite IH; auto.
Qed.

(** What reconciliation can do to the table; the row it writes has the
    owner of the row it was given. *)
Lemma reconcile_writes_own e uid r n c w out w' :
  store_ok w -> In c (table w) ->
  Verify.reconcile e uid r n c w = (out, w') ->
  table w' = table w \/
  table w' = remove (id c) (table w) \/
  exists c', userId c' = userId c /\ table w' = replace (id c) c' (table w).
Proof.
  intros Hok Hin.
  assert (forall out w', Verify.promote e r n c w = (out, w') ->
            table w' = table w \/
            table w' = remove (id c) (table w) \/
            exists c', userId c' = userId c /\
                       table w' = replace (id c) c' (table w)) as Hpromote.
  { unfold Verify.promote, update. intros o v H.
    rewrite (find_by_id_unique (table w) c (ok_pk Hok) Hin) in H.
    destruct (clashes _ _ _); inversion H; subst; simpl; auto.
    right; right. eexists. split; [|reflexivity]. reflexivity. }
  unfold Verify.reconcile, bind, findFirst.
  destruct (select _ _ (table w)) as [ex|]; [|apply Hpromote].
  destruct (negb _); [|apply Hpromote].
  destruct (roleArn c); [intros H; inversion H; auto|].
  unfold delete.
  destruct (find _ (table w)); intros H; inversion H; subst; simpl; auto.
Qed.

Lemma serve_keeps_rows_of r a b w :
  store_ok w -> signed_in (session_of r) = Some a -> a <> b ->
  rows_of b (table (snd (serve r w))) = rows_of b (table w).
Proof.
  intros Hok Es Hab.
  destruct r as [e s|e s q|e s cid|e s q|e s q]; simpl in Es;
    try (destruct (s3_route_world (Buckets_GET e s cid) w) as [made Hw]);
    try (destruct (s3_route_world (Objects_GET e s q) w) as [made Hw]);
    try (destruct (s3_route_world (PresignedUrl_POST e s q) w) as [made Hw]);
    try (rewrite Hw; reflexivity).
  - simpl. unfold Bootstrap.GET, route, bind, findFirst. rewrite Es.
    destruct (select (pending_of a) CreatedAtDesc (table w)); [reflexivity|].
    destruct (create e (pending_data e a) w) as [[c|m] w1] eqn:Ec.
    + apply create_returned in Ec. destruct Ec as [Hc ->].
      cbn [snd table with_table]. apply rows_of_append. rewrite Hc. exact Hab.
    + apply create_threw in Ec. subst w1. reflexivity.
  - simpl. unfold Verify.POST, route. rewrite Es.
    destruct (Verify.roleArn q) as [r|]; [|reflexivity].
    destruct (JS.truthy r); simpl; [|reflexivity].
    destruct (Verify.malformed r); simpl; [reflexivity|].
    unfold bind.
    destruct (Verify.resolveConnection e a (Verify.connectionId q) w)
      as [out w1] eqn:ER.
    pose proof (ev_ok (steady_resolveConnection _ _ _ _ _ _ Hok ER) Hok) as Hok1.
    assert (rows_of b (table w1) = rows_of b (table w)) as H1.
    { revert ER. rewrite resolveConnection_stored.
      destruct (stored a (Verify.connectionId q) (table w)).
      - intros E; inversion E; subst; reflexivity.
      - destruct (create e (pending_data e a) w) as [[c|m] w0] eqn:Ec;
          intros E; inversion E; subst.
        + apply create_returned in Ec. destruct Ec as [Hc ->].
          cbn [table with_table]. apply rows_of_append. rewrite Hc. exact Hab.
        + apply create_threw in Ec. subst. reflexivity. }
    destruct out as [c|m]; [|exact H1].
    destruct (resolveConnection_sound _ _ _ _ _ _ ER) as (Hin & Hu & _).
    destruct (probe_spec e r c w1) as (p & tail & -> & _ & _).
    destruct p as [response|cr]; [exact H1|].
    destruct (Verify.reconcile e a r (Verify.name q) c _) as [out w3] eqn:ERc.
    apply reconcile_writes_own in ERc;
      [|apply store_ok_with_calls; exact Hok1|exact Hin].
    cbn [table with_calls] in ERc.
    assert (forall x, In x (table w1) -> id x = id c -> userId x <> b) as Hown.
    { intros x Hx Hid.
      assert (x = c) as -> by (apply (pk_injective (table w1)); auto using ok_pk).
      congruence. }
    assert (rows_of b (table w3) = rows_of b (table w)) as H3.
    { rewrite <- H1. destruct ERc as [->|[->|(c' & Hc' & ->)]].
      - reflexivity.
      - apply rows_of_remove; exact Hown.
      - apply rows_of_replace; [exact Hown|congruence]. }
    destruct out; exact H3.
Qed.

(** X16.  Whatever a signed-in user requests, on a store that has its keys,
    the rows of every other user stay as they are and in their order; so
    the connection any route resolves for another user, for any
    connectionId, is the same before and after. *)
Theorem requests_do_not_cross_users r a b w :
  store_ok w -> signed_in (session_of r) = Some a -> a <> b ->
  rows_of b (table (snd (serve r w))) = rows_of b (table w) /\
  forall cid,
    fetched b cid (table (snd (serve r w))) = fetched b cid (table w) /\
    stored b cid (table (snd (serve r w))) = stored b cid (table w).
Proof.
  intros Hok Es Hab.
  pose proof (serve_keeps_rows_of r a b w Hok Es Hab) as H.
  split; [exact H|]. intros cid. split.
  - rewrite <- fetched_rows_of, H. apply fetched_rows_of.
  - rewrite <- stored_rows_of, H. apply stored_rows_of.
Qed.

(* ================================================================== *)
(** ** What the client is told when AWS says no *)

Lemma assumeRole_unconfigured e r x w :
  ~ configured e -> fst (Aws.assumeRole e r x w) = Threw credentials_missing.
Proof.
  unfold configured, credentials_missing.
  unfold Aws.assumeRole, Aws.getBaseCredentials, bind, log, attempt, ret, throw.
  destruct (AWS_ACCESS_KEY_ID e) as [[|a0 a]|];
    destruct (AWS_SECRET_ACCESS_KEY e) as [[|s0 s]|]; simpl;
    intros H; try reflexivity.
  exfalso; apply H; auto.
Qed.

Lemma assumeRole_configured e r x w :
  configured e ->
  fst (Aws.assumeRole e r x w)
  = match sts_AssumeRole e (stsClientOf e) (stsCommandOf e r x) with
    | inl m => Threw ("Failed to assume role: " ++ m)
    | inr response =>
        match Credentials_ response with
        | Some c => Returned (issued_by c)
        | None =>
            Threw "Failed to assume role: Failed to assume role: No credentials returned"
        end
    end.
Proof.
  unfold configured, stsClientOf, stsCommandOf, issued_by.
  unfold Aws.assumeRole, Aws.getBaseCredentials, bind, log, attempt, ret, throw.
  destruct (AWS_ACCESS_KEY_ID e) as [[|a0 a]|];
    destruct (AWS_SECRET_ACCESS_KEY e) as [[|s0 s]|]; simpl;
    intros [H1 H2]; try discriminate.
  destruct (sts_AssumeRole e _ _) as [m|response]; simpl; [reflexivity|].
  destruct (Credentials_ response); reflexivity.
Qed.

Lemma probe_answer e r c w :
  fst (Verify.probe e r c w)
  = match fst (Aws.assumeRole e (Some r) (externalId c) w) with
    | Threw m => Returned (inl (Verify.assume_failed m))
    | Returned credentials =>
        match fst (Aws.listBuckets e credentials w) with
        | Threw m => Returned (inl (Verify.access_denied m))
        | Returned _ => Returned (inr credentials)
        end
    end.
Proof.
  unfold Verify.probe, bind, attempt.
  destruct (Aws.assumeRole e (Some r) (externalId c) w) as [[cr|m] wa]; simpl;
    [|reflexivity].
  rewrite (listBuckets_answer e cr w wa).
  destruct (Aws.listBuckets e cr wa) as [[bs|m] wb]; reflexivity.
Qed.

Lemma verify_probe_failed e session uid request r c w w1 response :
  signed_in session = Some uid ->
  Verify.roleArn request = Some r -> JS.truthy r = true ->
  Verify.malformed r = false ->
  Verify.resolveConnection e uid (Verify.connectionId request) w = (Returned c, w1) ->
  fst (Verify.probe e r c w1) = Returned (inl response) ->
  fst (Verify.POST e session request w) = response /\
  table (snd (Verify.POST e session request w)) = table w1.
Proof.
  intros Es Er Et Em ER Hp.
  rewrite (verify_resolved _ _ _ _ _ _ _ _ Es Er Et Em ER).
  destruct (probe_spec e r c w1) as (p & tail & EP & _ & _).
  rewrite EP in *. simpl in Hp. inversion Hp; subst. split; reflexivity.
Qed.

(** X17.  What AWS says is passed on to the client of verify in a 403.  If
    STS refuses the role with message [m], the body's details are "Failed
    to assume role: m"; if STS issues credentials and S3 refuses to list
    the buckets with message [m], they are "Failed to list buckets: m".  In
    both cases the table is what it was once the row had been resolved. *)
Theorem refusal_is_reported e session uid request r c w w1 :
  signed_in session = Some uid ->
  Verify.roleArn request = Some r -> JS.truthy r = true ->
  Verify.malformed r = false ->
  Verify.resolveConnection e uid (Verify.connectionId request) w = (Returned c, w1) ->
  configured e ->
  (forall m,
     sts_AssumeRole e (stsClientOf e) (stsCommandOf e (Some r) (externalId c))
       = inl m ->
     fst (Verify.POST e session request w)
       = Verify.assume_failed ("Failed to assume role: " ++ m) /\
     table (snd (Verify.POST e session request w)) = table w1) /\
  (forall response sc m,
     sts_AssumeRole e (stsClientOf e) (stsCommandOf e (Some r) (externalId c))
       = inr response ->
     Credentials_ response = Some sc ->
     s3_ListBuckets e (Aws.createS3Client e (issued_by sc)) = inl m ->
     fst (Verify.POST e session request w)
       = Verify.access_denied ("Failed to list buckets: " ++ m) /\
     table (snd (Verify.POST e session request w)) = table w1).
Proof.
  intros Es Er Et Em ER Hcfg. split.
  - intros m Hs.
    apply (verify_probe_failed e session uid request r c w w1 _ Es Er Et Em ER).
    rewrite probe_answer, (assumeRole_configured e _ _ w1 Hcfg), Hs. reflexivity.
  - intros response sc m Hs Hc Hl.
    apply (verify_probe_failed e session uid request r c w w1 _ Es Er Et Em ER).
    rewrite probe_answer, (assumeRole_configured e _ _ w1 Hcfg), Hs, Hc.
    unfold Aws.listBuckets, bind, log. rewrite Hl. reflexivity.
Qed.

(** X18.  A server without base credentials (AWS_ACCESS_KEY_ID or
    AWS_SECRET_ACCESS_KEY missing or empty) answers a well-formed verify
    with 403 "Failed to assume role", as if the role had been refused,
    while the bucket route answers a request on a verified connection with
    500; both carry the configuration message as details, and STS is not
    asked. *)
Theorem missing_base_credentials e session uid w :
  ~ configured e -> signed_in session = Some uid ->
  (forall request r c w1,
     Verify.roleArn request = Some r -> JS.truthy r = true ->
     Verify.malformed r = false ->
     Verify.resolveConnection e uid (Verify.connectionId request) w
       = (Returned c, w1) ->
     fst (Verify.POST e session request w)
       = Verify.assume_failed credentials_missing) /\
  (forall cid c r,
     fetched uid cid (table w) = Some c ->
     roleArn c = Some r -> JS.truthy r = true ->
     fst (Buckets.GET e session cid w)
       = failed "Failed to list buckets" credentials_missing).
Proof.
  intros Hcfg Es. split.
  - intros request r c w1 Er Et Em ER.
    apply (verify_probe_failed e session uid request r c w w1 _ Es Er Et Em ER).
    rewrite probe_answer, (assumeRole_unconfigured e _ _ w1 Hcfg). reflexivity.
  - intros cid c r Hf Hr Ht.
    rewrite buckets_GET_paths, Es, Hf, Hr, Ht. cbv zeta.
    rewrite (assumeRole_unconfigured e _ _ w Hcfg). reflexivity.
Qed.

(** X19.  No request leaves for AWS with an empty region.  The S3 client
    takes the region of the credentials object if it has a non-empty one,
    else AWS_REGION if that is set and non-empty, else us-east-1; the STS
    client takes AWS_REGION or else us-east-1. *)
Theorem region_never_empty e credentials :
  JS.truthy (s3_region (Aws.createS3Client e credentials)) = true /\
  JS.truthy (sts_region (stsClientOf e)) = true /\
  (forall r, region credentials = Some r -> JS.truthy r = true ->
             s3_region (Aws.createS3Client e credentials) = r) /\
  (JS.truthy_opt (region credentials) = false ->
   s3_region (Aws.createS3Client e credentials) = sts_region (stsClientOf e)) /\
  (JS.truthy_opt (AWS_REGION e) = false ->
   sts_region (stsClientOf e) = "us-east-1").
Proof.
  assert (JS.truthy (JS.or_else (AWS_REGION e) "us-east-1") = true) as Hd.
  { unfold JS.or_else. destruct (AWS_REGION e) as [x|]; [|reflexivity].
    destruct (JS.truthy x) eqn:E; [exact E|reflexivity]. }
  unfold Aws.createS3Client, stsClientOf. cbn [s3_region sts_region].
  repeat split.
  - destruct (region credentials) as [x|]; [|exact Hd].
    destruct (JS.truthy x) eqn:E; [exact E|exact Hd].
  - exact Hd.
  - intros r -> ->. reflexivity.
  - destruct (region credentials) as [x|]; simpl; [|reflexivity].
    intros ->. reflexivity.
  - unfold JS.or_else. destruct (AWS_REGION e) as [x|]; simpl; [|reflexivity].
    intros ->. reflexivity.
Qed.

(* ================================================================== *)
(** ** The earlier revision of verify *)

Lemma same_binding_true uid r x c :
  VerifyLegacy.same_binding uid r x c = true ->
  userId c = uid /\ roleArn c = Some r /\ externalId c = x.
Proof.
  unfold VerifyLegacy.same_binding. intros H.
  apply andb_true_iff in H. destruct H as [H Hx].
  apply andb_true_iff in H. destruct H as [Hu Hr].
  apply String.eqb_eq in Hu, Hx. apply opt_eqb_eq in Hr. auto.
Qed.

(** The earlier revision, read as one expression. *)
Lemma legacy_POST_paths e today session request w :
  VerifyLegacy.POST e today session request w =
  match signed_in session with
  | None => (unauthorized, w)
  | Some uid =>
      match VerifyLegacy.roleArn request, VerifyLegacy.externalId request with
      | Some r, Some x =>
          if JS.truthy r && JS.truthy x then
            if Verify.malformed r then (Verify.roleArn_invalid, w)
            else
              let w1 := with_calls (calls w ++ [CallAssumeRole (Some r) x]) w in
              match fst (Aws.assumeRole e (Some r) x w) with
              | Threw m => (Verify.assume_failed m, w1)
              | Returned cr =>
                  let w2 := with_calls
                              (calls w ++ [CallAssumeRole (Some r) x;
                                           CallListBuckets cr]) w in
                  match fst (Aws.listBuckets e cr w) with
                  | Threw m => (Verify.access_denied m, w2)
                  | Returned _ =>
                      route "Internal server error"
                        (connection <-
                           match find (VerifyLegacy.same_binding uid r x)
                                   (table w) with
                           | Some existing =>
                               update e (id existing)
                                 {| u_roleArn := None;
                                    u_name :=
                                      Some (JS.or_else
                                              (VerifyLegacy.name request)
                                              (name existing)) |}
                           | None =>
                               create e
                                 {| c_userId := uid;
                                    c_externalId := x;
                                    c_roleArn := Some r;
                                    c_name :=
                                      JS.or_else (VerifyLegacy.name request)
                                        ("AWS Connection " ++ today) |}
                           end ;;
                         ret (VerifyLegacy.saved connection)) w2
                  end
              end
          else (VerifyLegacy.fields_required, w)
      | _, _ => (VerifyLegacy.fields_required, w)
      end
  end.
Proof.
  unfold VerifyLegacy.POST, route.
  destruct (signed_in session) as [uid|]; [|reflexivity].
  destruct (VerifyLegacy.roleArn request) as [r|];
    destruct (VerifyLegacy.externalId request) as [x|]; simpl;
    try reflexivity;
    [|destruct (JS.truthy r); reflexivity].
  destruct (JS.truthy r) eqn:Tr; destruct (JS.truthy x) eqn:Tx; simpl;
    try reflexivity.
  destruct (Verify.malformed r); [reflexivity|].
  unfold bind at 1. unfold attempt at 1.
  destruct (assumeRole_world e (Some r) x w) as [out Ea]. rewrite Ea.
  cbn [fst]. destruct out as [cr|m]; [|reflexivity].
  unfold bind at 1. unfold attempt at 1.
  rewrite (listBuckets_answer e cr w
             (with_calls (calls w ++ [CallAssumeRole (Some r) x]) w)).
  destruct (listBuckets_world e cr
              (with_calls (calls w ++ [CallAssumeRole (Some r) x]) w))
    as [out El].
  rewrite El. cbn [fst calls with_calls]. rewrite <- app_assoc. cbn [app].
  destruct out as [bs|m]; [|reflexivity].
  unfold bind at 1. unfold VerifyLegacy.findBinding. cbn [table with_calls].
  reflexivity.
Qed.


(** X21.  The earlier revision of verify writes only when it answers 200,
    that is, after role assumption and bucket listing have both passed: on
    any other answer the table is unchanged, so it never leaves a pending
    row behind.  On 200, on a store that has its keys, the connection in
    the answer is a row of the user in the table that carries the submitted
    role and the submitted External ID. *)
Theorem legacy_verify_stores_after_probe e today session uid request w :
  store_ok w -> signed_in session = Some uid ->
  (status (fst (VerifyLegacy.POST e today session request w)) <> 200 ->
   table (snd (VerifyLegacy.POST e today session request w)) = table w) /\
  (status (fst (VerifyLegacy.POST e today session request w)) = 200 ->
   exists r x c,
     VerifyLegacy.roleArn request = Some r /\
     VerifyLegacy.externalId request = Some x /\
     In c (table (snd (VerifyLegacy.POST e today session request w))) /\
     userId c = uid /\ roleArn c = Some r /\ externalId c = x /\
     fst (VerifyLegacy.POST e today session request w) = VerifyLegacy.saved c).
Proof.
  intros Hok Es. rewrite legacy_POST_paths, Es.
  destruct (VerifyLegacy.roleArn request) as [r|];
    destruct (VerifyLegacy.externalId request) as [x|]; simpl;
    try (split; [reflexivity|discriminate]).
  destruct (JS.truthy r && JS.truthy x); [|split; [reflexivity|discriminate]].
  destruct (Verify.malformed r); [split; [reflexivity|discriminate]|].
  destruct (fst (Aws.assumeRole e (Some r) x w)) as [cr|m];
    [|split; [reflexivity|discriminate]].
  destruct (fst (Aws.listBuckets e cr w));
    [|split; [reflexivity|discriminate]].
  unfold route, bind.
  destruct (find (VerifyLegacy.same_binding uid r x) (table w)) as [ex|] eqn:Ef.
  - apply find_some in Ef. destruct Ef as [Hex Hb].
    apply same_binding_true in Hb. destruct Hb as (Hu & Hr & Hx).
    unfold update. cbn [table with_calls].
    rewrite (find_by_id_unique (table w) ex (ok_pk Hok) Hex).
    destruct (clashes _ _ _); simpl; [split; [reflexivity|discriminate]|].
    split; [intros H; exfalso; apply H; reflexivity|]. intros _.
    eexists r, x, _. repeat split; try reflexivity; auto.
    apply In_replace_new. exists ex; auto.
  - destruct (create e _ _) as [[c|m] w3] eqn:Ec; simpl.
    + apply create_returned in Ec. destruct Ec as [Hc ->].
      split; [intros H; exfalso; apply H; reflexivity|]. intros _.
      exists r, x, c. cbn [table with_table with_issued with_calls].
      repeat split; try (rewrite Hc; reflexivity).
      apply in_or_app; right; left; reflexivity.
    + apply create_threw in Ec. subst w3.
      split; [reflexivity|discriminate].
Qed.

(* ================================================================== *)
(** ** Verifying again *)

Lemma select_role_unique w c uid r ex :
  store_ok w -> In c (table w) -> userId c = uid -> roleArn c = Some r ->
  select (by_user_and_role uid r) Unordered (table w) = Some ex ->
  id ex = id c.
Proof.
  intros Hok Hin Hu Hr Hs.
  destruct (select_sound _ _ _ _ Hs) as [Hexin Hm].
  apply matches_by_user_and_role in Hm. destruct Hm as [Hexu Hexr].
  apply (@ok_roleArn _ Hok ex c r); auto. congruence.
Qed.

(** X22.  Verifying a verified connection again with the role it has is
    idempotent: after a successful verify on a store that has its keys, a
    second verify of the same user for the same role that names the
    connection of the first answer, brings no new name and passes the probe
    again, gives the same answer, and changes nothing in the table but the
    updatedAt of that row. *)
Theorem reverify_is_idempotent e e2 session uid request r w :
  store_ok w -> signed_in session = Some uid ->
  Verify.roleArn request = Some r ->
  status (fst (Verify.POST e session request w)) = 200 ->
  forall c2,
    In c2 (table (snd (Verify.POST e session request w))) ->
    fst (Verify.POST e session request w) = Verify.verified c2 ->
    forall again,
      Verify.roleArn again = Some r ->
      Verify.connectionId again = Some (id c2) -> JS.truthy (id c2) = true ->
      JS.truthy_opt (Verify.name again) = false ->
      ~ probe_fails e2 r c2 (snd (Verify.POST e session request w)) ->
      fst (Verify.POST e2 session again (snd (Verify.POST e session request w)))
        = fst (Verify.POST e session request w) /\
      table (snd (Verify.POST e2 session again
                    (snd (Verify.POST e session request w))))
        = replace (id c2)
            {| id := id c2; userId := userId c2; externalId := externalId c2;
               roleArn := roleArn c2; name := name c2;
               createdAt := createdAt c2; updatedAt := now e2 |}
            (table (snd (Verify.POST e session request w))).
Proof.
  intros Hok Es Er H200.
  pose proof (verify_200_valid e session request w r H200 Er) as Et.
  assert (Verify.malformed r = false) as Em.
  { revert H200. unfold Verify.POST, route. rewrite Es, Er, Et. simpl.
    destruct (Verify.malformed r); [discriminate|reflexivity]. }
  pose proof (ev_ok (serve_evolves (Verify_POST e session request) w Hok) Hok)
    as HokV. simpl in HokV.
  destruct (verify_succeeded e session request w H200)
    as (uid' & r' & c & w1 & c2 & w3 & l & Es' & Er' & ER & ERc & HV).
  rewrite Es in Es'; inversion Es'; subst uid'.
  rewrite Er in Er'; inversion Er'; subst r'.
  pose proof (ev_ok (steady_resolveConnection _ _ _ _ _ _ Hok ER) Hok) as Hok1.
  destruct (resolveConnection_sound _ _ _ _ _ _ ER) as (Hin & Hu & _).
  destruct (reconcile_returns e uid r (Verify.name request) c w1 Hok1 Hin Hu)
    as (c2' & w3' & ERc' & Hin2 & Hu2 & Hr2 & _).
  rewrite ERc in ERc'; inversion ERc'; subst c2' w3'.
  rewrite HV in *. cbn [fst snd] in *.
  intros c0 Hin0 Hsame0.
  assert (c0 = c2) as ->.
  { apply (pk_injective (table (with_calls l w3))); auto using ok_pk.
    unfold Verify.verified, json in Hsame0. inversion Hsame0. auto. }
  intros again Er2 Hcid Hid Hname Hpass.
  set (wv := with_calls l w3) in *.
  assert (In c2 (table wv)) as Hin2' by exact Hin2.
  assert (Verify.resolveConnection e2 uid (Verify.connectionId again) wv
          = (Returned c2, wv)) as ER2.
  { rewrite resolveConnection_stored. unfold stored. rewrite Hcid, Hid.
    rewrite <- Hu2. rewrite (select_by_id_unique wv c2 HokV Hin2'). reflexivity. }
  rewrite (verify_resolved _ _ _ _ _ _ _ _ Es Er2 Et Em ER2).
  destruct (probe_spec e2 r c2 wv) as (p & tail & -> & _ & Hp).
  destruct p as [response|cr]; [destruct Hp; contradiction|].
  set (w2 := with_calls _ wv).
  assert (store_ok w2) as Hok2 by (apply store_ok_with_calls; exact HokV).
  assert (forall ex, select (by_user_and_role uid r) Unordered (table w2) = Some ex ->
                     id ex = id c2) as Hex.
  { intros ex. apply (select_role_unique w2 c2 uid r ex Hok2 Hin2' Hu2 Hr2). }
  assert (Verify.promote e2 r (Verify.name again) c2 w2
          = (Returned (promoted e2 r (Verify.name again) c2),
             with_table (replace (id c2) (promoted e2 r (Verify.name again) c2)
                           (table w2)) w2)) as Hpr
    by (apply (promote_succeeds e2 uid r _ c2 w2 Hok2 Hin2' Hu2 Hex)).
  assert (promoted e2 r (Verify.name again) c2
          = {| id := id c2; userId := userId c2; externalId := externalId c2;
               roleArn := roleArn c2; name := name c2;
               createdAt := createdAt c2; updatedAt := now e2 |}) as Hsame.
  { unfold promoted. rewrite Hr2. f_equal.
    destruct (Verify.name again) as [n|]; [|reflexivity].
    simpl in Hname. simpl. rewrite Hname. reflexivity. }
  assert (Verify.reconcile e2 uid r (Verify.name again) c2 w2
          = Verify.promote e2 r (Verify.name again) c2 w2) as Hrec.
  { unfold Verify.reconcile. unfold bind, findFirst.
    destruct (select (by_user_and_role uid r) Unordered (table w2)) as [ex|];
      [rewrite (Hex ex eq_refl), String.eqb_refl|]; reflexivity. }
  unfold route, bind. rewrite Hrec, Hpr, Hsame. simpl. split; [|reflexivity].
  unfold Verify.verified. cbn [id roleArn name createdAt]. reflexivity.
Qed.

(* ================================================================== *)
(** ** The further properties on the scenario *)

Lemma revisited_ok : store_ok Demo.revisited.
Proof.
  exact (ev_ok (serve_evolves (Bootstrap_GET Demo.later Demo.alice)
                  Demo.connected connected_ok) connected_ok).
Qed.

Lemma demo_configured : configured Demo.env.
Proof. split; reflexivity. Qed.

Lemma scenes_unconfigured : ~ configured Scenes.unconfigured.
Proof. intros [H _]; discriminate. Qed.

(** With and without the access key. *)
Lemma assumeRole_example :
  fst (Aws.assumeRole Scenes.unconfigured (Some Demo.demoRole) "ext-alice"
         Demo.empty)
    = Threw credentials_missing /\
  fst (Aws.assumeRole Demo.env (Some Demo.demoRole) "ext-alice" Demo.empty)
    = Returned (issued_by Demo.issuedCredentials).
Proof.
  split.
  - exact (proj1 (assumeRole_outcome Scenes.unconfigured (Some Demo.demoRole)
                    "ext-alice" Demo.empty) scenes_unconfigured).
  - exact (proj2 (assumeRole_outcome Demo.env (Some Demo.demoRole)
                    "ext-alice" Demo.empty) demo_configured).
Defined.

(** Nobody asks for alice's buckets. *)
Lemma anonymous_example :
  serve (Buckets_GET Demo.env None (Some "c0")) Demo.connected
  = (unauthorized, Demo.connected).
Proof.
  exact (unauthenticated_refused (Buckets_GET Demo.env None (Some "c0"))
           Demo.connected eq_refl).
Defined.

(** Alice lists her buckets. *)
Lemma buckets_success_example :
  status (fst (Buckets.GET Demo.env Demo.alice (Some "c0") Demo.connected)) = 200 /\
  exists c r sc,
    In c (table Demo.connected) /\ userId c = "alice" /\ roleArn c = Some r /\
    calls (snd (Buckets.GET Demo.env Demo.alice (Some "c0") Demo.connected))
    = (calls Demo.connected ++ [CallAssumeRole (Some r) (externalId c);
                               CallListBuckets (issued_by sc)])%list.
Proof.
  split; [reflexivity|].
  destruct (buckets_success Demo.env Demo.alice (Some "c0") Demo.connected eq_refl)
    as (uid & c & r & response & sc & bs & Es & Hin & Hu & Hr & _ & _ & _ & Hc & _).
  exists c, r, sc. inversion Es. subst uid. auto.
Defined.


(** Alice lists the objects of a bucket, 25 at most. *)
Lemma objects_success_example :
  status (fst (Objects.GET Demo.env Demo.alice Scenes.photos Demo.connected)) = 200 /\
  exists c sc result,
    In c (table Demo.connected) /\
    fst (Objects.GET Demo.env Demo.alice Scenes.photos Demo.connected)
    = objects_listed "photos" None result c /\
    calls (snd (Objects.GET Demo.env Demo.alice Scenes.photos Demo.connected))
    = (calls Demo.connected ++
       [CallAssumeRole (roleArn c) (externalId c);
        CallListObjects "photos" None (Some (JS.of_Z 25))
          (Some (issued_by sc))])%list.
Proof.
  split; [reflexivity|].
  destruct (objects_success Demo.env Demo.alice Scenes.photos Demo.connected eq_refl)
    as (uid & c & response & sc & b & result & _ & Hin & _ & Hb & _ & _ & _ & _
        & Hc & H & Hm & _).
  inversion Hb; subst b. exists c, sc, result.
  split; [exact Hin|]. split; [exact H|].
  rewrite Hc, (Hm "25" eq_refl). reflexivity.
Defined.

(** An upload request without a key, as it arrives, and one with an
    empty key. *)
Lemma missing_parameters_example :
  PresignedUrl.handle (PresignedUrl.proceed Demo.env) Demo.alice
    (inr Scenes.keylessBody) Demo.connected
  = (PresignedUrl.missing_parameters, Demo.connected) /\
  PresignedUrl.POST Demo.env Demo.alice Scenes.keyless Demo.connected
  = (PresignedUrl.missing_parameters, Demo.connected).
Proof.
  destruct (missing_parameters_rejected Demo.alice "alice" Demo.connected eq_refl)
    as (Harrives & Hdeclared & _).
  split.
  - apply Harrives; [discriminate|right; reflexivity].
  - apply Hdeclared. right; reflexivity.
Defined.

(** A verify request whose roleArn is the number 12345. *)
Lemma unusable_body_example :
  status (fst (Verify.handle (Verify.proceed Demo.env) Demo.alice
                 (inr Scenes.numericArn) Demo.bootstrapped)) = 500 /\
  snd (Verify.handle (Verify.proceed Demo.env) Demo.alice
         (inr Scenes.numericArn) Demo.bootstrapped) = Demo.bootstrapped.
Proof.
  destruct (proj1 (unusable_body_is_500 Demo.alice "alice" Demo.bootstrapped
                     eq_refl)
              (Verify.proceed Demo.env) (inr Scenes.numericArn)) as (H & _ & H').
  - right; right. exists Scenes.numericArn. repeat split.
  - split; [exact H|exact H'].
Defined.

(** Bob has no connection, whatever id he names. *)
Lemma no_connection_example :
  Buckets.GET Demo.env Demo.bob (Some "c0") Demo.connected
  = (not_found, Demo.connected).
Proof.
  exact (proj1 (no_connection_404 Demo.env Demo.bob "bob" Demo.connected
                  eq_refl eq_refl) (Some "c0")).
Defined.

(** Alice's first visit cannot fail. *)
Lemma bootstrap_outcome_example :
  status (fst (Bootstrap.GET Demo.env Demo.alice Demo.empty)) = 200.
Proof.
  apply (proj1 (bootstrap_outcome Demo.env Demo.alice "alice" Demo.empty
                  empty_ok eq_refl)).
  right. intros d [].
Defined.

(** Alice's verify of a role that is a number is answered 500; her verify
    of a role that STS refuses is not. *)
Lemma verify_500_example :
  status (fst (Verify.handle (Verify.proceed Demo.env) Demo.alice
                 (inr Scenes.numericArn) Demo.bootstrapped)) = 500 /\
  status (fst (Verify.handle (Verify.proceed Demo.env) Demo.alice
                 (inr Scenes.strangerBody) Demo.bootstrapped)) <> 500.
Proof.
  split.
  - apply (verify_500_exactly Demo.env Demo.alice "alice"
             (inr Scenes.numericArn) Demo.bootstrapped bootstrapped_ok eq_refl).
    + intros body H. inversion H. split; exact I.
    + left. split; reflexivity.
  - intros H.
    apply (verify_500_exactly Demo.env Demo.alice "alice"
             (inr Scenes.strangerBody) Demo.bootstrapped bootstrapped_ok eq_refl)
      in H.
    + destruct H as [[_ H]|(body & r & Hb & _ & _ & _ & Hs & _)];
        [discriminate|].
      inversion Hb; subst body. discriminate.
    + intros body Hb. inversion Hb. split; exact I.
Defined.

(** The External ID alice is shown is the one her verify uses. *)
Lemma bootstrap_then_verify_example :
  exists c,
    fst (Bootstrap.GET Demo.env Demo.alice Demo.empty)
      = json (JObj [("success", JBool true);
                    ("connectionId", JStr (id c));
                    ("externalId", JStr (externalId c))]) 200 /\
    exists tail,
      calls (snd (Verify.POST Demo.later Demo.alice
                    (Demo.verifyBody Demo.demoRole None)
                    (snd (Bootstrap.GET Demo.env Demo.alice Demo.empty))))
      = (calls (snd (Bootstrap.GET Demo.env Demo.alice Demo.empty))
         ++ CallAssumeRole (Some Demo.demoRole) (externalId c) :: tail)%list.
Proof.
  destruct (bootstrap_then_verify Demo.env Demo.later Demo.alice
              (Demo.verifyBody Demo.demoRole None) Demo.demoRole Demo.empty
              empty_ok eq_refl eq_refl eq_refl eq_refl) as (c & Hresp & H).
  exists c. split; [exact Hresp|]. apply H. left; reflexivity.
Defined.

(** After her verify alice's buckets are within reach. *)
Lemma verify_then_buckets_example :
  status (fst (Buckets.GET Demo.later Demo.alice (Some "c0") Demo.connected))
    <> 409 /\
  exists c2 tail,
    roleArn c2 = Some Demo.demoRole /\
    calls (snd (Buckets.GET Demo.later Demo.alice (Some "c0") Demo.connected))
    = (calls Demo.connected
       ++ CallAssumeRole (Some Demo.demoRole) (externalId c2) :: tail)%list.
Proof.
  destruct (verify_then_buckets Demo.env Demo.later Demo.alice "alice"
              (Demo.verifyBody Demo.demoRole (Some "c0")) Demo.demoRole
              Demo.bootstrapped bootstrapped_ok eq_refl eq_refl eq_refl)
    as (c2 & H1 & _ & _ & H2 & H3).
  assert (id c2 = "c0") as Hid
    by (unfold Verify.verified, json in H1; inversion H1; reflexivity).
  rewrite Hid in H3. destruct (H3 eq_refl) as (_ & H409 & tail & Hcalls).
  split; [exact H409|]. exists c2, tail. split; [exact H2|exact Hcalls].
Defined.

(** Alice verifies the demo role a second time, on her second pending row:
    the External ID of that row passed the probe, the connection she gets
    back has the first one. *)
Lemma reused_connection_example :
  fst (Verify.POST Demo.elsewhere Demo.alice
         (Demo.verifyBody Demo.demoRole (Some "c1")) Demo.revisited)
    = Verify.verified (promoted Demo.env Demo.demoRole None Demo.pendingRow) /\
  externalId (promoted Demo.env Demo.demoRole None Demo.pendingRow)
    <> externalId Scenes.secondPending.
Proof.
  destruct (reused_connection_has_other_externalId Demo.elsewhere Demo.alice
              "alice" (Demo.verifyBody Demo.demoRole (Some "c1")) Demo.demoRole
              Scenes.secondPending Demo.revisited Demo.revisited
              (promoted Demo.env Demo.demoRole None Demo.pendingRow)
              revisited_ok eq_refl eq_refl eq_refl eq_refl eq_refl
              (fun H => H) eq_refl)
    as (H1 & H2 & _).
  - discriminate.
  - split; [exact H1|exact H2].
Defined.

(** Alice opens the dashboard in two tabs at once: two pending rows. *)
Lemma overlapping_bootstraps_example :
  pending_rows "alice" (table Demo.empty) = [] /\
  List.length
    (pending_rows "alice"
       (table (snd (Bootstrap.overlapped Demo.env Demo.later "alice"
                      Demo.empty)))) = 2%nat /\
  ~ one_pending (snd (Bootstrap.overlapped Demo.env Demo.later "alice"
                        Demo.empty)).
Proof.
  split; [reflexivity|].
  destruct (overlapping_bootstraps Demo.env Demo.later "alice" Demo.empty
              empty_ok eq_refl)
    as (c1 & c2 & Ho & _ & _ & _ & Hp & Hn).
  - intros d [].
  - intros d [].
  - discriminate.
  - split; [|exact Hn]. rewrite Ho. cbn [snd table with_table].
    rewrite Hp. reflexivity.
Defined.

(** A day of requests leaves nobody with two pending rows. *)
Lemma one_pending_example : one_pending (run Scenes.day Demo.empty).
Proof.
  apply (one_pending_kept Scenes.day Demo.empty).
  intros uid. simpl. lia.
Defined.

(** Alice's verify does not touch what bob's requests resolve. *)
Lemma isolation_example :
  fetched "bob" (Some "c0")
    (table (snd (serve (Verify_POST Demo.env Demo.alice
                          (Demo.verifyBody Demo.demoRole (Some "c0")))
                   Demo.bootstrapped)))
  = fetched "bob" (Some "c0") (table Demo.bootstrapped).
Proof.
  destruct (requests_do_not_cross_users
              (Verify_POST Demo.env Demo.alice
                 (Demo.verifyBody Demo.demoRole (Some "c0")))
              "alice" "bob" Demo.bootstrapped bootstrapped_ok eq_refl)
    as [_ H].
  - discriminate.
  - exact (proj1 (H (Some "c0"))).
Defined.

(** STS refuses the stranger's role and alice is told so. *)
Lemma refusal_example :
  fst (Verify.POST Demo.env Demo.alice
         (Demo.verifyBody Demo.strangerRole (Some "c0")) Demo.bootstrapped)
  = Verify.assume_failed "Failed to assume role: AccessDenied".
Proof.
  exact (proj1 (proj1 (refusal_is_reported Demo.env Demo.alice "alice"
                         (Demo.verifyBody Demo.strangerRole (Some "c0"))
                         Demo.strangerRole Demo.pendingRow Demo.bootstrapped
                         Demo.bootstrapped eq_refl eq_refl eq_refl eq_refl
                         eq_refl demo_configured)
                 "AccessDenied" eq_refl)).
Defined.

(** The server without its access key. *)
Lemma missing_base_credentials_example :
  fst (Verify.POST Scenes.unconfigured Demo.alice
         (Demo.verifyBody Demo.demoRole (Some "c0")) Demo.bootstrapped)
    = Verify.assume_failed credentials_missing /\
  fst (Buckets.GET Scenes.unconfigured Demo.alice None Demo.connected)
    = failed "Failed to list buckets" credentials_missing.
Proof.
  destruct (missing_base_credentials Scenes.unconfigured Demo.alice "alice"
              Demo.bootstrapped scenes_unconfigured eq_refl) as [Hv _].
  destruct (missing_base_credentials Scenes.unconfigured Demo.alice "alice"
              Demo.connected scenes_unconfigured eq_refl) as [_ Hb].
  split.
  - exact (Hv (Demo.verifyBody Demo.demoRole (Some "c0")) Demo.demoRole
             Demo.pendingRow Demo.bootstrapped eq_refl eq_refl eq_refl eq_refl).
  - exact (Hb None (promoted Demo.env Demo.demoRole None Demo.pendingRow)
             Demo.demoRole eq_refl eq_refl eq_refl).
Defined.

(** Credentials from [assumeRole] carry no region: the client falls back. *)
Lemma region_example :
  s3_region (Aws.createS3Client Demo.elsewhere (issued_by Demo.issuedCredentials))
    = "eu-west-1" /\
  s3_region (Aws.createS3Client Demo.env (issued_by Demo.issuedCredentials))
    = "us-east-1".
Proof.
  destruct (region_never_empty Demo.elsewhere (issued_by Demo.issuedCredentials))
    as (_ & _ & _ & H1 & _).
  destruct (region_never_empty Demo.env (issued_by Demo.issuedCredentials))
    as (_ & _ & _ & H2 & H3).
  split.
  - rewrite (H1 eq_refl). reflexivity.
  - rewrite (H2 eq_refl). exact (H3 eq_refl).
Defined.


(** And stores the connection once the probe has passed. *)
Lemma legacy_store_example :
  exists c,
    In c (table (snd (VerifyLegacy.POST Demo.env "1/1/2026" Demo.alice
                        Scenes.legacyBody Demo.empty))) /\
    roleArn c = Some Demo.demoRole /\ externalId c = "ext-alice".
Proof.
  destruct (proj2 (legacy_verify_stores_after_probe Demo.env "1/1/2026"
                     Demo.alice "alice" Scenes.legacyBody Demo.empty
                     empty_ok eq_refl) eq_refl)
    as (r & x & c & Hr & Hx & Hin & _ & Hrole & Hext & _).
  inversion Hr; inversion Hx; subst r x.
  exists c. auto.
Defined.

(** Alice verifies the demo role twice. *)
Lemma reverify_example :
  fst (Verify.POST Demo.later Demo.alice
         (Demo.verifyBody Demo.demoRole (Some "c0")) Demo.connected)
    = fst (Verify.POST Demo.env Demo.alice
             (Demo.verifyBody Demo.demoRole (Some "c0")) Demo.bootstrapped) /\
  table (snd (Verify.POST Demo.later Demo.alice
                (Demo.verifyBody Demo.demoRole (Some "c0")) Demo.connected))
    = [promoted Demo.later Demo.demoRole None Demo.pendingRow].
Proof.
  exact (reverify_is_idempotent Demo.env Demo.later Demo.alice "alice"
           (Demo.verifyBody Demo.demoRole (Some "c0")) Demo.demoRole
           Demo.bootstrapped bootstrapped_ok eq_refl eq_refl eq_refl
           (promoted Demo.env Demo.demoRole None Demo.pendingRow)
           (or_introl eq_refl) eq_refl
           (Demo.verifyBody Demo.demoRole (Some "c0"))
           eq_refl eq_refl eq_refl eq_refl
           (fun H : probe_fails Demo.later Demo.demoRole
                      (promoted Demo.env Demo.demoRole None Demo.pendingRow)
                      Demo.connected => H)).
Defined.
